(** * Attendance reconciliation core

    A shallow embedding of the attendance page (client-side ledger, diff
    loops, autosave effect, reconciliation merge) and of the batch save
    route (tier dispatch, transactional apply), with the properties of the
    specification stated over it. *)

From stdpp Require Import gmap strings list fin_maps.

Set Default Proof Using "Type".

(** ** Values shared by the page and the route *)

(** [Attendance["status"]]: the three values offered by
    [MEMBER_STATUS_ACTIONS].  "No decision" is [null], i.e. [None]. *)
Inductive Status := present | apology | absent.

#[global] Instance Status_eq_dec : EqDecision Status.
Proof. solve_decision. Defined.

(** JavaScript truthiness of a [string | null] value: [null], [undefined]
    and the empty string are falsy. *)
Definition truthy (o : option string) : bool :=
  match o with
  | Some s => bool_decide (s ≠ "")
  | None => false
  end.

(** [a ?? b] on nullable values. *)
Definition nullish {A} (a b : option A) : option A :=
  match a with
  | Some x => Some x
  | None => b
  end.

(** ** The attendance page *)

Module Page.

(** A row of one of the three subject lists ([members], [guests],
    [pipelinerEligibility]); only [id] and [full_name] are read by the
    reconciliation code. *)
Record Person := { person_id : string; full_name : string }.

#[global] Instance Person_eq_dec : EqDecision Person.
Proof. solve_decision. Defined.

Record MemberAttendanceEntry := {
  attendanceId : option string;
  status : option Status;
}.

Record GuestAttendanceEntry := {
  guestAttendanceId : option string;
  attended : bool;
}.

(** [PipelinerAttendanceEntry] has the same shape as [GuestAttendanceEntry]. *)
Abbreviation PipelinerAttendanceEntry := GuestAttendanceEntry (only parsing).

#[global] Instance MemberAttendanceEntry_eq_dec : EqDecision MemberAttendanceEntry.
Proof. solve_decision. Defined.
#[global] Instance GuestAttendanceEntry_eq_dec : EqDecision GuestAttendanceEntry.
Proof. solve_decision. Defined.

(** The literal [{ attendanceId: null, status: null }]. *)
Definition emptyMember : MemberAttendanceEntry :=
  {| attendanceId := None; status := None |}.

(** The literal [{ attendanceId: null, attended: false }]. *)
Definition emptyGuest : GuestAttendanceEntry :=
  {| guestAttendanceId := None; attended := false |}.

(** [AttendanceUpsertInput]. *)
Record AttendanceUpsertInput := {
  up_id : option string;
  up_meeting_id : string;
  up_status : Status;
  up_member_id : option string;
  up_guest_id : option string;
  up_pipeliner_id : option string;
}.

#[global] Instance AttendanceUpsertInput_eq_dec : EqDecision AttendanceUpsertInput.
Proof. solve_decision. Defined.

(** One record of [SaveAttendanceResponse.records]. *)
Record ResponseRecord := {
  rec_id : string;
  rec_status : Status;
  rec_member_id : option string;
  rec_guest_id : option string;
  rec_pipeliner_id : option string;
}.

(** [snapshotMemberAttendance] / [snapshotGuestAttendance] /
    [snapshotPipelinerAttendance]: a fresh object with a copy of every
    entry. *)
Definition snapshotMemberAttendance
    (map : gmap string MemberAttendanceEntry) : gmap string MemberAttendanceEntry :=
  (λ entry, {| attendanceId := attendanceId entry; status := status entry |}) <$> map.

Definition snapshotGuestAttendance
    (map : gmap string GuestAttendanceEntry) : gmap string GuestAttendanceEntry :=
  (λ entry, {| guestAttendanceId := guestAttendanceId entry;
               attended := attended entry |}) <$> map.

Definition snapshotPipelinerAttendance := snapshotGuestAttendance.

(** *** The diff loops of [saveAttendance] *)

(** The arrays the three loops push to. *)
Record DiffAcc := {
  acc_upserts : list AttendanceUpsertInput;
  acc_deletions : list string;
  acc_names : list string;
}.

Definition emptyAcc : DiffAcc :=
  {| acc_upserts := []; acc_deletions := []; acc_names := [] |}.

Definition pushAll (acc : DiffAcc)
    (delta : list AttendanceUpsertInput * list string * list string) : DiffAcc :=
  {| acc_upserts := acc_upserts acc ++ delta.1.1;
     acc_deletions := acc_deletions acc ++ delta.1.2;
     acc_names := acc_names acc ++ delta.2 |}.

(** What one iteration of the member loop pushes:
    (upserts, deletions, names). *)
Definition memberDelta (selectedMeetingId : string)
    (memberAttendance memberInitial : gmap string MemberAttendanceEntry)
    (member : Person)
    : list AttendanceUpsertInput * list string * list string :=
  let current := default emptyMember (memberAttendance !! person_id member) in
  let initial := default emptyMember (memberInitial !! person_id member) in
  let currentStatus := status current in
  let initialStatus := status initial in
  if decide (currentStatus = initialStatus) then ([], [], [])
  else
    let attendanceId' := nullish (attendanceId current) (attendanceId initial) in
    match currentStatus with
    | Some st =>
        ([ {| up_id := attendanceId';
              up_meeting_id := selectedMeetingId;
              up_status := st;
              up_member_id := Some (person_id member);
              up_guest_id := None;
              up_pipeliner_id := None |} ],
         [], [full_name member])
    | None =>
        match attendanceId initial with
        | Some a => if bool_decide (a ≠ "")
                    then ([], [a], [full_name member])
                    else ([], [], [full_name member])
        | None => ([], [], [full_name member])
        end
    end.

(** The subject key a guest or pipeliner upsert carries. *)
Inductive AttendedKind := GuestKind | PipelinerKind.

Definition attendedUpsert (kind : AttendedKind) (selectedMeetingId : string)
    (attendanceId' : option string) (subject : string) : AttendanceUpsertInput :=
  match kind with
  | GuestKind =>
      {| up_id := attendanceId'; up_meeting_id := selectedMeetingId;
         up_status := present; up_member_id := None;
         up_guest_id := Some subject; up_pipeliner_id := None |}
  | PipelinerKind =>
      {| up_id := attendanceId'; up_meeting_id := selectedMeetingId;
         up_status := present; up_member_id := None;
         up_guest_id := None; up_pipeliner_id := Some subject |}
  end.

(** What one iteration of the guest loop (or of the pipeliner loop, which is
    the same code with [pipeliner_id] for [guest_id]) pushes. *)
Definition attendedDelta (kind : AttendedKind) (selectedMeetingId : string)
    (attendanceMap initialMap : gmap string GuestAttendanceEntry)
    (subject : Person)
    : list AttendanceUpsertInput * list string * list string :=
  let current := default emptyGuest (attendanceMap !! person_id subject) in
  let initial := default emptyGuest (initialMap !! person_id subject) in
  if decide (attended current = attended initial) then ([], [], [])
  else
    let attendanceId' :=
      nullish (guestAttendanceId current) (guestAttendanceId initial) in
    if attended current then
      ([attendedUpsert kind selectedMeetingId attendanceId' (person_id subject)],
       [], [full_name subject])
    else
      match guestAttendanceId initial with
      | Some a => if bool_decide (a ≠ "")
                  then ([], [a], [full_name subject])
                  else ([], [], [full_name subject])
      | None => ([], [], [full_name subject])
      end.

(** The three [for ... of] loops, each pushing to its accumulators in list
    order. *)
Definition memberLoop (selectedMeetingId : string)
    (memberAttendance memberInitial : gmap string MemberAttendanceEntry)
    (members : list Person) : DiffAcc :=
  fold_left
    (λ acc member,
       pushAll acc (memberDelta selectedMeetingId memberAttendance memberInitial member))
    members emptyAcc.

Definition attendedLoop (kind : AttendedKind) (selectedMeetingId : string)
    (attendanceMap initialMap : gmap string GuestAttendanceEntry)
    (subjects : list Person) : DiffAcc :=
  fold_left
    (λ acc subject,
       pushAll acc (attendedDelta kind selectedMeetingId attendanceMap initialMap subject))
    subjects emptyAcc.

(** *** Page state *)

(** The three attendance maps held in React state and the three baseline
    maps held in refs ([memberInitialRef.current] and so on). *)
Record Ledger := {
  memberAttendance : gmap string MemberAttendanceEntry;
  guestAttendance : gmap string GuestAttendanceEntry;
  pipelinerAttendance : gmap string GuestAttendanceEntry;
  memberInitialRef : gmap string MemberAttendanceEntry;
  guestInitialRef : gmap string GuestAttendanceEntry;
  pipelinerInitialRef : gmap string GuestAttendanceEntry;
}.

(** The save-related state: [saving], [saveError], [errorRecords],
    [autoSaveScheduled] and whether the timeout held in [autoSaveTimer] is
    still pending. *)
Record SaveUi := {
  saving : bool;
  saveError : option string;
  errorRecords : list string;
  autoSaveScheduled : bool;
  autoSaveTimer : bool;
}.

Record PageState := {
  selectedMeetingId : string;
  meetingType : option string;
  members : list Person;
  guests : list Person;
  pipelinerEligibility : list Person;
  ledger : Ledger;
  ui : SaveUi;
}.

Definition withLedger (l : Ledger) (s : PageState) : PageState :=
  {| selectedMeetingId := selectedMeetingId s; meetingType := meetingType s;
     members := members s; guests := guests s;
     pipelinerEligibility := pipelinerEligibility s;
     ledger := l; ui := ui s |}.

Definition withUi (u : SaveUi) (s : PageState) : PageState :=
  {| selectedMeetingId := selectedMeetingId s; meetingType := meetingType s;
     members := members s; guests := guests s;
     pipelinerEligibility := pipelinerEligibility s;
     ledger := ledger s; ui := u |}.

Definition withLists (gs ps : list Person) (s : PageState) : PageState :=
  {| selectedMeetingId := selectedMeetingId s; meetingType := meetingType s;
     members := members s; guests := gs; pipelinerEligibility := ps;
     ledger := ledger s; ui := ui s |}.

Definition withMemberAttendance (m : gmap string MemberAttendanceEntry)
    (l : Ledger) : Ledger :=
  {| memberAttendance := m; guestAttendance := guestAttendance l;
     pipelinerAttendance := pipelinerAttendance l;
     memberInitialRef := memberInitialRef l;
     guestInitialRef := guestInitialRef l;
     pipelinerInitialRef := pipelinerInitialRef l |}.

Definition withGuestAttendance (m : gmap string GuestAttendanceEntry)
    (l : Ledger) : Ledger :=
  {| memberAttendance := memberAttendance l; guestAttendance := m;
     pipelinerAttendance := pipelinerAttendance l;
     memberInitialRef := memberInitialRef l;
     guestInitialRef := guestInitialRef l;
     pipelinerInitialRef := pipelinerInitialRef l |}.

Definition withPipelinerAttendance (m : gmap string GuestAttendanceEntry)
    (l : Ledger) : Ledger :=
  {| memberAttendance := memberAttendance l;
     guestAttendance := guestAttendance l; pipelinerAttendance := m;
     memberInitialRef := memberInitialRef l;
     guestInitialRef := guestInitialRef l;
     pipelinerInitialRef := pipelinerInitialRef l |}.

(** *** Edit handlers *)

(** [handleMemberStatusChange]: the entry written for [memberId]. *)
Definition editedMember (prev initial : gmap string MemberAttendanceEntry)
    (memberId : string) (nextStatus : option Status) : MemberAttendanceEntry :=
  let existing :=
    default emptyMember (nullish (prev !! memberId) (initial !! memberId)) in
  {| attendanceId :=
       nullish (attendanceId existing) (initial !! memberId ≫= attendanceId);
     status := nextStatus |}.

Definition handleMemberStatusChange (memberId : string)
    (nextStatus : option Status) (l : Ledger) : Ledger :=
  let prev := memberAttendance l in
  withMemberAttendance
    (<[memberId := editedMember prev (memberInitialRef l) memberId nextStatus]> prev) l.

Definition handleMarkAllPresent (members : list Person) (l : Ledger) : Ledger :=
  let prev := memberAttendance l in
  withMemberAttendance
    (fold_left
       (λ next member,
          <[person_id member :=
              editedMember next (memberInitialRef l) (person_id member) (Some present)]>
            next)
       members prev)
    l.

(** [handleGuestToggle] / [handlePipelinerToggle]: the entry written. *)
Definition toggledGuest (prev initial : gmap string GuestAttendanceEntry)
    (guestId : string) (attended' : bool) : GuestAttendanceEntry :=
  let existing :=
    default emptyGuest (nullish (prev !! guestId) (initial !! guestId)) in
  {| guestAttendanceId :=
       nullish (guestAttendanceId existing)
               (initial !! guestId ≫= guestAttendanceId);
     attended := attended' |}.

Definition handleGuestToggle (guestId : string) (attended' : bool)
    (l : Ledger) : Ledger :=
  let prev := guestAttendance l in
  withGuestAttendance
    (<[guestId := toggledGuest prev (guestInitialRef l) guestId attended']> prev) l.

Definition handlePipelinerToggle (pipelinerId : string) (attended' : bool)
    (l : Ledger) : Ledger :=
  let prev := pipelinerAttendance l in
  withPipelinerAttendance
    (<[pipelinerId :=
         toggledGuest prev (pipelinerInitialRef l) pipelinerId attended']> prev) l.

(** *** Dirtiness *)

(** [memberAttendance[id]?.status ?? null !== memberInitialRef.current[id]?.status ?? null],
    the [dirty] flag of a member card. *)
Definition memberIsDirty (l : Ledger) (id : string) : bool :=
  bool_decide (memberAttendance l !! id ≫= status
               ≠ memberInitialRef l !! id ≫= status).

Definition attendedOf (m : gmap string GuestAttendanceEntry) (id : string) : bool :=
  default false (attended <$> m !! id).

Definition guestIsDirty (l : Ledger) (id : string) : bool :=
  bool_decide (attendedOf (guestAttendance l) id ≠ attendedOf (guestInitialRef l) id).

Definition pipelinerIsDirty (l : Ledger) (id : string) : bool :=
  bool_decide (attendedOf (pipelinerAttendance l) id
               ≠ attendedOf (pipelinerInitialRef l) id).

Definition hasUnsavedMemberChanges (s : PageState) : bool :=
  existsb (λ member, memberIsDirty (ledger s) (person_id member)) (members s).

Definition hasUnsavedGuestChanges (s : PageState) : bool :=
  existsb (λ guest, guestIsDirty (ledger s) (person_id guest)) (guests s).

Definition hasUnsavedPipelinerChanges (s : PageState) : bool :=
  existsb (λ pipeliner, pipelinerIsDirty (ledger s) (person_id pipeliner))
          (pipelinerEligibility s).

Definition hasUnsavedChanges (s : PageState) : bool :=
  hasUnsavedMemberChanges s || hasUnsavedGuestChanges s
  || hasUnsavedPipelinerChanges s.

(** *** [saveAttendance] *)

(** The JSON body posted to [/api/attendance/save]. *)
Record BatchRequest := {
  req_meetingId : string;
  req_meetingType : option string;
  req_upserts : list AttendanceUpsertInput;
  req_deletions : list string;
}.

(** [SaveAttendanceResponse]. *)
Record SaveAttendanceResponse := {
  resp_success : bool;
  resp_records : list ResponseRecord;
  resp_deletedIds : list string;
  resp_error : option string;
}.

(** A call of [saveAttendance] suspended at [await fetch(...)]: the request
    it sent and what its continuation closes over (the subject lists of the
    render that created the callback, the names collected for error
    attribution, the [auto] option). *)
Record InFlight := {
  sent : BatchRequest;
  closure_members : list Person;
  closure_guests : list Person;
  closure_pipeliners : list Person;
  impacted : list string;
  auto : bool;
}.

(** The whole diff: the three loops, [upserts] being the member, guest and
    pipeliner upserts in that order, and [deletions] and the names in push
    order. *)
Definition computeDiff (s : PageState) : DiffAcc :=
  let l := ledger s in
  let m := memberLoop (selectedMeetingId s)
             (memberAttendance l) (memberInitialRef l) (members s) in
  let g := attendedLoop GuestKind (selectedMeetingId s)
             (guestAttendance l) (guestInitialRef l) (guests s) in
  let p := attendedLoop PipelinerKind (selectedMeetingId s)
             (pipelinerAttendance l) (pipelinerInitialRef l)
             (pipelinerEligibility s) in
  {| acc_upserts := acc_upserts m ++ acc_upserts g ++ acc_upserts p;
     acc_deletions := acc_deletions m ++ acc_deletions g ++ acc_deletions p;
     acc_names := acc_names m ++ acc_names g ++ acc_names p |}.

(** [saveAttendance(options)] up to its first [await]: the guard, the diff,
    the empty-batch return, the state updates before [fetch], and the
    request sent (if any). *)
Definition saveAttendance (auto' : bool) (s : PageState)
    : PageState * option InFlight :=
  if negb (truthy (Some (selectedMeetingId s))) || saving (ui s) then (s, None)
  else
    let d := computeDiff s in
    if bool_decide (length (acc_upserts d) = 0)
       && bool_decide (length (acc_deletions d) = 0)
    then (s, None)
    else
      (withUi {| saving := true; saveError := None; errorRecords := [];
                 autoSaveScheduled := false;
                 autoSaveTimer := autoSaveTimer (ui s) |} s,
       Some {| sent := {| req_meetingId := selectedMeetingId s;
                          req_meetingType := meetingType s;
                          req_upserts := acc_upserts d;
                          req_deletions := acc_deletions d |};
               closure_members := members s;
               closure_guests := guests s;
               closure_pipeliners := pipelinerEligibility s;
               impacted := acc_names d;
               auto := auto' |}).

(** *** Reconciliation merge *)

(** The [setMemberAttendance] updater of the success branch: the value of
    [next], which is both returned and snapshotted into
    [memberInitialRef.current]. *)
Definition mergeMembers (members : list Person) (deletionSet : gset string)
    (records : list ResponseRecord)
    (prev initial : gmap string MemberAttendanceEntry)
    : gmap string MemberAttendanceEntry :=
  let rebuilt :=
    fold_left
      (λ next member,
         let existing :=
           default emptyMember
             (nullish (prev !! person_id member) (initial !! person_id member)) in
         let attendanceId' :=
           match attendanceId existing with
           | Some a =>
               if bool_decide (a ≠ "") && bool_decide (a ∈ deletionSet)
               then None else Some a
           | None => None
           end in
         <[person_id member :=
             {| attendanceId := attendanceId'; status := status existing |}]> next)
      members ∅ in
  fold_left
    (λ next record,
       match rec_member_id record with
       | Some memberId =>
           if bool_decide (memberId ≠ "")
           then <[memberId := {| attendanceId := Some (rec_id record);
                                 status := Some (rec_status record) |}]> next
           else next
       | None => next
       end)
    records rebuilt.

(** The [setGuestAttendance] / [setPipelinerAttendance] updaters;
    [subjectOf] is [record.guest_id] or [record.pipeliner_id]. *)
Definition mergeAttended (subjectOf : ResponseRecord → option string)
    (subjects : list Person) (deletionSet : gset string)
    (records : list ResponseRecord)
    (prev initial : gmap string GuestAttendanceEntry)
    : gmap string GuestAttendanceEntry :=
  let rebuilt :=
    fold_left
      (λ next subject,
         let existing :=
           default emptyGuest
             (nullish (prev !! person_id subject) (initial !! person_id subject)) in
         let attendanceId' :=
           match guestAttendanceId existing with
           | Some a =>
               if bool_decide (a ≠ "") && bool_decide (a ∈ deletionSet)
               then None else Some a
           | None => None
           end in
         <[person_id subject :=
             {| guestAttendanceId := attendanceId';
                attended := attended existing |}]> next)
      subjects ∅ in
  fold_left
    (λ next record,
       match subjectOf record with
       | Some subjectId =>
           if bool_decide (subjectId ≠ "")
           then <[subjectId :=
                    {| guestAttendanceId := Some (rec_id record);
                       attended := bool_decide (rec_status record = present) |}]> next
           else next
       | None => next
       end)
    records rebuilt.

(** The three updaters applied to the ledger on a successful response. *)
Definition mergeResponse (f : InFlight) (result : SaveAttendanceResponse)
    (l : Ledger) : Ledger :=
  let deletionSet : gset string := list_to_set (resp_deletedIds result) in
  let nextMembers :=
    mergeMembers (closure_members f) deletionSet (resp_records result)
                 (memberAttendance l) (memberInitialRef l) in
  let nextGuests :=
    mergeAttended rec_guest_id (closure_guests f) deletionSet
                  (resp_records result) (guestAttendance l) (guestInitialRef l) in
  let nextPipeliners :=
    mergeAttended rec_pipeliner_id (closure_pipeliners f) deletionSet
                  (resp_records result)
                  (pipelinerAttendance l) (pipelinerInitialRef l) in
  {| memberAttendance := nextMembers;
     guestAttendance := nextGuests;
     pipelinerAttendance := nextPipeliners;
     memberInitialRef := snapshotMemberAttendance nextMembers;
     guestInitialRef := snapshotGuestAttendance nextGuests;
     pipelinerInitialRef := snapshotPipelinerAttendance nextPipeliners |}.

(** *** Hydration effects and [loadAttendance] *)

(** The effect on [[members]]: every listed member without an entry gets
    one copied from the baseline (or the empty entry), and the baseline ref
    is written too. *)
Definition hydrateMembers (members : list Person) (l : Ledger) : Ledger :=
  if bool_decide (length members = 0) then l
  else
    let '(next, initial) :=
      fold_left
        (λ '(next, initial) member,
           match next !! person_id member with
           | Some _ => (next, initial)
           | None =>
               let initialEntry :=
                 default emptyMember (initial !! person_id member) in
               (<[person_id member :=
                    {| attendanceId := attendanceId initialEntry;
                       status := status initialEntry |}]> next,
                <[person_id member := initialEntry]> initial)
           end)
        members (memberAttendance l, memberInitialRef l) in
    {| memberAttendance := next; guestAttendance := guestAttendance l;
       pipelinerAttendance := pipelinerAttendance l;
       memberInitialRef := initial; guestInitialRef := guestInitialRef l;
       pipelinerInitialRef := pipelinerInitialRef l |}.

(** The same effect for [[guests]] and [[pipelinerEligibility]], on a pair
    (attendance map, baseline ref). *)
Definition hydrateAttended (subjects : list Person)
    (maps : gmap string GuestAttendanceEntry * gmap string GuestAttendanceEntry)
    : gmap string GuestAttendanceEntry * gmap string GuestAttendanceEntry :=
  if bool_decide (length subjects = 0) then maps
  else
    fold_left
      (λ '(next, initial) subject,
         match next !! person_id subject with
         | Some _ => (next, initial)
         | None =>
             let initialEntry :=
               default emptyGuest (initial !! person_id subject) in
             (<[person_id subject :=
                  {| guestAttendanceId := guestAttendanceId initialEntry;
                     attended := attended initialEntry |}]> next,
              <[person_id subject := initialEntry]> initial)
         end)
      subjects maps.

Definition hydrateGuests (guests : list Person) (l : Ledger) : Ledger :=
  let '(next, initial) :=
    hydrateAttended guests (guestAttendance l, guestInitialRef l) in
  {| memberAttendance := memberAttendance l; guestAttendance := next;
     pipelinerAttendance := pipelinerAttendance l;
     memberInitialRef := memberInitialRef l; guestInitialRef := initial;
     pipelinerInitialRef := pipelinerInitialRef l |}.

Definition hydratePipeliners (pipeliners : list Person) (l : Ledger) : Ledger :=
  let '(next, initial) :=
    hydrateAttended pipeliners (pipelinerAttendance l, pipelinerInitialRef l) in
  {| memberAttendance := memberAttendance l;
     guestAttendance := guestAttendance l; pipelinerAttendance := next;
     memberInitialRef := memberInitialRef l;
     guestInitialRef := guestInitialRef l; pipelinerInitialRef := initial |}.

(** The maps [loadAttendance] builds from the selected rows
    ([memberMap], [guestMap], [pipelinerMap]). *)
Definition loadedMaps (rows : list ResponseRecord)
    : gmap string MemberAttendanceEntry * gmap string GuestAttendanceEntry
      * gmap string GuestAttendanceEntry :=
  fold_left
    (λ '(memberMap, guestMap, pipelinerMap) row,
       if truthy (rec_member_id row) then
         (<[default "" (rec_member_id row) :=
              {| attendanceId := Some (rec_id row);
                 status := Some (rec_status row) |}]> memberMap,
          guestMap, pipelinerMap)
       else if truthy (rec_guest_id row) then
         (memberMap,
          <[default "" (rec_guest_id row) :=
              {| guestAttendanceId := Some (rec_id row);
                 attended := bool_decide (rec_status row = present) |}]> guestMap,
          pipelinerMap)
       else if truthy (rec_pipeliner_id row) then
         (memberMap, guestMap,
          <[default "" (rec_pipeliner_id row) :=
              {| guestAttendanceId := Some (rec_id row);
                 attended := bool_decide (rec_status row = present) |}]> pipelinerMap)
       else (memberMap, guestMap, pipelinerMap))
    rows (∅, ∅, ∅).

Definition emptyLedger : Ledger :=
  {| memberAttendance := ∅; guestAttendance := ∅; pipelinerAttendance := ∅;
     memberInitialRef := ∅; guestInitialRef := ∅; pipelinerInitialRef := ∅ |}.

(** [loadAttendance(options)], given what the [attendance] query resolves
    to: [Some rows] ([data ?? []]) or [None] when it fails.  The [silently]
    option only affects the loading and error indicators, which are not part
    of the ledger. *)
Definition loadAttendance (queried : option (list ResponseRecord))
    (s : PageState) : Ledger :=
  if negb (truthy (Some (selectedMeetingId s))) then emptyLedger
  else
    match queried with
    | None => ledger s
    | Some rows =>
        let '(memberMap, guestMap, pipelinerMap) := loadedMaps rows in
        {| memberAttendance := memberMap;
           guestAttendance := guestMap;
           pipelinerAttendance := pipelinerMap;
           memberInitialRef := snapshotMemberAttendance memberMap;
           guestInitialRef := snapshotGuestAttendance guestMap;
           pipelinerInitialRef := snapshotPipelinerAttendance pipelinerMap |}
    end.

(** *** Completion of a save *)

(** What [await fetch(...)] and the reading of the response come to. *)
Inductive FetchResult :=
  | FetchRejected (message : string)
  | HttpNotOk (errorPayload : option string)
  | HttpOk (result : SaveAttendanceResponse).

(** Whether the [try] block of [saveAttendance] throws: the fetch is
    rejected, the response is not ok, or its body says [success: false]. *)
Definition saveFails (r : FetchResult) : bool :=
  match r with
  | FetchRejected _ => true
  | HttpNotOk _ => true
  | HttpOk result => negb (resp_success result)
  end.

(** The [catch] and [finally] blocks: [setSaveError], [setErrorRecords],
    [setSaving(false)]. *)
Definition saveFailed (f : InFlight) (message : string) (s : PageState)
    : PageState :=
  withUi {| saving := false; saveError := Some message;
            errorRecords := impacted f;
            autoSaveScheduled := autoSaveScheduled (ui s);
            autoSaveTimer := autoSaveTimer (ui s) |} s.

(** The success branch: the merge, then the silent reloads of guests and
    pipeliners ([None]: the reload failed and the list stays) with the
    hydration a new list triggers, then [setSaving(false)]. *)
Definition saveSucceeded (f : InFlight) (result : SaveAttendanceResponse)
    (reloadedGuests reloadedPipeliners : option (list Person))
    (s : PageState) : PageState :=
  let merged := mergeResponse f result (ledger s) in
  let afterGuests :=
    match reloadedGuests with
    | Some guests' => hydrateGuests guests' merged
    | None => merged
    end in
  let afterPipeliners :=
    match reloadedPipeliners with
    | Some pipeliners' => hydratePipeliners pipeliners' afterGuests
    | None => afterGuests
    end in
  withUi {| saving := false; saveError := saveError (ui s);
            errorRecords := errorRecords (ui s);
            autoSaveScheduled := autoSaveScheduled (ui s);
            autoSaveTimer := autoSaveTimer (ui s) |}
    (withLedger afterPipeliners
       (withLists (default (guests s) reloadedGuests)
                  (default (pipelinerEligibility s) reloadedPipeliners) s)).

(** The continuation of [saveAttendance] after [await fetch]. *)
Definition saveAttendance_resume (f : InFlight) (r : FetchResult)
    (reloadedGuests reloadedPipeliners : option (list Person))
    (s : PageState) : PageState :=
  match r with
  | FetchRejected message => saveFailed f message s
  | HttpNotOk errorPayload =>
      saveFailed f (default "Failed to save attendance records." errorPayload) s
  | HttpOk result =>
      if resp_success result
      then saveSucceeded f result reloadedGuests reloadedPipeliners s
      else saveFailed f (default "Attendance save failed." (resp_error result)) s
  end.

(** *** The autosave effect *)

(** The effect with dependencies
    [[selectedMeetingId, hasUnsavedChanges, saving, saveAttendance]]: clear
    any pending timeout, then arm a new one unless there is no meeting,
    nothing unsaved, or a save in progress. *)
Definition autosaveEffect (s : PageState) : PageState :=
  if negb (truthy (Some (selectedMeetingId s)))
     || negb (hasUnsavedChanges s) || saving (ui s)
  then
    withUi {| saving := saving (ui s); saveError := saveError (ui s);
              errorRecords := errorRecords (ui s);
              autoSaveScheduled := false; autoSaveTimer := false |} s
  else
    withUi {| saving := saving (ui s); saveError := saveError (ui s);
              errorRecords := errorRecords (ui s);
              autoSaveScheduled := true; autoSaveTimer := true |} s.

(** [disabled={!selectedMeetingId || saving}] of the status buttons, the
    guest and pipeliner toggles and "Mark All Present". *)
Definition editControlsDisabled (s : PageState) : bool :=
  negb (truthy (Some (selectedMeetingId s))) || saving (ui s).

(** *** The page as a transition system *)

(** What can happen to the page between two renders. *)
Inductive Event :=
  | EditMember (memberId : string) (nextStatus : option Status)
  | MarkAllPresent
  | ToggleGuest (guestId : string) (attended' : bool)
  | TogglePipeliner (pipelinerId : string) (attended' : bool)
  | ManualSave
  | TimerFire
  | AttendanceLoaded (queried : option (list ResponseRecord))
  | FetchDone (r : FetchResult)
              (reloadedGuests reloadedPipeliners : option (list Person)).

(** The page together with the saves suspended at their [fetch] and the log
    of every request sent so far. *)
Record Sys := {
  page : PageState;
  inflight : list InFlight;
  requests : list BatchRequest;
}.

Definition editLedger (edit : Ledger → Ledger) (y : Sys) : Sys :=
  {| page := autosaveEffect (withLedger (edit (ledger (page y))) (page y));
     inflight := inflight y; requests := requests y |}.

(** A call of [saveAttendance]; when it sends a request, [saving] has
    changed and the autosave effect runs again. *)
Definition callSave (auto' : bool) (s : PageState) (y : Sys) : Sys :=
  match saveAttendance auto' s with
  | (s', Some f) =>
      {| page := autosaveEffect s'; inflight := inflight y ++ [f];
         requests := requests y ++ [sent f] |}
  | (s', None) =>
      {| page := s'; inflight := inflight y; requests := requests y |}
  end.

(** One event, followed by the effects its state updates trigger.  The
    timeout callback is [setAutoSaveScheduled(false); saveAttendance({auto:
    true})]; it closes over the [saveAttendance] of the render that armed
    it, which is the current one because the effect re-arms the timer
    whenever [saveAttendance] changes. *)
Definition step (e : Event) (y : Sys) : Sys :=
  match e with
  | EditMember memberId nextStatus =>
      editLedger (handleMemberStatusChange memberId nextStatus) y
  | MarkAllPresent =>
      editLedger (handleMarkAllPresent (members (page y))) y
  | ToggleGuest guestId attended' =>
      editLedger (handleGuestToggle guestId attended') y
  | TogglePipeliner pipelinerId attended' =>
      editLedger (handlePipelinerToggle pipelinerId attended') y
  | ManualSave => callSave false (page y) y
  | TimerFire =>
      if autoSaveTimer (ui (page y)) then
        let s := page y in
        callSave true
          (withUi {| saving := saving (ui s); saveError := saveError (ui s);
                     errorRecords := errorRecords (ui s);
                     autoSaveScheduled := false; autoSaveTimer := false |} s)
          y
      else y
  | AttendanceLoaded queried =>
      match queried with
      | None =>
          if truthy (Some (selectedMeetingId (page y))) then y
          else editLedger (λ _, loadAttendance queried (page y)) y
      | Some _ => editLedger (λ _, loadAttendance queried (page y)) y
      end
  | FetchDone r reloadedGuests reloadedPipeliners =>
      match inflight y with
      | [] => y
      | f :: rest =>
          {| page := autosaveEffect
                       (saveAttendance_resume f r reloadedGuests
                                              reloadedPipeliners (page y));
             inflight := rest; requests := requests y |}
      end
  end.

Definition run (events : list Event) (y : Sys) : Sys :=
  fold_left (λ y e, step e y) events y.

End Page.

(** ** The batch save route *)

Module Gateway.

(** An element of [AttendancePayload["upserts"]]. *)
Record UpsertInput := {
  in_id : option string;
  in_meeting_id : string;
  in_member_id : option string;
  in_guest_id : option string;
  in_pipeliner_id : option string;
  in_status : Status;
}.

(** [AttendancePayload] as the request body may really be: [meetingId]
    absent, [upserts] or [deletions] absent or not arrays. *)
Record AttendancePayload := {
  meetingId : option string;
  meetingType : option string;
  upserts : option (list UpsertInput);
  deletions : option (list string);
}.

(** [UpsertRow]: what [returning id, member_id, guest_id, pipeliner_id,
    status] yields. *)
Record UpsertRow := {
  row_id : string;
  row_member_id : option string;
  row_guest_id : option string;
  row_pipeliner_id : option string;
  row_status : Status;
}.

#[global] Instance UpsertRow_eq_dec : EqDecision UpsertRow.
Proof. solve_decision. Defined.

(** The environment variables the route reads. *)
Record Env := {
  SUPABASE_DB_URL : option string;
  DATABASE_URL : option string;
  NEXT_PUBLIC_SUPABASE_URL : option string;
  SUPABASE_SERVICE_ROLE_KEY : option string;
  SUPABASE_SERVICE_KEY : option string;
  SUPABASE_SECRET_KEY : option string;
  SUPABASE_SERVICE_TOKEN : option string;
  NEXT_PUBLIC_SUPABASE_ANON_KEY : option string;
}.

Definition getConnectionString (env : Env) : option string :=
  nullish (SUPABASE_DB_URL env) (nullish (DATABASE_URL env) None).

Definition getServiceRoleKey (env : Env) : option string :=
  nullish (SUPABASE_SERVICE_ROLE_KEY env)
    (nullish (SUPABASE_SERVICE_KEY env)
       (nullish (SUPABASE_SECRET_KEY env)
          (nullish (SUPABASE_SERVICE_TOKEN env) None))).

Definition hasSupabaseServiceConfiguration (env : Env) : bool :=
  truthy (NEXT_PUBLIC_SUPABASE_URL env) && truthy (getServiceRoleKey env).

(** *** The backing store *)

(** A row of table [attendance] without its key [id]. *)
Record AttendanceRecord := {
  col_meeting_id : string;
  col_member_id : option string;
  col_guest_id : option string;
  col_pipeliner_id : option string;
  col_status : Status;
}.

#[global] Instance AttendanceRecord_eq_dec : EqDecision AttendanceRecord.
Proof. solve_decision. Defined.

(** The three ways the route reaches the store. *)
Inductive Tier := DirectConnection | ServiceClient | SessionClient.

#[global] Instance Tier_eq_dec : EqDecision Tier.
Proof. solve_decision. Defined.

(** Every access to the store the route can make. *)
Inductive StoreOp :=
  | PgConnect
  | PgBegin
  | PgDelete (ids : list string)
  | PgUpsert (rows : list UpsertInput)
  | PgCommit
  | PgRollback
  | PgRelease
  | ApiDelete (tier : Tier) (ids : list string)
  | ApiUpsert (tier : Tier) (rows : list UpsertInput).

Definition opTier (op : StoreOp) : Tier :=
  match op with
  | ApiDelete tier _ | ApiUpsert tier _ => tier
  | _ => DirectConnection
  end.

(** The store as the route sees it: the committed table, the working copy
    of the transaction open on the route's connection (if any), how many
    identifiers [gen_random_uuid()] has drawn, and the accesses made. *)
Record World := {
  committed : gmap string AttendanceRecord;
  txn : option (gmap string AttendanceRecord);
  drawn : nat;
  log : list StoreOp;
}.

(** A thrown value: an [Error] instance with its message, or anything
    else. *)
Inductive Thrown := ErrorInstance (message : string) | OtherValue.

(** The places where the store can be made to fail. *)
Inductive FaultPoint :=
  AtConnect | AtBegin | AtDelete | AtUpsert | AtCommit | AtRollback.

(** Computations that read and write the store and may throw. *)
Definition M (A : Type) : Type := World → (Thrown + A) * World.

#[global] Instance M_ret : MRet M := λ A a w, (inr a, w).

#[global] Instance M_bind : MBind M :=
  λ A B k m w, match m w with
               | (inl e, w') => (inl e, w')
               | (inr a, w') => k a w'
               end.

Definition throw {A} (e : Thrown) : M A := λ w, (inl e, w).

(** [try { body } catch (error) { handler error }]. *)
Definition tryCatch {A} (body : M A) (handler : Thrown → M A) : M A :=
  λ w, match body w with
       | (inl e, w') => handler e w'
       | (inr a, w') => (inr a, w')
       end.

(** [try { body } finally { cleanup }]: the cleanup runs on both exits and
    the body's result stands unless the cleanup throws. *)
Definition finally {A} (body : M A) (cleanup : M unit) : M A :=
  λ w, match body w with
       | (r, w') =>
           match cleanup w' with
           | (inl e, w'') => (inl e, w'')
           | (inr _, w'') => (r, w'')
           end
       end.

Definition record (op : StoreOp) : M unit :=
  λ w, (inr (), {| committed := committed w; txn := txn w;
                   drawn := drawn w; log := log w ++ [op] |}).

(** The table a statement reads, and where its writes go: the working copy
    inside a transaction, the committed table otherwise (autocommit). *)
Definition currentTable (w : World) : gmap string AttendanceRecord :=
  default (committed w) (txn w).

Definition writeTable (t : gmap string AttendanceRecord) : M unit :=
  λ w, (inr (),
        {| committed := if txn w is Some _ then committed w else t;
           txn := if txn w is Some _ then Some t else None;
           drawn := drawn w; log := log w |}).

Definition setTxn (t : option (gmap string AttendanceRecord)) : M unit :=
  λ w, (inr (), {| committed := committed w; txn := t;
                   drawn := drawn w; log := log w |}).

Definition setCommitted (t : gmap string AttendanceRecord) : M unit :=
  λ w, (inr (), {| committed := t; txn := None;
                   drawn := drawn w; log := log w |}).

Definition setDrawn (n : nat) : M unit :=
  λ w, (inr (), {| committed := committed w; txn := txn w;
                   drawn := n; log := log w |}).

Definition getWorld : M World := λ w, (inr w, w).

(** *** Statements *)

Section Route.

(** [gen_random_uuid()]: the identifier produced by the n-th draw. *)
Variable gen_random_uuid : nat → string.

(** The injected store failures: what each fault point throws, if
    anything.  They stand for every rejection the store can answer with
    (lost connection, malformed identifier, violated constraint); the one
    rejection decided by the data here is the repeated identifier of
    [cardinalityViolation]. *)
Variable fails : FaultPoint → option Thrown.

Variable env : Env.

Definition faultAt (p : FaultPoint) : M unit :=
  match fails p with
  | Some e => throw e
  | None => mret ()
  end.

(** [nullif(value->>'col', '')]. *)
Definition nullif_empty (o : option string) : option string :=
  if truthy o then o else None.

(** The [normalized] rows: [coalesce(id, gen_random_uuid())] for each payload
    row, drawing identifiers in row order starting at draw [n]. *)
Fixpoint normalized (n : nat) (rows : list UpsertInput)
    : list (string * UpsertInput) * nat :=
  match rows with
  | [] => ([], n)
  | u :: rest =>
      match nullif_empty (in_id u) with
      | Some i =>
          let '(out, n') := normalized n rest in ((i, u) :: out, n')
      | None =>
          let '(out, n') := normalized (S n) rest in
          ((gen_random_uuid n, u) :: out, n')
      end
  end.

Definition returning (i : string) (r : AttendanceRecord) : UpsertRow :=
  {| row_id := i; row_member_id := col_member_id r;
     row_guest_id := col_guest_id r; row_pipeliner_id := col_pipeliner_id r;
     row_status := col_status r |}.

(** The row [insert into attendance ... select ... from normalized]
    proposes for a payload row. *)
Definition proposed (u : UpsertInput) : AttendanceRecord :=
  {| col_meeting_id := in_meeting_id u;
     col_member_id := nullif_empty (in_member_id u);
     col_guest_id := nullif_empty (in_guest_id u);
     col_pipeliner_id := nullif_empty (in_pipeliner_id u);
     col_status := in_status u |}.

(** [on conflict (id) do update set status = excluded.status]: the row
    stored under [i] after the statement. *)
Definition insertOrUpdateStatus (existing : option AttendanceRecord)
    (u : UpsertInput) : AttendanceRecord :=
  match existing with
  | Some r =>
      {| col_meeting_id := col_meeting_id r; col_member_id := col_member_id r;
         col_guest_id := col_guest_id r; col_pipeliner_id := col_pipeliner_id r;
         col_status := in_status u |}
  | None => proposed u
  end.

(** The rows the API client's [upsert(..., { onConflict: "id" })] proposes
    and, on conflict, merges over the existing row: every column of the
    payload row. *)
Definition insertOrMerge (existing : option AttendanceRecord)
    (u : UpsertInput) : AttendanceRecord :=
  {| col_meeting_id := in_meeting_id u; col_member_id := in_member_id u;
     col_guest_id := in_guest_id u; col_pipeliner_id := in_pipeliner_id u;
     col_status := in_status u |}.

(** One insert-or-update statement over identified rows: rows are applied
    in order and each yields its [returning] row. *)
Definition applyUpserts
    (resolve : option AttendanceRecord → UpsertInput → AttendanceRecord)
    (rows : list (string * UpsertInput)) (t : gmap string AttendanceRecord)
    : gmap string AttendanceRecord * list UpsertRow :=
  fold_left
    (λ '(t, out) '(i, u),
       let r := resolve (t !! i) u in
       (<[i := r]> t, out ++ [returning i r]))
    rows (t, []).

(** The store rejects a statement that proposes the same identifier twice
    ("ON CONFLICT DO UPDATE command cannot affect row a second time"). *)
Definition cardinalityViolation : Thrown :=
  ErrorInstance "ON CONFLICT DO UPDATE command cannot affect row a second time".

Definition upsertStatement
    (resolve : option AttendanceRecord → UpsertInput → AttendanceRecord)
    (rows : list UpsertInput) : M (list UpsertRow) :=
  faultAt AtUpsert;;
  w ← getWorld;
  let '(identified, n') := normalized (drawn w) rows in
  setDrawn n';;
  if bool_decide (NoDup identified.*1) then
    let '(t', out) := applyUpserts resolve identified (currentTable w) in
    writeTable t';; mret out
  else throw cardinalityViolation.

Definition deleteStatement (ids : list string) : M unit :=
  faultAt AtDelete;;
  w ← getWorld;
  writeTable (foldr delete (currentTable w) ids).

(** [getPool().connect()]. *)
Definition pgConnect : M unit := record PgConnect;; faultAt AtConnect.

(** [client.query("BEGIN")]. *)
Definition pgBegin : M unit :=
  record PgBegin;; faultAt AtBegin;;
  w ← getWorld; setTxn (Some (currentTable w)).

(** [client.query("DELETE FROM attendance WHERE id = ANY($1::uuid[])")]. *)
Definition pgDelete (ids : list string) : M unit :=
  record (PgDelete ids);; deleteStatement ids.

(** The [with payload ... insert ... on conflict ... returning] query. *)
Definition pgUpsert (rows : list UpsertInput) : M (list UpsertRow) :=
  record (PgUpsert rows);; upsertStatement insertOrUpdateStatus rows.

(** [client.query("COMMIT")]: a failing commit leaves nothing committed. *)
Definition pgCommit : M unit :=
  record PgCommit;;
  w ← getWorld;
  match fails AtCommit with
  | Some e => setTxn None;; throw e
  | None =>
      match txn w with
      | Some t => setCommitted t
      | None => mret ()
      end
  end.

(** [client.query("ROLLBACK")]. *)
Definition pgRollback : M unit :=
  record PgRollback;; faultAt AtRollback;; setTxn None.

(** [client.release()]. *)
Definition pgRelease : M unit := record PgRelease.

(** [supabase.from("attendance").delete().in("id", deletions)] followed by
    [if (deleteError) throw deleteError]. *)
Definition apiDelete (tier : Tier) (ids : list string) : M unit :=
  record (ApiDelete tier ids);; deleteStatement ids.

(** [supabase.from("attendance").upsert(rows, { onConflict: "id" }).select(...)]
    followed by [if (upsertError) throw upsertError]. *)
Definition apiUpsert (tier : Tier) (rows : list UpsertInput)
    : M (list UpsertRow) :=
  record (ApiUpsert tier rows);; upsertStatement insertOrMerge rows.

(** *** The route handler *)

(** The JSON body of a response: [{ success: true, records, deletedIds }]
    or [{ success: false, error }]. *)
Inductive Body :=
  | Saved (records : list UpsertRow) (deletedIds : list string)
  | Failed (error : string).

(** [NextResponse.json(body, { status })]. *)
Record Response := { http_status : nat; body : Body }.

Definition success (r : Response) : bool :=
  match body r with
  | Saved _ _ => true
  | Failed _ => false
  end.

(** [error instanceof Error ? error.message : fallback]. *)
Definition errorMessage (fallback : string) (error : Thrown) : string :=
  match error with
  | ErrorInstance message => message
  | OtherValue => fallback
  end.

Definition unexpected : string :=
  "An unexpected error occurred while saving attendance.".

Definition notConfigured : string :=
  "Database access is not configured on the server. Set SUPABASE_DB_URL (or DATABASE_URL) or provide Supabase credentials.".

Definition saved (records : list UpsertRow) (deletedIds : list string)
    : Response :=
  {| http_status := 200; body := Saved records deletedIds |}.

Definition failed (fallback : string) (error : Thrown) : Response :=
  {| http_status := 500; body := Failed (errorMessage fallback error) |}.

(** Runs [m] and hands its exit, normal or thrown, to the caller. *)
Definition attempt {A} (m : M A) : M (Thrown + A) :=
  λ w, match m w with (r, w') => (inr r, w') end.

(** [normalizeUpsertPayload]: an entry with a falsy [id] loses the key. *)
Definition normalizeUpsertPayload (upserts : list UpsertInput)
    : list UpsertInput :=
  (λ entry,
     if truthy (in_id entry) then entry
     else {| in_id := None; in_meeting_id := in_meeting_id entry;
             in_member_id := in_member_id entry;
             in_guest_id := in_guest_id entry;
             in_pipeliner_id := in_pipeliner_id entry;
             in_status := in_status entry |}) <$> upserts.

Definition saveAttendanceWithSupabaseClient (tier : Tier)
    (upserts : list UpsertInput) (deletions : list string)
    : M (list UpsertRow * list string) :=
  let sanitizedUpserts := normalizeUpsertPayload upserts in
  (if bool_decide (0 < length deletions)
   then apiDelete tier deletions else mret ());;
  upsertRows ← (if bool_decide (0 < length sanitizedUpserts)
                then apiUpsert tier sanitizedUpserts else mret []);
  mret (upsertRows, deletions).

(** [saveWithSupabaseService], with the configuration check of
    [getSupabaseServiceClient]. *)
Definition saveWithSupabaseService (upserts : list UpsertInput)
    (deletions : list string) : M (list UpsertRow * list string) :=
  if negb (truthy (NEXT_PUBLIC_SUPABASE_URL env))
     || negb (truthy (getServiceRoleKey env))
  then throw (ErrorInstance "Supabase service role configuration is missing. Set NEXT_PUBLIC_SUPABASE_URL and SUPABASE_SERVICE_ROLE_KEY (or equivalent).")
  else saveAttendanceWithSupabaseClient ServiceClient upserts deletions.

Definition saveWithSupabaseAuthClient (upserts : list UpsertInput)
    (deletions : list string) : M (list UpsertRow * list string) :=
  if negb (truthy (NEXT_PUBLIC_SUPABASE_URL env))
     || negb (truthy (NEXT_PUBLIC_SUPABASE_ANON_KEY env))
  then throw (ErrorInstance "Supabase configuration is missing. Set NEXT_PUBLIC_SUPABASE_URL and NEXT_PUBLIC_SUPABASE_ANON_KEY.")
  else saveAttendanceWithSupabaseClient SessionClient upserts deletions.

(** The body of the [try] block of the first branch after the connection
    is obtained. *)
Definition transaction (upserts : list UpsertInput) (deletions : list string)
    : M Response :=
  pgBegin;;
  (if bool_decide (0 < length deletions)
   then pgDelete deletions else mret ());;
  upsertRows ← (if bool_decide (0 < length upserts)
                then pgUpsert upserts else mret []);
  pgCommit;;
  mret (saved upsertRows deletions).

(** The first branch: [try { connect; transaction } catch { if (client)
    ROLLBACK; 500 } finally { client?.release() }]. *)
Definition saveWithPool (upserts : list UpsertInput) (deletions : list string)
    : M Response :=
  client ← attempt pgConnect;
  match client with
  | inl error => mret (failed unexpected error)
  | inr _ =>
      finally
        (tryCatch (transaction upserts deletions)
                  (λ error, pgRollback;; mret (failed unexpected error)))
        pgRelease
  end.

(** [POST(request)], from the parsed body on. *)
Definition POST (payload : option AttendancePayload) : M Response :=
  if negb (truthy (payload ≫= meetingId)) then
    mret {| http_status := 400; body := Failed "meetingId is required." |}
  else
    let upserts' := default [] (payload ≫= upserts) in
    let deletions' := default [] (payload ≫= deletions) in
    let connectionString := getConnectionString env in
    let hasServiceClient := hasSupabaseServiceConfiguration env in
    if truthy connectionString then saveWithPool upserts' deletions'
    else if hasServiceClient then
      tryCatch
        (result ← saveWithSupabaseService upserts' deletions';
         mret (saved result.1 result.2))
        (λ error, mret (failed unexpected error))
    else
      tryCatch
        (result ← saveWithSupabaseAuthClient upserts' deletions';
         mret (saved result.1 result.2))
        (λ error, mret (failed notConfigured error)).

End Route.

(** The tier the configuration selects, in the order of preference: direct
    connection, then privileged service client, then the caller's session
    client. *)
Definition preferredTier (env : Env) : Tier :=
  if truthy (getConnectionString env) then DirectConnection
  else if hasSupabaseServiceConfiguration env then ServiceClient
  else SessionClient.

(** The fault point a store access is exposed to. *)
Definition faultPointOf (op : StoreOp) : option FaultPoint :=
  match op with
  | PgConnect => Some AtConnect
  | PgBegin => Some AtBegin
  | PgDelete _ | ApiDelete _ _ => Some AtDelete
  | PgUpsert _ | ApiUpsert _ _ => Some AtUpsert
  | PgCommit => Some AtCommit
  | PgRollback => Some AtRollback
  | PgRelease => None
  end.

(** What it means for the accesses [ops] and the exit [out] of a request
    to be those of a request handled by tier [t] alone: every access goes
    through that tier, none is made twice, a successful response means that
    no access failed, an unsuccessful one carries status 500 (or 400 with no
    access at all), only the ROLLBACK of the direct connection can make the
    handler throw, and a failed access yields a 500 response unless that
    ROLLBACK fails too. *)
Definition handledBy (t : Tier) (fails : FaultPoint → option Thrown)
    (ops : list StoreOp) (out : Thrown + Response) : Prop :=
  Forall (λ op, opTier op = t) ops
  ∧ NoDup ops
  ∧ (∀ r, out = inr r → success r = true →
       http_status r = 200
       ∧ ∀ op p, op ∈ ops → faultPointOf op = Some p → fails p = None)
  ∧ (∀ r, out = inr r → success r = false →
       http_status r = 500 ∨ (http_status r = 400 ∧ ops = []))
  ∧ (∀ e, out = inl e → t = DirectConnection ∧ fails AtRollback = Some e)
  ∧ ((∃ op p, op ∈ ops ∧ faultPointOf op = Some p ∧ is_Some (fails p)) →
     fails AtRollback = None →
     ∃ error, out = inr {| http_status := 500; body := Failed error |}).

(** The batch as a function on tables: the deletions, then the upserts
    of the identified rows; [None] when two rows carry the same identifier.
    The result is the new table, the returned rows and the number of
    identifiers drawn so far. *)
Definition batchResult (gen_random_uuid : nat → string)
    (resolve : option AttendanceRecord → UpsertInput → AttendanceRecord)
    (n : nat) (upserts : list UpsertInput) (deletions : list string)
    (t : gmap string AttendanceRecord)
    : option (gmap string AttendanceRecord * list UpsertRow * nat) :=
  let '(identified, n') := normalized gen_random_uuid n upserts in
  if bool_decide (NoDup identified.*1) then
    let '(t', out) := applyUpserts resolve identified (foldr delete t deletions) in
    Some (t', out, n')
  else None.

(** The batch as the configured tier applies it: with the SQL of the
    route on the direct connection, with the API client's upsert of the
    normalized payload otherwise. *)
Definition appliedBatch (gen_random_uuid : nat → string) (env : Env)
    (payload : option AttendancePayload) (n : nat)
    (t : gmap string AttendanceRecord)
    : option (gmap string AttendanceRecord * list UpsertRow * nat) :=
  let upserts' := default [] (payload ≫= upserts) in
  let deletions' := default [] (payload ≫= deletions) in
  if truthy (getConnectionString env)
  then batchResult gen_random_uuid insertOrUpdateStatus n upserts' deletions' t
  else batchResult gen_random_uuid insertOrMerge n
                   (normalizeUpsertPayload upserts') deletions' t.

(** The rows an insert-or-update statement stores, by identifier. *)
Definition storedRows
    (resolve : option AttendanceRecord → UpsertInput → AttendanceRecord)
    (t : gmap string AttendanceRecord) (rows : list (string * UpsertInput))
    : list (string * AttendanceRecord) :=
  (λ iu, (iu.1, resolve (t !! iu.1) iu.2)) <$> rows.

(** Some step of the transactional branch fails: the connection, BEGIN,
    the DELETE (when there are deletions), the upsert query (when there are
    upserts; by an injected fault or because two rows carry the same
    identifier), or COMMIT. *)
Definition stepFails (gen_random_uuid : nat → string)
    (fails : FaultPoint → option Thrown) (n : nat)
    (upserts : list UpsertInput) (deletions : list string) : Prop :=
  is_Some (fails AtConnect)
  ∨ is_Some (fails AtBegin)
  ∨ (deletions ≠ [] ∧ is_Some (fails AtDelete))
  ∨ (upserts ≠ []
     ∧ (is_Some (fails AtUpsert)
        ∨ ¬ NoDup (normalized gen_random_uuid n upserts).1.*1))
  ∨ is_Some (fails AtCommit).

(** The accesses of a request that a tier serves without a failure, in
    order: on the direct connection the transaction around the statements
    the batch needs, through an API client the calls the batch needs. *)
Definition tierScript (t : Tier) (upserts : list UpsertInput)
    (deletions : list string) : list StoreOp :=
  match t with
  | DirectConnection =>
      [PgConnect; PgBegin]
      ++ (if bool_decide (0 < length deletions) then [PgDelete deletions] else [])
      ++ (if bool_decide (0 < length upserts) then [PgUpsert upserts] else [])
      ++ [PgCommit; PgRelease]
  | ServiceClient | SessionClient =>
      (if bool_decide (0 < length deletions) then [ApiDelete t deletions] else [])
      ++ (if bool_decide (0 < length (normalizeUpsertPayload upserts))
          then [ApiUpsert t (normalizeUpsertPayload upserts)] else [])
  end.

(** Whether the client of a tier can be created: the checks of
    [getSupabaseServiceClient] and [saveWithSupabaseAuthClient]; the pool of
    the direct connection is created from the connection string that
    selected it. *)
Definition clientConfigured (env : Env) (t : Tier) : bool :=
  match t with
  | DirectConnection => true
  | ServiceClient =>
      truthy (NEXT_PUBLIC_SUPABASE_URL env) && truthy (getServiceRoleKey env)
  | SessionClient =>
      truthy (NEXT_PUBLIC_SUPABASE_URL env)
      && truthy (NEXT_PUBLIC_SUPABASE_ANON_KEY env)
  end.

(** A store on which no transaction is open and nothing has been logged. *)
Definition atRest (t : gmap string AttendanceRecord) (n : nat) : World :=
  {| committed := t; txn := None; drawn := n; log := [] |}.

End Gateway.

(** ** The ledger seen subject by subject *)

Module Subjects.
Import Page.

(** The three kinds of subject. *)
Inductive Kind := Member | Guest | Pipeliner.

#[global] Instance Kind_eq_dec : EqDecision Kind.
Proof. solve_decision. Defined.

Definition listOf (k : Kind) (s : PageState) : list Person :=
  match k with
  | Member => members s
  | Guest => guests s
  | Pipeliner => pipelinerEligibility s
  end.

(** A guest's or pipeliner's tri-state value: [attended] is [present], and
    not attended (or no entry) is unset. *)
Definition attendedStatus (m : gmap string GuestAttendanceEntry) (id : string)
    : option Status :=
  if attendedOf m id then Some present else None.

(** The current value of a subject; [None] is unset. *)
Definition currentOf (k : Kind) (l : Ledger) (id : string) : option Status :=
  match k with
  | Member => memberAttendance l !! id ≫= status
  | Guest => attendedStatus (guestAttendance l) id
  | Pipeliner => attendedStatus (pipelinerAttendance l) id
  end.

(** The baseline value of a subject. *)
Definition baselineOf (k : Kind) (l : Ledger) (id : string) : option Status :=
  match k with
  | Member => memberInitialRef l !! id ≫= status
  | Guest => attendedStatus (guestInitialRef l) id
  | Pipeliner => attendedStatus (pipelinerInitialRef l) id
  end.

(** The row identifier held with the current value and with the
    baseline. *)
Definition currentIdOf (k : Kind) (l : Ledger) (id : string) : option string :=
  match k with
  | Member => memberAttendance l !! id ≫= attendanceId
  | Guest => guestAttendance l !! id ≫= guestAttendanceId
  | Pipeliner => pipelinerAttendance l !! id ≫= guestAttendanceId
  end.

Definition persistedIdOf (k : Kind) (l : Ledger) (id : string) : option string :=
  match k with
  | Member => memberInitialRef l !! id ≫= attendanceId
  | Guest => guestInitialRef l !! id ≫= guestAttendanceId
  | Pipeliner => pipelinerInitialRef l !! id ≫= guestAttendanceId
  end.

(** [isDirty(subject)] as the page computes it. *)
Definition isDirty (k : Kind) (l : Ledger) (id : string) : bool :=
  match k with
  | Member => memberIsDirty l id
  | Guest => guestIsDirty l id
  | Pipeliner => pipelinerIsDirty l id
  end.

(** What the loop iteration for subject [p] of kind [k] pushes. *)
Definition deltaOf (k : Kind) (s : PageState) (p : Person)
    : list AttendanceUpsertInput * list string * list string :=
  match k with
  | Member =>
      memberDelta (selectedMeetingId s) (memberAttendance (ledger s))
                  (memberInitialRef (ledger s)) p
  | Guest =>
      attendedDelta GuestKind (selectedMeetingId s) (guestAttendance (ledger s))
                    (guestInitialRef (ledger s)) p
  | Pipeliner =>
      attendedDelta PipelinerKind (selectedMeetingId s)
                    (pipelinerAttendance (ledger s))
                    (pipelinerInitialRef (ledger s)) p
  end.

(** The subject an upsert row names, read as a subject of kind [k]. *)
Definition subjectKey (k : Kind) (u : AttendanceUpsertInput) : option string :=
  match k with
  | Member => up_member_id u
  | Guest => up_guest_id u
  | Pipeliner => up_pipeliner_id u
  end.

(** The upsert [{ id, subject, status }] of the specification. *)
Definition upsertFor (k : Kind) (meeting : string) (id : string)
    (attendanceId' : option string) (st : Status) : AttendanceUpsertInput :=
  {| up_id := attendanceId'; up_meeting_id := meeting; up_status := st;
     up_member_id := if k is Member then Some id else None;
     up_guest_id := if k is Guest then Some id else None;
     up_pipeliner_id := if k is Pipeliner then Some id else None |}.

(** The upserts of a batch that name subject [id] of kind [k]. *)
Definition upsertsFor (k : Kind) (id : string)
    (upserts : list AttendanceUpsertInput) : list AttendanceUpsertInput :=
  filter (λ u, subjectKey k u = Some id) upserts.

(** The subject a response record names, read as a subject of kind [k]. *)
Definition recordKey (k : Kind) (r : ResponseRecord) : option string :=
  match k with
  | Member => rec_member_id r
  | Guest => rec_guest_id r
  | Pipeliner => rec_pipeliner_id r
  end.

(** The subject list a suspended save closes over. *)
Definition closureOf (k : Kind) (f : InFlight) : list Person :=
  match k with
  | Member => closure_members f
  | Guest => closure_guests f
  | Pipeliner => closure_pipeliners f
  end.

(** The subject has an entry in the attendance map of its kind, as it has
    once it has been edited or hydrated. *)
Definition hasEntry (k : Kind) (l : Ledger) (id : string) : Prop :=
  match k with
  | Member => is_Some (memberAttendance l !! id)
  | Guest => is_Some (guestAttendance l !! id)
  | Pipeliner => is_Some (pipelinerAttendance l !! id)
  end.

(** The subject a loaded row is filed under: the first populated key among
    [member_id], [guest_id], [pipeliner_id]. *)
Definition rowSubject (r : ResponseRecord) : option (Kind * string) :=
  if truthy (rec_member_id r) then pair Member <$> rec_member_id r
  else if truthy (rec_guest_id r) then pair Guest <$> rec_guest_id r
  else if truthy (rec_pipeliner_id r) then pair Pipeliner <$> rec_pipeliner_id r
  else None.

(** The row that covers a subject: the last one filed under it. *)
Definition coveringRow (k : Kind) (id : string) (rows : list ResponseRecord)
    : option ResponseRecord :=
  last (filter (λ r, rowSubject r = Some (k, id)) rows).

(** The value a row gives a subject of kind [k]. *)
Definition rowStatus (k : Kind) (r : ResponseRecord) : option Status :=
  match k with
  | Member => Some (rec_status r)
  | Guest | Pipeliner =>
      if bool_decide (rec_status r = present) then Some present else None
  end.

(** The entries a loaded row becomes. *)
Definition memberOfRow (r : ResponseRecord) : MemberAttendanceEntry :=
  {| attendanceId := Some (rec_id r); status := Some (rec_status r) |}.

Definition guestOfRow (r : ResponseRecord) : GuestAttendanceEntry :=
  {| guestAttendanceId := Some (rec_id r);
     attended := bool_decide (rec_status r = present) |}.


End Subjects.

(** ** Concrete scenarios *)

Module Scenario.
Import Page.

Definition ann : Person := {| person_id := "m-ann"; full_name := "Ann" |}.
Definition bob : Person := {| person_id := "m-bob"; full_name := "Bob" |}.
Definition cy : Person := {| person_id := "m-cy"; full_name := "Cy" |}.
Definition gil : Person := {| person_id := "g-gil"; full_name := "Gil" |}.
Definition pat : Person := {| person_id := "p-pat"; full_name := "Pat" |}.

(** The page just after a meeting has been selected: nothing loaded, no
    save in progress, no timer. *)
Definition freshPage : PageState :=
  {| selectedMeetingId := "meeting-1"; meetingType := Some "business";
     members := [ann; bob; cy]; guests := [gil]; pipelinerEligibility := [pat];
     ledger := emptyLedger;
     ui := {| saving := false; saveError := None; errorRecords := [];
              autoSaveScheduled := false; autoSaveTimer := false |} |}.

Definition fresh : Sys :=
  {| page := freshPage; inflight := []; requests := [] |}.

(** The persisted rows of the meeting: Ann is recorded present under row
    [A1]. *)
Definition persistedRows : list ResponseRecord :=
  [ {| rec_id := "A1"; rec_status := present; rec_member_id := Some "m-ann";
       rec_guest_id := None; rec_pipeliner_id := None |} ].

(** Ann is set back to unset and Bob is marked as an apology. *)
Definition twoEdits : list Event :=
  [ AttendanceLoaded (Some persistedRows);
    EditMember "m-ann" None;
    EditMember "m-bob" (Some apology) ].

(** Bob is marked present and the operator saves; the request is in
    flight. *)
Definition saveOfBob : list Event :=
  [ AttendanceLoaded (Some persistedRows);
    EditMember "m-bob" (Some present);
    ManualSave ].

(** The successful response to the save of Bob: his new row [B1]. *)
Definition bobSaved : FetchResult :=
  HttpOk {| resp_success := true;
            resp_records :=
              [ {| rec_id := "B1"; rec_status := present;
                   rec_member_id := Some "m-bob";
                   rec_guest_id := None; rec_pipeliner_id := None |} ];
            resp_deletedIds := []; resp_error := None |}.

(** Bob is marked present and nothing has been saved yet. *)
Definition bobEdited : Sys :=
  run [ AttendanceLoaded (Some persistedRows);
        EditMember "m-bob" (Some present) ] fresh.

(** While that request is in flight, Cy is marked as an apology. *)
Definition cyEditedInFlight : Sys :=
  step (EditMember "m-cy" (Some apology)) (run saveOfBob fresh).

(** The suspended save of a system state (the first one, if any). *)
Definition suspendedSave (y : Sys) : InFlight :=
  match inflight y with
  | f :: _ => f
  | [] => {| sent := {| req_meetingId := ""; req_meetingType := None;
                        req_upserts := []; req_deletions := [] |};
             closure_members := []; closure_guests := [];
             closure_pipeliners := []; impacted := []; auto := false |}
  end.

Definition okResult (r : FetchResult) : SaveAttendanceResponse :=
  match r with
  | HttpOk result => result
  | _ => {| resp_success := false; resp_records := [];
            resp_deletedIds := []; resp_error := None |}
  end.

(** The save of Bob fails: the gateway cannot be reached. *)
Definition manualSaveFailed : Sys :=
  step (FetchDone (FetchRejected "Failed to fetch") None None)
       (run saveOfBob fresh).

End Scenario.

(** ** Concrete deployments and requests *)

Module Deployment.
Import Gateway.

Definition noConfiguration : Env :=
  {| SUPABASE_DB_URL := None; DATABASE_URL := None;
     NEXT_PUBLIC_SUPABASE_URL := None; SUPABASE_SERVICE_ROLE_KEY := None;
     SUPABASE_SERVICE_KEY := None; SUPABASE_SECRET_KEY := None;
     SUPABASE_SERVICE_TOKEN := None; NEXT_PUBLIC_SUPABASE_ANON_KEY := None |}.

(** A server with a database connection string (and an API project as
    well). *)
Definition withDatabase : Env :=
  {| SUPABASE_DB_URL := Some "postgres://attendance"; DATABASE_URL := None;
     NEXT_PUBLIC_SUPABASE_URL := Some "https://project.example";
     SUPABASE_SERVICE_ROLE_KEY := Some "service-role-key";
     SUPABASE_SERVICE_KEY := None; SUPABASE_SECRET_KEY := None;
     SUPABASE_SERVICE_TOKEN := None;
     NEXT_PUBLIC_SUPABASE_ANON_KEY := Some "anon-key" |}.

(** A server with the service role key only. *)
Definition withServiceKey : Env :=
  {| SUPABASE_DB_URL := None; DATABASE_URL := None;
     NEXT_PUBLIC_SUPABASE_URL := Some "https://project.example";
     SUPABASE_SERVICE_ROLE_KEY := Some "service-role-key";
     SUPABASE_SERVICE_KEY := None; SUPABASE_SECRET_KEY := None;
     SUPABASE_SERVICE_TOKEN := None;
     NEXT_PUBLIC_SUPABASE_ANON_KEY := Some "anon-key" |}.

(** The n-th generated identifier is a run of n+1 letters. *)
Definition uuidOf (n : nat) : string :=
  String.concat "" (replicate (S n) "u").

Definition noFaults : FaultPoint → option Thrown := λ _, None.

Definition faultAtUpsert : FaultPoint → option Thrown :=
  λ p, match p with
       | AtUpsert => Some (ErrorInstance "forced error before upserts")
       | _ => None
       end.

(** The connection is lost while the upsert query runs: the query fails
    and so does the ROLLBACK that follows. *)
Definition connectionLostAtUpsert : FaultPoint → option Thrown :=
  λ p, match p with
       | AtUpsert => Some (ErrorInstance "forced error before upserts")
       | AtRollback => Some (ErrorInstance "Connection terminated")
       | _ => None
       end.


(** The table with Ann's row [A1] only. *)
Definition annPresent : gmap string AttendanceRecord :=
  {[ "A1" := {| col_meeting_id := "meeting-1"; col_member_id := Some "m-ann";
                col_guest_id := None; col_pipeliner_id := None;
                col_status := present |} ]}.

(** Guest Gil attends: a create, without identifier. *)
Definition gilAttends : AttendancePayload :=
  {| meetingId := Some "meeting-1"; meetingType := Some "business";
     upserts := Some [ {| in_id := None; in_meeting_id := "meeting-1";
                          in_member_id := None; in_guest_id := Some "g-gil";
                          in_pipeliner_id := None; in_status := present |} ];
     deletions := Some [] |}.

(** Ann's row is deleted, together with an identifier no row has, and Bob
    is created. *)
Definition annUnsetBobPresent : AttendancePayload :=
  {| meetingId := Some "meeting-1"; meetingType := Some "business";
     upserts := Some [ {| in_id := None; in_meeting_id := "meeting-1";
                          in_member_id := Some "m-bob"; in_guest_id := None;
                          in_pipeliner_id := None; in_status := present |} ];
     deletions := Some ["A1"; "no-such-row"] |}.

(** Ann's existing row is set to apology: an update by identifier. *)
Definition annApology : AttendancePayload :=
  {| meetingId := Some "meeting-1"; meetingType := Some "business";
     upserts := Some [ {| in_id := Some "A1"; in_meeting_id := "meeting-1";
                          in_member_id := Some "m-ann"; in_guest_id := None;
                          in_pipeliner_id := None; in_status := apology |} ];
     deletions := None |}.

(** The same batch as [annUnsetBobPresent] with an empty [meetingId]. *)
Definition withoutMeeting : AttendancePayload :=
  {| meetingId := Some ""; meetingType := None;
     upserts := upserts annUnsetBobPresent;
     deletions := deletions annUnsetBobPresent |}.

End Deployment.

(** ** What the page displays, and the buttons *)

Module Display.
Import Page.

(** The [onClick] of a status button in [MemberStatusButtons] and in the
    member card: [onChange(isActive ? null : value)] with [isActive =
    status === value]. *)
Definition clickedStatus (status : option Status) (value : Status)
    : option Status :=
  if decide (status = Some value) then None else Some value.

(** A click on the button [value] of member [memberId]: the handler is
    called with the status the rendered button computes from the current
    entry ([memberAttendance[member.id]?.status ?? null]). *)
Definition clickMember (memberId : string) (value : Status) (l : Ledger)
    : Ledger :=
  handleMemberStatusChange memberId
    (clickedStatus (memberAttendance l !! memberId ≫= status) value) l.

(** [membersPresent]: the [reduce] over [members]. *)
Definition membersPresent (s : PageState) : nat :=
  fold_left
    (λ count member,
       if decide (memberAttendance (ledger s) !! person_id member ≫= status
                  = Some present)
       then count + 1 else count)
    (members s) 0.

(** [totalMembers]. *)
Definition totalMembers (s : PageState) : nat := length (members s).

(** The result of [computeSummary]. *)
Record Summary := {
  summary_present : nat;
  summary_apology : nat;
  summary_absent : nat;
}.

(** One iteration of the loop over [Object.values(memberEntries)]. *)
Definition countMember (entry : MemberAttendanceEntry) (acc : Summary)
    : Summary :=
  match status entry with
  | Some present =>
      {| summary_present := summary_present acc + 1;
         summary_apology := summary_apology acc;
         summary_absent := summary_absent acc |}
  | Some apology =>
      {| summary_present := summary_present acc;
         summary_apology := summary_apology acc + 1;
         summary_absent := summary_absent acc |}
  | Some absent =>
      {| summary_present := summary_present acc;
         summary_apology := summary_apology acc;
         summary_absent := summary_absent acc + 1 |}
  | None => acc
  end.

(** One iteration of the loops over the guest and pipeliner entries. *)
Definition countAttended (entry : GuestAttendanceEntry) (acc : Summary)
    : Summary :=
  if attended entry then
    {| summary_present := summary_present acc + 1;
       summary_apology := summary_apology acc;
       summary_absent := summary_absent acc |}
  else acc.

(** [computeSummary]: the three loops over the values of the three maps.
    The counters are only incremented, so the order in which the values of
    a map are visited does not matter; the fold visits them in key
    order. *)
Definition computeSummary
    (memberEntries : gmap string MemberAttendanceEntry)
    (guestEntries pipelinerEntries : gmap string GuestAttendanceEntry)
    : Summary :=
  let afterMembers :=
    map_fold (λ _ entry acc, countMember entry acc)
             {| summary_present := 0; summary_apology := 0;
                summary_absent := 0 |}
             memberEntries in
  let afterGuests :=
    map_fold (λ _ entry acc, countAttended entry acc) afterMembers guestEntries in
  map_fold (λ _ entry acc, countAttended entry acc) afterGuests pipelinerEntries.

(** [currentSummary]. *)
Definition currentSummary (l : Ledger) : Summary :=
  computeSummary (memberAttendance l) (guestAttendance l)
                 (pipelinerAttendance l).

(** The status buttons are clicked in member rows only. *)
Definition bump (o : option Status) (acc : Summary) : Summary :=
  countMember {| attendanceId := None; status := o |} acc.

(** The ledger after [handleGuestToggle] or [handlePipelinerToggle]. *)
Definition toggled (k : Subjects.Kind) (id : string) (attended' : bool)
    (l : Ledger) : Ledger :=
  match k with
  | Subjects.Member => l
  | Subjects.Guest => handleGuestToggle id attended' l
  | Subjects.Pipeliner => handlePipelinerToggle id attended' l
  end.

(** The hydration effect of each kind of subject. *)
Definition hydrateOf (k : Subjects.Kind) (subjects : list Person) (l : Ledger)
    : Ledger :=
  match k with
  | Subjects.Member => hydrateMembers subjects l
  | Subjects.Guest => hydrateGuests subjects l
  | Subjects.Pipeliner => hydratePipeliners subjects l
  end.

(** The record of a response that decides the entry of a subject: the last
    one that names it. *)
Definition lastNaming (k : Subjects.Kind) (id : string)
    (records : list ResponseRecord) : option ResponseRecord :=
  last (filter (λ r, Subjects.recordKey k r = Some id) records).

(** A request worth sending: for a selected meeting, with at least one
    upsert or deletion. *)
Definition worthSending (req : BatchRequest) : Prop :=
  req_meetingId req ≠ ""
  ∧ (req_upserts req ≠ [] ∨ req_deletions req ≠ []).

End Display.

(** ** Between the page and the route *)

Module Wire.

(** An upsert row as [JSON.stringify] writes it and [request.json()] reads
    it back. *)
Definition toInput (u : Page.AttendanceUpsertInput) : Gateway.UpsertInput :=
  {| Gateway.in_id := Page.up_id u;
     Gateway.in_meeting_id := Page.up_meeting_id u;
     Gateway.in_member_id := Page.up_member_id u;
     Gateway.in_guest_id := Page.up_guest_id u;
     Gateway.in_pipeliner_id := Page.up_pipeliner_id u;
     Gateway.in_status := Page.up_status u |}.

(** The body [{ meetingId, meetingType, upserts, deletions }] of the
    [fetch] call as the route receives it. *)
Definition toPayload (req : Page.BatchRequest) : Gateway.AttendancePayload :=
  {| Gateway.meetingId := Some (Page.req_meetingId req);
     Gateway.meetingType := Page.req_meetingType req;
     Gateway.upserts := Some (toInput <$> Page.req_upserts req);
     Gateway.deletions := Some (Page.req_deletions req) |}.

(** A returned row as the page reads it. *)
Definition toRecord (r : Gateway.UpsertRow) : Page.ResponseRecord :=
  {| Page.rec_id := Gateway.row_id r;
     Page.rec_status := Gateway.row_status r;
     Page.rec_member_id := Gateway.row_member_id r;
     Page.rec_guest_id := Gateway.row_guest_id r;
     Page.rec_pipeliner_id := Gateway.row_pipeliner_id r |}.

(** What the page's [fetch] and its reading of the response come to, given
    the exit of the route handler: [response.ok] is a status from 200 to
    299; an error thrown by the handler reaches the page as a response that
    is not ok and whose body has no [error] field. *)
Definition fetched (out : Gateway.Thrown + Gateway.Response) : Page.FetchResult :=
  match out with
  | inl _ => Page.HttpNotOk None
  | inr r =>
      match Gateway.body r with
      | Gateway.Saved records deletedIds =>
          if bool_decide (200 ≤ Gateway.http_status r < 300) then
            Page.HttpOk {| Page.resp_success := true;
                           Page.resp_records := toRecord <$> records;
                           Page.resp_deletedIds := deletedIds;
                           Page.resp_error := None |}
          else Page.HttpNotOk None
      | Gateway.Failed error =>
          if bool_decide (200 ≤ Gateway.http_status r < 300) then
            Page.HttpOk {| Page.resp_success := false;
                           Page.resp_records := [];
                           Page.resp_deletedIds := [];
                           Page.resp_error := Some error |}
          else Page.HttpNotOk (Some error)
      end
  end.

(** The subject column of a stored row, for each kind of subject. *)
Definition columnOf (k : Subjects.Kind) (r : Gateway.AttendanceRecord)
    : option string :=
  match k with
  | Subjects.Member => Gateway.col_member_id r
  | Subjects.Guest => Gateway.col_guest_id r
  | Subjects.Pipeliner => Gateway.col_pipeliner_id r
  end.

(** Whether the exit of the route handler is a success response. *)
Definition succeeded (out : Gateway.Thrown + Gateway.Response) : bool :=
  match out with
  | inr r => Gateway.success r
  | inl _ => false
  end.

End Wire.

(** * Properties *)

Lemma truthy_Some s : s ≠ "" → truthy (Some s) = true.
Proof. intros H. unfold truthy. by rewrite bool_decide_eq_true. Qed.

Lemma truthy_inv o : truthy o = true → ∃ s, o = Some s ∧ s ≠ "".
Proof.
  destruct o as [s|]; simpl; [|done].
  rewrite bool_decide_eq_true. eauto.
Qed.

Module PageFacts.
Import Page Subjects.

Lemma isDirty_spec k l id :
  isDirty k l id = bool_decide (currentOf k l id ≠ baselineOf k l id).
Proof.
  destruct k; simpl; [done| |];
    unfold guestIsDirty, pipelinerIsDirty, attendedStatus;
    apply bool_decide_ext; repeat case_match; naive_solver.
Qed.

Lemma isDirty_false k l id :
  isDirty k l id = false ↔ currentOf k l id = baselineOf k l id.
Proof.
  rewrite isDirty_spec, bool_decide_eq_false.
  destruct (decide (currentOf k l id = baselineOf k l id)); naive_solver.
Qed.

(** A push loop accumulates the concatenation of what its iterations
    push. *)
Lemma fold_pushAll {A} (f : A → list AttendanceUpsertInput * list string * list string)
    (xs : list A) (acc : DiffAcc) :
  fold_left (λ acc x, pushAll acc (f x)) xs acc
  = {| acc_upserts := acc_upserts acc ++ concat ((λ x, (f x).1.1) <$> xs);
       acc_deletions := acc_deletions acc ++ concat ((λ x, (f x).1.2) <$> xs);
       acc_names := acc_names acc ++ concat ((λ x, (f x).2) <$> xs) |}.
Proof.
  revert acc. induction xs as [|x xs IH]; intros acc; simpl.
  - destruct acc; simpl. by rewrite !app_nil_r.
  - rewrite IH. unfold pushAll; simpl. by rewrite <- !app_assoc.
Qed.

Lemma computeDiff_upserts s :
  acc_upserts (computeDiff s)
  = concat ((λ p, (deltaOf Member s p).1.1) <$> members s)
    ++ concat ((λ p, (deltaOf Guest s p).1.1) <$> guests s)
    ++ concat ((λ p, (deltaOf Pipeliner s p).1.1) <$> pipelinerEligibility s).
Proof.
  unfold computeDiff, memberLoop, attendedLoop; simpl.
  by rewrite !fold_pushAll.
Qed.

Lemma computeDiff_deletions s :
  acc_deletions (computeDiff s)
  = concat ((λ p, (deltaOf Member s p).1.2) <$> members s)
    ++ concat ((λ p, (deltaOf Guest s p).1.2) <$> guests s)
    ++ concat ((λ p, (deltaOf Pipeliner s p).1.2) <$> pipelinerEligibility s).
Proof.
  unfold computeDiff, memberLoop, attendedLoop; simpl.
  by rewrite !fold_pushAll.
Qed.

Lemma lookup_default_member (m : gmap string MemberAttendanceEntry) id :
  status (default emptyMember (m !! id)) = m !! id ≫= status
  ∧ attendanceId (default emptyMember (m !! id)) = m !! id ≫= attendanceId.
Proof. by destruct (m !! id). Qed.

Lemma lookup_default_guest (m : gmap string GuestAttendanceEntry) id :
  attended (default emptyGuest (m !! id)) = attendedOf m id
  ∧ guestAttendanceId (default emptyGuest (m !! id)) = m !! id ≫= guestAttendanceId.
Proof. unfold attendedOf. by destruct (m !! id). Qed.

(** What one loop iteration pushes, by the subject's current and baseline
    values. *)
Lemma delta_clean k s p :
  currentOf k (ledger s) (person_id p) = baselineOf k (ledger s) (person_id p) →
  deltaOf k s p = ([], [], []).
Proof.
  destruct k; simpl; unfold memberDelta, attendedDelta, attendedStatus; intros H.
  - rewrite !(proj1 (lookup_default_member _ _)). by rewrite decide_True.
  - rewrite !(proj1 (lookup_default_guest _ _)).
    rewrite decide_True; [done|]. repeat case_match; naive_solver.
  - rewrite !(proj1 (lookup_default_guest _ _)).
    rewrite decide_True; [done|]. repeat case_match; naive_solver.
Qed.

Lemma delta_upsert k s p st :
  currentOf k (ledger s) (person_id p) = Some st →
  baselineOf k (ledger s) (person_id p) ≠ Some st →
  deltaOf k s p
  = ([upsertFor k (selectedMeetingId s) (person_id p)
        (nullish (currentIdOf k (ledger s) (person_id p))
                 (persistedIdOf k (ledger s) (person_id p))) st],
     [], [full_name p]).
Proof.
  destruct k; simpl; unfold memberDelta, attendedDelta, attendedStatus;
    intros Hc Hb.
  - rewrite !(proj1 (lookup_default_member _ _)),
            !(proj2 (lookup_default_member _ _)), Hc.
    rewrite decide_False by congruence. done.
  - rewrite !(proj1 (lookup_default_guest _ _)),
            !(proj2 (lookup_default_guest _ _)).
    destruct (attendedOf (guestAttendance _) _); [|done].
    destruct (attendedOf (guestInitialRef _) _); simplify_eq.
    by rewrite decide_False.
  - rewrite !(proj1 (lookup_default_guest _ _)),
            !(proj2 (lookup_default_guest _ _)).
    destruct (attendedOf (pipelinerAttendance _) _); [|done].
    destruct (attendedOf (pipelinerInitialRef _) _); simplify_eq.
    by rewrite decide_False.
Qed.

Lemma delta_deletion k s p a :
  currentOf k (ledger s) (person_id p) = None →
  baselineOf k (ledger s) (person_id p) ≠ None →
  persistedIdOf k (ledger s) (person_id p) = Some a →
  a ≠ "" →
  deltaOf k s p = ([], [a], [full_name p]).
Proof.
  destruct k; simpl; unfold memberDelta, attendedDelta, attendedStatus;
    intros Hc Hb Hid Ha.
  - rewrite !(proj1 (lookup_default_member _ _)),
            !(proj2 (lookup_default_member _ _)), Hc, Hid.
    rewrite decide_False by congruence.
    by rewrite bool_decide_eq_true_2.
  - rewrite !(proj1 (lookup_default_guest _ _)),
            !(proj2 (lookup_default_guest _ _)), Hid.
    destruct (attendedOf (guestAttendance _) _); [done|].
    destruct (attendedOf (guestInitialRef _) _); [|done].
    rewrite decide_False by done.
    by rewrite bool_decide_eq_true_2.
  - rewrite !(proj1 (lookup_default_guest _ _)),
            !(proj2 (lookup_default_guest _ _)), Hid.
    destruct (attendedOf (pipelinerAttendance _) _); [done|].
    destruct (attendedOf (pipelinerInitialRef _) _); [|done].
    rewrite decide_False by done.
    by rewrite bool_decide_eq_true_2.
Qed.

(** Every upsert an iteration pushes names the subject of that iteration,
    under the key of its kind only. *)
Lemma delta_key k k' s q u :
  u ∈ (deltaOf k' s q).1.1 →
  subjectKey k u = if decide (k = k') then Some (person_id q) else None.
Proof.
  destruct k'; simpl; unfold memberDelta, attendedDelta;
    repeat (case_decide || case_match); simpl;
    rewrite ?elem_of_nil, ?list_elem_of_singleton; try done;
    intros ->; by destruct k.
Qed.

Lemma upsertsFor_app k id us vs :
  upsertsFor k id (us ++ vs) = upsertsFor k id us ++ upsertsFor k id vs.
Proof. apply filter_app. Qed.

Lemma upsertsFor_all k id us :
  (∀ u, u ∈ us → subjectKey k u = Some id) → upsertsFor k id us = us.
Proof.
  intros H. unfold upsertsFor. induction us as [|u us IH]; [done|].
  rewrite filter_cons_True by (apply H; left).
  f_equal. apply IH. intros v Hv. apply H. by right.
Qed.

Lemma upsertsFor_none k id us :
  (∀ u, u ∈ us → subjectKey k u ≠ Some id) → upsertsFor k id us = [].
Proof.
  intros H. unfold upsertsFor. induction us as [|u us IH]; [done|].
  rewrite filter_cons_False by (apply H; left).
  apply IH. intros v Hv. apply H. by right.
Qed.

(** Among the upserts pushed by a loop over subjects with distinct ids,
    those naming subject [p] are exactly the ones pushed by [p]'s own
    iteration; a loop over another kind pushes none. *)
Lemma upsertsFor_loop k k' s (ps : list Person) (p : Person) :
  NoDup (person_id <$> ps) →
  upsertsFor k (person_id p) (concat ((λ q, (deltaOf k' s q).1.1) <$> ps))
  = if decide (k = k' ∧ person_id p ∈ person_id <$> ps)
    then (deltaOf k s p).1.1 else [].
Proof.
  induction ps as [|q ps IH]; intros Hnd.
  - rewrite decide_False; [done|]. rewrite fmap_nil, elem_of_nil. tauto.
  - rewrite fmap_cons in Hnd. rewrite !fmap_cons. cbn [concat].
    apply NoDup_cons in Hnd as [Hq Hnd].
    rewrite upsertsFor_app, IH by done.
    destruct (decide (k = k')) as [<-|Hk].
    + destruct (decide (person_id q = person_id p)) as [Heq|Hne].
      * rewrite upsertsFor_all.
        2:{ intros u Hu. rewrite (delta_key k k s q u Hu).
            rewrite decide_True by done. by rewrite Heq. }
        rewrite decide_False by (rewrite <- Heq; tauto).
        rewrite decide_True by (split; [done|]; rewrite Heq; left).
        rewrite app_nil_r.
        assert (Hsame : ∀ q', person_id q' = person_id p →
                  (deltaOf k s q').1.1 = (deltaOf k s p).1.1).
        { intros q' E. destruct k; simpl;
            unfold memberDelta, attendedDelta; rewrite E;
            repeat (case_decide || case_match); done. }
        by apply Hsame.
      * rewrite upsertsFor_none.
        2:{ intros u Hu. rewrite (delta_key k k s q u Hu).
            rewrite decide_True by done. congruence. }
        simpl. apply decide_ext. rewrite elem_of_cons. naive_solver.
    + rewrite upsertsFor_none.
      2:{ intros u Hu. rewrite (delta_key k k' s q u Hu).
          by rewrite decide_False. }
      rewrite !decide_False by tauto. done.
Qed.

Lemma elem_of_concat {A} (x : A) (ls : list (list A)) :
  x ∈ concat ls ↔ ∃ l, x ∈ l ∧ l ∈ ls.
Proof.
  induction ls as [|l ls IH]; simpl.
  - rewrite elem_of_nil. split; [done|]. intros (l & _ & H). by apply elem_of_nil in H.
  - rewrite elem_of_app, IH. split.
    + intros [H|(l' & H1 & H2)]; [exists l | exists l'];
        (split; [done|]); [left | by right].
    + intros (l' & H1 & H2). apply elem_of_cons in H2 as [->|H2]; eauto.
Qed.

Lemma upsertsFor_other_loop k k' s (ps : list Person) id :
  k ≠ k' →
  upsertsFor k id (concat ((λ q, (deltaOf k' s q).1.1) <$> ps)) = [].
Proof.
  intros Hk. apply upsertsFor_none. intros u Hu.
  apply elem_of_concat in Hu as (us & Hu & Hus).
  apply list_elem_of_fmap in Hus as (q & -> & _).
  rewrite (delta_key k k' s q u Hu). by rewrite decide_False.
Qed.

(** The upserts of the whole batch that name a listed subject are the ones
    its own loop iteration pushes. *)
Lemma upsertsFor_computeDiff k s p :
  NoDup (person_id <$> listOf k s) →
  p ∈ listOf k s →
  upsertsFor k (person_id p) (acc_upserts (computeDiff s)) = (deltaOf k s p).1.1.
Proof.
  intros Hnd Hin.
  assert (Hid : person_id p ∈ person_id <$> listOf k s)
    by (apply list_elem_of_fmap; eauto).
  rewrite computeDiff_upserts, !upsertsFor_app.
  destruct k; simpl in Hnd, Hid.
  - rewrite upsertsFor_loop by done. rewrite decide_True by done.
    rewrite !upsertsFor_other_loop by done. by rewrite !app_nil_r.
  - rewrite (upsertsFor_loop Guest Guest) by done. rewrite decide_True by done.
    rewrite !upsertsFor_other_loop by done. by rewrite !app_nil_r.
  - rewrite (upsertsFor_loop Pipeliner Pipeliner) by done.
    rewrite decide_True by done.
    rewrite !upsertsFor_other_loop by done. done.
Qed.

(** The deletions an iteration pushes are in the batch. *)
Lemma deletions_computeDiff k s p a :
  p ∈ listOf k s → a ∈ (deltaOf k s p).1.2 → a ∈ acc_deletions (computeDiff s).
Proof.
  intros Hin Ha. rewrite computeDiff_deletions, !elem_of_app.
  destruct k; [left | right; left | right; right];
    apply elem_of_concat; eexists; (split; [exact Ha|]);
    apply list_elem_of_fmap; eauto.
Qed.

(** C3. The diff computed at save time is minimal and complete.  For a
    subject [p] of any kind, listed once in its subject list: if its current
    value equals its baseline, its loop iteration pushes nothing and the
    batch has no upsert naming it; if it is dirty with a current value [st],
    its iteration pushes exactly the upsert [{ id: attendanceId, subject,
    status: st }] and this is the only upsert of the batch naming it; if it
    is dirty with current unset and a persisted (non-empty) [attendanceId],
    its iteration pushes exactly the deletion of that identifier, which is
    in the batch, and the batch has no upsert naming it. *)
Theorem diff_minimal_and_complete (s : PageState) (k : Kind) (p : Person) :
  NoDup (person_id <$> listOf k s) →
  p ∈ listOf k s →
  let l := ledger s in
  let id := person_id p in
  let d := computeDiff s in
  (currentOf k l id = baselineOf k l id →
     deltaOf k s p = ([], [], []) ∧ upsertsFor k id (acc_upserts d) = [])
  ∧ (∀ st, currentOf k l id = Some st → baselineOf k l id ≠ Some st →
       let u := upsertFor k (selectedMeetingId s) id
                  (nullish (currentIdOf k l id) (persistedIdOf k l id)) st in
       deltaOf k s p = ([u], [], [full_name p])
       ∧ upsertsFor k id (acc_upserts d) = [u])
  ∧ (∀ a, currentOf k l id = None → baselineOf k l id ≠ None →
       persistedIdOf k l id = Some a → a ≠ "" →
       deltaOf k s p = ([], [a], [full_name p])
       ∧ upsertsFor k id (acc_upserts d) = []
       ∧ a ∈ acc_deletions d).
Proof.
  intros Hnd Hin l id d. subst l id d.
  rewrite (upsertsFor_computeDiff k s p Hnd Hin).
  split; [|split].
  - intros H. by rewrite (delta_clean k s p H).
  - intros st Hc Hb u. subst u. by rewrite (delta_upsert k s p st Hc Hb).
  - intros a Hc Hb Hid Ha.
    pose proof (delta_deletion k s p a Hc Hb Hid Ha) as Hd.
    rewrite Hd. repeat split.
    apply (deletions_computeDiff k s p a Hin). rewrite Hd. simpl. by left.
Qed.

Lemma diff_minimal_and_complete_witness :
  let s := Page.page (Page.run Scenario.twoEdits Scenario.fresh) in
  deltaOf Member s Scenario.ann = ([], ["A1"], ["Ann"])
  ∧ upsertsFor Member "m-ann" (acc_upserts (computeDiff s)) = []
  ∧ "A1" ∈ acc_deletions (computeDiff s).
Proof.
  refine (proj2 (proj2 (diff_minimal_and_complete
            (Page.page (Page.run Scenario.twoEdits Scenario.fresh))
            Member Scenario.ann _ _)) "A1" _ _ _ _).
  - apply (bool_decide_unpack _). vm_compute. exact I.
  - apply (bool_decide_unpack _). vm_compute. exact I.
  - vm_compute. reflexivity.
  - vm_compute. discriminate.
  - vm_compute. reflexivity.
  - discriminate.
Defined.

(** The batch of the two-edit scenario: one upsert for Bob, one deletion
    for Ann, nothing for Cy. *)
Example diff_of_two_edits :
  let d := computeDiff (Page.page (Page.run Scenario.twoEdits Scenario.fresh)) in
  acc_upserts d
  = [ {| up_id := None; up_meeting_id := "meeting-1"; up_status := apology;
         up_member_id := Some "m-bob"; up_guest_id := None;
         up_pipeliner_id := None |} ]
  ∧ acc_deletions d = ["A1"].
Proof. vm_compute. done. Qed.

(** ** Reconciliation merge *)

Lemma snapshotMemberAttendance_id (m : gmap string MemberAttendanceEntry) :
  snapshotMemberAttendance m = m.
Proof.
  apply map_eq. intros id. unfold snapshotMemberAttendance.
  rewrite lookup_fmap. by destruct (m !! id) as [[]|].
Qed.

Lemma snapshotGuestAttendance_id (m : gmap string GuestAttendanceEntry) :
  snapshotGuestAttendance m = m.
Proof.
  apply map_eq. intros id. unfold snapshotGuestAttendance.
  rewrite lookup_fmap. by destruct (m !! id) as [[]|].
Qed.

(** After a merge every baseline map equals its attendance map. *)
Lemma mergeResponse_baseline f result l :
  let l' := mergeResponse f result l in
  memberInitialRef l' = memberAttendance l'
  ∧ guestInitialRef l' = guestAttendance l'
  ∧ pipelinerInitialRef l' = pipelinerAttendance l'.
Proof.
  simpl. unfold snapshotPipelinerAttendance.
  by rewrite snapshotMemberAttendance_id, !snapshotGuestAttendance_id.
Qed.

Lemma mergeResponse_clean f result l k id :
  isDirty k (mergeResponse f result l) id = false.
Proof.
  apply isDirty_false.
  destruct (mergeResponse_baseline f result l) as (Hm & Hg & Hp).
  destruct k; unfold currentOf, baselineOf; by rewrite ?Hm, ?Hg, ?Hp.
Qed.

(** A loop that writes [h id] under the id of every listed subject. *)
Lemma fold_insert_by_id {V} (h : string → V) (ps : list Person)
    (acc : gmap string V) (id : string) :
  fold_left (λ next p, <[person_id p := h (person_id p)]> next) ps acc !! id
  = if decide (id ∈ person_id <$> ps) then Some (h id) else acc !! id.
Proof.
  revert acc. induction ps as [|p ps IH]; intros acc.
  - cbn [fold_left]. rewrite fmap_nil.
    rewrite decide_False; [done|]. apply not_elem_of_nil.
  - cbn [fold_left]. rewrite IH, fmap_cons.
    destruct (decide (id ∈ person_id <$> ps)) as [Hin|Hin].
    + rewrite decide_True; [done|]. by right.
    + destruct (decide (id = person_id p)) as [->|Hne].
      * rewrite decide_True by left. by rewrite lookup_insert_eq.
      * rewrite decide_False by (rewrite elem_of_cons; tauto).
        by rewrite lookup_insert_ne.
Qed.

(** The loop over the response records leaves alone every subject that no
    record names. *)
Lemma fold_records_unrelated {V} (subjectOf : ResponseRecord → option string)
    (entry : ResponseRecord → V) (records : list ResponseRecord)
    (acc : gmap string V) (id : string) :
  (∀ r, r ∈ records → subjectOf r ≠ Some id) →
  fold_left
    (λ next record,
       match subjectOf record with
       | Some subjectId =>
           if bool_decide (subjectId ≠ "")
           then <[subjectId := entry record]> next else next
       | None => next
       end)
    records acc !! id
  = acc !! id.
Proof.
  revert acc. induction records as [|r rs IH]; intros acc H; [done|].
  cbn [fold_left]. rewrite IH by (intros r' Hr'; apply H; by right).
  assert (Hr : subjectOf r ≠ Some id) by (apply H; left).
  destruct (subjectOf r) as [sid|]; [|done].
  case_bool_decide; [|done].
  rewrite lookup_insert_ne; [done|congruence].
Qed.




(** While a save is in progress the edit controls are disabled. *)
Lemma edit_controls_disabled_while_saving s :
  saving (ui s) = true → editControlsDisabled s = true.
Proof. unfold editControlsDisabled. intros ->. apply orb_true_r. Qed.




(** ** Loading the baseline *)

Lemma coveringRow_snoc k id rows r :
  coveringRow k id (rows ++ [r])
  = if decide (rowSubject r = Some (k, id)) then Some r
    else coveringRow k id rows.
Proof.
  unfold coveringRow. rewrite filter_app, filter_cons, filter_nil.
  case_decide.
  - by rewrite last_snoc.
  - by rewrite app_nil_r.
Qed.

(** Each map [loadAttendance] builds holds, for every subject, the entry of
    its covering row and nothing else. *)
Lemma loadedMaps_lookup rows id :
  (loadedMaps rows).1.1 !! id = memberOfRow <$> coveringRow Member id rows
  ∧ (loadedMaps rows).1.2 !! id = guestOfRow <$> coveringRow Guest id rows
  ∧ (loadedMaps rows).2 !! id = guestOfRow <$> coveringRow Pipeliner id rows.
Proof.
  induction rows as [|r rows IH] using rev_ind.
  - unfold loadedMaps, coveringRow. simpl. by rewrite !lookup_empty.
  - unfold loadedMaps in *. rewrite fold_left_app. cbn [fold_left].
    destruct (fold_left _ rows _) as [[mm gm] pm]. simpl in IH.
    destruct IH as (IHm & IHg & IHp).
    rewrite !coveringRow_snoc. unfold rowSubject.
    destruct (truthy (rec_member_id r)) eqn:Em.
    { apply truthy_inv in Em as (sid & Em & _). rewrite Em. simpl.
      rewrite IHg, IHp. repeat split.
      destruct (decide (sid = id)) as [->|Hne].
      - rewrite lookup_insert_eq. by rewrite decide_True.
      - rewrite lookup_insert_ne by done. rewrite decide_False by congruence. done. }
    destruct (truthy (rec_guest_id r)) eqn:Eg.
    { apply truthy_inv in Eg as (sid & Eg & _). rewrite Eg. simpl.
      rewrite IHm, IHp. repeat split.
      destruct (decide (sid = id)) as [->|Hne].
      - rewrite lookup_insert_eq. by rewrite decide_True.
      - rewrite lookup_insert_ne by done. rewrite decide_False by congruence. done. }
    destruct (truthy (rec_pipeliner_id r)) eqn:Ep.
    { apply truthy_inv in Ep as (sid & Ep & _). rewrite Ep. simpl.
      rewrite IHm, IHg. repeat split.
      destruct (decide (sid = id)) as [->|Hne].
      - rewrite lookup_insert_eq. by rewrite decide_True.
      - rewrite lookup_insert_ne by done. rewrite decide_False by congruence. done. }
    simpl. done.
Qed.

(** C5, as the code has it.  Loading the rows of the selected meeting
    replaces the whole ledger: a subject covered by the rows gets both its
    current and its baseline value (and row identifier) from its covering
    row, and a subject the rows do not cover is left without an entry, so
    that it reads as unset with no row identifier; in both cases the subject
    is not dirty afterwards, whatever its current value was before the
    load. *)
Theorem load_replaces_ledger
    (s : PageState) (rows : list ResponseRecord) (k : Kind) (id : string) :
  selectedMeetingId s ≠ "" →
  let l' := loadAttendance (Some rows) s in
  currentOf k l' id = coveringRow k id rows ≫= rowStatus k
  ∧ baselineOf k l' id = coveringRow k id rows ≫= rowStatus k
  ∧ currentIdOf k l' id = rec_id <$> coveringRow k id rows
  ∧ persistedIdOf k l' id = rec_id <$> coveringRow k id rows
  ∧ isDirty k l' id = false.
Proof.
  intros Hmeeting l'. subst l'. unfold loadAttendance.
  rewrite (truthy_Some _ Hmeeting). simpl.
  destruct (loadedMaps_lookup rows id) as (Hm & Hg & Hp).
  destruct (loadedMaps rows) as [[mm gm] pm]. simpl in Hm, Hg, Hp.
  assert (Hclean : ∀ l, memberInitialRef l = memberAttendance l →
            guestInitialRef l = guestAttendance l →
            pipelinerInitialRef l = pipelinerAttendance l →
            isDirty k l id = false).
  { intros l E1 E2 E3. apply isDirty_false.
    destruct k; unfold currentOf, baselineOf; by rewrite ?E1, ?E2, ?E3. }
  unfold snapshotPipelinerAttendance.
  rewrite snapshotMemberAttendance_id, !snapshotGuestAttendance_id.
  split; [|split; [|split; [|split]]]; [| | | |by apply Hclean];
    destruct k; simpl; unfold attendedStatus, attendedOf;
    rewrite ?Hm, ?Hg, ?Hp;
    match goal with
    | |- context [coveringRow ?k' id rows] => by destruct (coveringRow k' id rows)
    end.
Qed.

Lemma load_replaces_ledger_witness :
  let l' := loadAttendance (Some Scenario.persistedRows)
              (page Scenario.bobEdited) in
  currentOf Member l' "m-ann" = Some present
  ∧ baselineOf Member l' "m-ann" = Some present
  ∧ currentIdOf Member l' "m-ann" = Some "A1"
  ∧ persistedIdOf Member l' "m-ann" = Some "A1"
  ∧ isDirty Member l' "m-ann" = false.
Proof.
  refine (load_replaces_ledger (page Scenario.bobEdited)
            Scenario.persistedRows Member "m-ann" _).
  vm_compute. discriminate.
Defined.

(** C5 as stated fails.  Bob, whom the persisted rows do not cover, is
    marked present; a second load of the same rows for the same meeting
    leaves Bob unset and not dirty: the unsaved edit is gone. *)
Lemma reload_discards_unsaved_edit :
  let before := Scenario.bobEdited in
  let after := step (AttendanceLoaded (Some Scenario.persistedRows)) before in
  coveringRow Member "m-bob" Scenario.persistedRows = None
  ∧ selectedMeetingId (page after) = selectedMeetingId (page before)
  ∧ currentOf Member (ledger (page before)) "m-bob" = Some present
  ∧ isDirty Member (ledger (page before)) "m-bob" = true
  ∧ currentOf Member (ledger (page after)) "m-bob" = None
  ∧ isDirty Member (ledger (page after)) "m-bob" = false.
Proof. vm_compute. repeat split. Qed.

(** ** The save guard and the autosave scheduler *)

Lemma autosaveEffect_saving s :
  saving (ui (autosaveEffect s)) = saving (ui s).
Proof. unfold autosaveEffect. by case_match. Qed.

Lemma autosaveEffect_ledger s : ledger (autosaveEffect s) = ledger s.
Proof. unfold autosaveEffect. by case_match. Qed.

(** The effect leaves a timeout pending exactly when a meeting is selected,
    something is unsaved and no save is in progress. *)
Lemma autosaveEffect_timer s :
  autoSaveTimer (ui (autosaveEffect s))
  = truthy (Some (selectedMeetingId s)) && hasUnsavedChanges s
    && negb (saving (ui s))
  ∧ autoSaveScheduled (ui (autosaveEffect s))
    = autoSaveTimer (ui (autosaveEffect s)).
Proof.
  unfold autosaveEffect.
  destruct (truthy _), (hasUnsavedChanges s), (saving (ui s)); done.
Qed.


(** The guard of [saveAttendance]. *)
Lemma saveAttendance_while_saving auto' s :
  saving (ui s) = true → saveAttendance auto' s = (s, None).
Proof. unfold saveAttendance. intros ->. by rewrite orb_true_r. Qed.










(** In any state, reachable or not, a save requested while [saving] is set
    sends nothing. *)
Lemma no_request_while_saving y e :
  saving (ui (page y)) = true →
  e = ManualSave ∨ e = TimerFire →
  requests (step e y) = requests y ∧ inflight (step e y) = inflight y.
Proof.
  intros Hs [-> | ->]; simpl.
  - unfold callSave. by rewrite saveAttendance_while_saving.
  - destruct (autoSaveTimer _); [|done].
    unfold callSave. by rewrite saveAttendance_while_saving.
Qed.

Lemma hasUnsavedChanges_withUi u s :
  hasUnsavedChanges (withUi u s) = hasUnsavedChanges s.
Proof. done. Qed.

(** C6, as the code has it.  When a save fails, whether it was requested
    by the operator or by the timeout, the ledger is left as it is,
    [saving] is reset, and the autosave effect runs again: it arms the
    timeout exactly when a meeting is selected and unsaved changes remain.
    A failed manual save is therefore retried automatically after the
    delay, like a failed automatic one. *)
Theorem failed_save_rearms_autosave
    (y : Sys) (f : InFlight) (rest : list InFlight) (r : FetchResult)
    (reloadedGuests reloadedPipeliners : option (list Person)) :
  inflight y = f :: rest →
  saveFails r = true →
  let y' := step (FetchDone r reloadedGuests reloadedPipeliners) y in
  ledger (page y') = ledger (page y)
  ∧ saving (ui (page y')) = false
  ∧ autoSaveTimer (ui (page y'))
    = truthy (Some (selectedMeetingId (page y))) && hasUnsavedChanges (page y)
  ∧ autoSaveScheduled (ui (page y')) = autoSaveTimer (ui (page y')).
Proof.
  intros Hf Hr y'. subst y'. simpl. rewrite Hf. simpl.
  assert (∃ message,
            saveAttendance_resume f r reloadedGuests reloadedPipeliners (page y)
            = saveFailed f message (page y)) as [message ->].
  { unfold saveAttendance_resume. destruct r as [m|e|result]; simpl in Hr; eauto.
    destruct (resp_success result); [done|eauto]. }
  rewrite autosaveEffect_ledger.
  rewrite autosaveEffect_saving.
  destruct (autosaveEffect_timer (saveFailed f message (page y))) as [-> ->].
  unfold saveFailed. rewrite hasUnsavedChanges_withUi. simpl.
  by rewrite andb_true_r.
Qed.

Lemma failed_save_rearms_autosave_witness :
  let y' := Scenario.manualSaveFailed in
  ledger (page y') = ledger (page (run Scenario.saveOfBob Scenario.fresh))
  ∧ saving (ui (page y')) = false
  ∧ autoSaveTimer (ui (page y')) = true
  ∧ autoSaveScheduled (ui (page y')) = autoSaveTimer (ui (page y')).
Proof.
  refine (failed_save_rearms_autosave (run Scenario.saveOfBob Scenario.fresh)
            (Scenario.suspendedSave (run Scenario.saveOfBob Scenario.fresh)) []
            (FetchRejected "Failed to fetch") None None _ _).
  - vm_compute. reflexivity.
  - reflexivity.
Defined.

(** C6 as stated fails.  The operator's save of Bob fails; no edit follows
    and the operator does not retry, yet the timeout is armed, and when it
    fires a second request with the same batch is sent by an automatic
    save. *)
Lemma failed_manual_save_is_retried_automatically :
  let failed := Scenario.manualSaveFailed in
  let retried := step TimerFire failed in
  auto (Scenario.suspendedSave (run Scenario.saveOfBob Scenario.fresh)) = false
  ∧ saveError (ui (page failed)) = Some "Failed to fetch"
  ∧ autoSaveScheduled (ui (page failed)) = true
  ∧ autoSaveTimer (ui (page failed)) = true
  ∧ length (requests failed) = 1
  ∧ length (requests retried) = 2
  ∧ auto (Scenario.suspendedSave retried) = true
  ∧ sent (Scenario.suspendedSave retried)
    = sent (Scenario.suspendedSave (run Scenario.saveOfBob Scenario.fresh)).
Proof. vm_compute. repeat split. Qed.

End PageFacts.

Module GatewayFacts.
Import Gateway.

(** Evaluates the monadic plumbing of a run named by equation [H] and
    splits it on every condition it tests, innermost first. *)
Ltac route_eval H :=
  cbv [POST saveWithPool transaction saveWithSupabaseService
       saveWithSupabaseAuthClient saveAttendanceWithSupabaseClient
       pgConnect pgBegin pgDelete pgUpsert pgCommit pgRollback pgRelease
       apiDelete apiUpsert upsertStatement deleteStatement faultAt
       attempt finally tryCatch throw record writeTable setTxn setCommitted
       setDrawn getWorld currentTable saved failed mbind M_bind mret M_ret
       committed txn drawn log] in H.

Ltac split_run H :=
  route_eval H;
  repeat (match type of H with
          | context [match ?x with _ => _ end] =>
              lazymatch x with
              | context [match _ with _ => _ end] => fail
              | _ => destruct x eqn:?
              end
          end;
          cbv beta iota zeta delta [committed txn drawn log] in H);
  simpl in * |-; simplify_eq.

Ltac solve_in_ops Hop :=
  repeat (apply elem_of_cons in Hop as [->|Hop]);
  try (by apply elem_of_nil in Hop); simplify_eq/=; try done.

(** Closes the statement about the trace of a run once the run is known. *)
Ltac trace_leaf :=
  first [ exists []; split; [by rewrite app_nil_r|]
        | eexists; split; [rewrite <- ?app_assoc; reflexivity|] ];
  unfold handledBy; simpl;
  split; [repeat (apply Forall_cons; split; [reflexivity|]); by apply Forall_nil|];
  split; [repeat (apply NoDup_cons; split;
                    [rewrite ?not_elem_of_cons; repeat split;
                     (discriminate || apply not_elem_of_nil)|]);
          by apply NoDup_nil|];
  split; [intros r' Hr Hs;
          first [ discriminate Hr
                | injection Hr as <-;
                  first [ discriminate Hs
                        | split; [reflexivity|];
                          intros op p Hop Hp; solve_in_ops Hop ] ]|];
  split; [intros r' Hr Hs;
          first [ discriminate Hr
                | injection Hr as <-;
                  first [ discriminate Hs
                        | left; reflexivity
                        | right; split; reflexivity ] ]|];
  split; [intros e' He;
          first [ discriminate He
                | injection He as <-; split; [reflexivity|assumption] ]|];
  intros (op & p & Hop & Hp & Hfail) Hrb;
  first [ solve [eexists; reflexivity]
        | solve_in_ops Hop; destruct Hfail; congruence ].

(** C8. A request whose [meetingId] is missing or empty (or whose body is
    [null]) is answered with status 400 and [{ success: false, error:
    "meetingId is required." }] whatever its upserts and deletions are, and
    the store is not touched: the committed table, the transaction state
    and the log of store accesses are exactly as before. *)
Theorem missing_meetingId_is_rejected
    (gen_random_uuid : nat → string) (fails : FaultPoint → option Thrown)
    (env : Env) (payload : option AttendancePayload) (w : World) :
  truthy (payload ≫= meetingId) = false →
  POST gen_random_uuid fails env payload w
  = (inr {| http_status := 400; body := Failed "meetingId is required." |}, w).
Proof. intros H. unfold POST. by rewrite H. Qed.

Lemma missing_meetingId_is_rejected_witness :
  POST Deployment.uuidOf Deployment.noFaults Deployment.withDatabase
       (Some Deployment.withoutMeeting) (atRest Deployment.annPresent 0)
  = (inr {| http_status := 400; body := Failed "meetingId is required." |},
     atRest Deployment.annPresent 0).
Proof.
  apply (missing_meetingId_is_rejected Deployment.uuidOf Deployment.noFaults
           Deployment.withDatabase (Some Deployment.withoutMeeting)
           (atRest Deployment.annPresent 0)).
  reflexivity.
Defined.

(** The [deletedIds] of a success response. *)
Lemma POST_deletedIds gen_random_uuid fails env payload w w' r records deletedIds :
  POST gen_random_uuid fails env payload w = (inr r, w') →
  body r = Saved records deletedIds →
  deletedIds = default [] (payload ≫= deletions).
Proof.
  intros Hpost Hbody. split_run Hpost. all: by simplify_eq/=.
Qed.

(** C10. In every successful response, [deletedIds] is the [deletions]
    array of the request as it came (the empty array when the request has
    none), whichever tier served the request and whatever rows the store
    held. *)
Theorem deletedIds_echo_the_request
    (gen_random_uuid : nat → string) (fails : FaultPoint → option Thrown)
    (env : Env) (payload : option AttendancePayload) (w w' : World)
    (r : Response) (records : list UpsertRow) (deletedIds : list string) :
  POST gen_random_uuid fails env payload w = (inr r, w') →
  body r = Saved records deletedIds →
  deletedIds = default [] (payload ≫= deletions).
Proof. apply POST_deletedIds. Qed.

Lemma deletedIds_echo_the_request_witness :
  ["A1"; "no-such-row"]
  = default [] (Some Deployment.annUnsetBobPresent ≫= deletions).
Proof.
  refine (deletedIds_echo_the_request Deployment.uuidOf Deployment.noFaults
            Deployment.withServiceKey (Some Deployment.annUnsetBobPresent)
            (atRest Deployment.annPresent 0)
            (POST Deployment.uuidOf Deployment.noFaults
               Deployment.withServiceKey
               (Some Deployment.annUnsetBobPresent)
               (atRest Deployment.annPresent 0)).2
            (saved [ {| row_id := "u"; row_member_id := Some "m-bob";
                        row_guest_id := None; row_pipeliner_id := None;
                        row_status := present |} ]
                   ["A1"; "no-such-row"])
            _ _ _ _).
  - vm_compute. reflexivity.
  - reflexivity.
Defined.

(** An identifier that matches no row is reported as deleted all the same,
    on the direct connection as through the API client. *)
Example deletedIds_include_missing_rows :
  (POST Deployment.uuidOf Deployment.noFaults Deployment.withDatabase
        (Some Deployment.annUnsetBobPresent) (atRest Deployment.annPresent 0)).1
  = inr (saved [ {| row_id := "u"; row_member_id := Some "m-bob";
                    row_guest_id := None; row_pipeliner_id := None;
                    row_status := present |} ]
               ["A1"; "no-such-row"])
  ∧ Deployment.annPresent !! "no-such-row" = None.
Proof. vm_compute. done. Qed.

Lemma length_zero_nil {A} (l : list A) :
  bool_decide (0 < length l) = false → l = [].
Proof.
  rewrite bool_decide_eq_false. destruct l; simpl; [done|lia].
Qed.

Lemma length_pos_cons {A} (l : list A) :
  bool_decide (0 < length l) = true → l ≠ [].
Proof. rewrite bool_decide_eq_true. destruct l; simpl; [lia|done]. Qed.

(** Finds the failing step among the hypotheses of a branch. *)
Ltac some_step_fails :=
  lazymatch goal with
  | H : ?fails AtConnect = Some _ |- _ => left; rewrite H; by eexists
  | H : ?fails AtBegin = Some _ |- _ => right; left; rewrite H; by eexists
  | H : ?fails AtDelete = Some _ |- _ =>
      do 2 right; left; split; [done|rewrite H; by eexists]
  | H : ?fails AtUpsert = Some _ |- _ =>
      do 3 right; left; split; [done|left; rewrite H; by eexists]
  | Hn : normalized _ _ _ = _, Hd : ¬ NoDup _ |- _ =>
      do 3 right; left; split; [done|right; by rewrite Hn]
  | H : ?fails AtCommit = Some _ |- _ => do 4 right; rewrite H; by eexists
  end.

(** Refutes a failing step in a branch where every step went through. *)
Ltac no_step_fails :=
  intros Hsf;
  repeat match goal with
         | H : _ ∨ _ |- _ => destruct H
         | H : _ ∧ _ |- _ => destruct H
         | H : is_Some _ |- _ => destruct H
         end;
  try congruence; try done;
  match goal with
  | Hn : normalized _ _ _ = _, Hd : ¬ NoDup _ |- _ => rewrite Hn in Hd; done
  end.

Ltac sizes :=
  repeat match goal with
         | H : bool_decide (0 < length _) = false |- _ =>
             apply length_zero_nil in H; try subst
         | H : bool_decide (0 < length _) = true |- _ =>
             apply length_pos_cons in H
         | H : bool_decide (NoDup _) = true |- _ =>
             apply bool_decide_eq_true in H
         | H : bool_decide (NoDup _) = false |- _ =>
             apply bool_decide_eq_false in H
         end.

(** Rewrites the batch function with what the branch knows of it. *)
Ltac batch_result :=
  unfold batchResult; simpl;
  repeat match goal with
         | Hn : normalized _ _ _ = _ |- _ => rewrite Hn
         | Ha : applyUpserts _ _ _ = _ |- _ => rewrite Ha
         end;
  simpl; rewrite ?bool_decide_eq_true_2 by (done || apply NoDup_nil);
  repeat match goal with
         | Ha : applyUpserts _ _ _ = _ |- _ => rewrite Ha
         end;
  reflexivity.

(** What a run of the transactional branch comes to: either no step fails,
    the response is the success response and the committed table is the
    batch applied to the previous one; or some step fails and the committed
    table is the previous one, the response being the 500 error response
    whenever the ROLLBACK (if one is issued) goes through. *)
Lemma saveWithPool_outcome gen_random_uuid fails upserts deletions w out w' :
  txn w = None →
  saveWithPool gen_random_uuid fails upserts deletions w = (out, w') →
  (¬ stepFails gen_random_uuid fails (drawn w) upserts deletions
   ∧ txn w' = None
   ∧ ∃ records,
       out = inr (saved records deletions)
       ∧ batchResult gen_random_uuid insertOrUpdateStatus (drawn w)
                     upserts deletions (committed w)
         = Some (committed w', records, drawn w'))
  ∨ (stepFails gen_random_uuid fails (drawn w) upserts deletions
     ∧ committed w' = committed w
     ∧ (∀ r, out = inr r → success r = false)
     ∧ (fails AtRollback = None ∨ is_Some (fails AtConnect) →
          txn w' = None
          ∧ ∃ error, out = inr {| http_status := 500; body := Failed error |})).
Proof.
  intros Htxn Hrun. destruct w as [t0 x n0 l0]. simpl in Htxn. subst x.
  split_run Hrun.
  all: sizes; unfold stepFails, saved; simpl.
  all: lazymatch goal with
       | |- context [inr {| http_status := 200; body := _ |} = inr _] =>
           left; split; [no_step_fails|]; split; [reflexivity|];
           eexists; split; [reflexivity|batch_result]
       | _ =>
           right; split; [some_step_fails|]; split; [reflexivity|];
           split; [by intros r' [= <-]|];
           intros Hor;
           first [ solve [split; [reflexivity|eauto]]
                 | destruct Hor as [Hrb|[e He]]; congruence ]
       end.
Qed.

Local Arguments handledBy : simpl never.

Lemma saveWithPool_trace gen_random_uuid fails upserts deletions w out w' :
  saveWithPool gen_random_uuid fails upserts deletions w = (out, w') →
  ∃ ops, log w' = log w ++ ops ∧ handledBy DirectConnection fails ops out.
Proof. intros Hrun. split_run Hrun. all: trace_leaf. Qed.

Lemma saveWithSupabaseService_trace gen_random_uuid fails env upserts deletions
    w out w' :
  tryCatch
    (result ← saveWithSupabaseService gen_random_uuid fails env upserts deletions;
     mret (saved result.1 result.2))
    (λ error, mret (failed unexpected error)) w = (out, w') →
  ∃ ops, log w' = log w ++ ops ∧ handledBy ServiceClient fails ops out.
Proof. intros Hrun. split_run Hrun. all: trace_leaf. Qed.

Lemma saveWithSupabaseAuthClient_trace gen_random_uuid fails env upserts
    deletions w out w' :
  tryCatch
    (result ← saveWithSupabaseAuthClient gen_random_uuid fails env upserts deletions;
     mret (saved result.1 result.2))
    (λ error, mret (failed notConfigured error)) w = (out, w') →
  ∃ ops, log w' = log w ++ ops ∧ handledBy SessionClient fails ops out.
Proof. intros Hrun. split_run Hrun. all: trace_leaf. Qed.

Lemma route_trace gen_random_uuid fails env payload w out w' :
  POST gen_random_uuid fails env payload w = (out, w') →
  ∃ ops, log w' = log w ++ ops
         ∧ handledBy (preferredTier env) fails ops out.
Proof.
  unfold POST, preferredTier.
  destruct (negb (truthy (payload ≫= meetingId))).
  { intros [= <- <-]. trace_leaf. }
  destruct (truthy (getConnectionString env)).
  { apply saveWithPool_trace. }
  destruct (hasSupabaseServiceConfiguration env).
  - apply saveWithSupabaseService_trace.
  - apply saveWithSupabaseAuthClient_trace.
Qed.

(** X24. The accesses of a request never leave the tier the configuration
    selects (direct connection, else service client, else session client)
    and none is made twice; a successful response means that no access
    failed; an unsuccessful one has status 500 (400 with no access at all);
    only a failing ROLLBACK of the direct connection makes the handler
    throw; and when an access fails and the ROLLBACK does not, the response
    is the 500 error response.  In no case is the request tried again
    through another tier. *)
Theorem one_tier_per_request
    (gen_random_uuid : nat → string) (fails : FaultPoint → option Thrown)
    (env : Env) (payload : option AttendancePayload) (w : World) :
  let out := (POST gen_random_uuid fails env payload w).1 in
  let w' := (POST gen_random_uuid fails env payload w).2 in
  ∃ ops : list StoreOp,
    log w' = log w ++ ops
    ∧ Forall (λ op, opTier op = preferredTier env) ops
    ∧ NoDup ops
    ∧ (∀ r, out = inr r → success r = true →
         http_status r = 200
         ∧ ∀ op p, op ∈ ops → faultPointOf op = Some p → fails p = None)
    ∧ (∀ r, out = inr r → success r = false →
         http_status r = 500 ∨ (http_status r = 400 ∧ ops = []))
    ∧ (∀ e, out = inl e →
         preferredTier env = DirectConnection ∧ fails AtRollback = Some e)
    ∧ ((∃ op p, op ∈ ops ∧ faultPointOf op = Some p ∧ is_Some (fails p)) →
       fails AtRollback = None →
       ∃ error, out = inr {| http_status := 500; body := Failed error |}).
Proof.
  intros out w'. subst out w'.
  destruct (route_trace gen_random_uuid fails env payload w _ _
              (surjective_pairing _)) as (ops & Hlog & Hops).
  exists ops. split; [by rewrite Hlog|]. exact Hops.
Qed.

(** X23. On the direct transactional connection, if any step fails (the
    connection, BEGIN, the deletion, the upsert or the commit), the
    committed table is left exactly as it was; and if moreover the ROLLBACK
    goes through (or there is no connection to roll back), no transaction
    is left open and the response is the 500 response [{ success: false,
    error }], which carries neither records nor deletedIds. *)
Theorem failed_transaction_leaves_store_unchanged
    (gen_random_uuid : nat → string) (fails : FaultPoint → option Thrown)
    (env : Env) (payload : option AttendancePayload) (w : World) :
  txn w = None →
  truthy (payload ≫= meetingId) = true →
  truthy (getConnectionString env) = true →
  stepFails gen_random_uuid fails (drawn w)
            (default [] (payload ≫= upserts))
            (default [] (payload ≫= deletions)) →
  let out := (POST gen_random_uuid fails env payload w).1 in
  let w' := (POST gen_random_uuid fails env payload w).2 in
  committed w' = committed w
  ∧ (fails AtRollback = None ∨ is_Some (fails AtConnect) →
       txn w' = None
       ∧ ∃ error, out = inr {| http_status := 500; body := Failed error |}).
Proof.
  intros Htxn Hmeeting Hconn Hfails out w'. subst out w'.
  unfold POST. rewrite Hmeeting, Hconn. simpl.
  destruct (saveWithPool_outcome gen_random_uuid fails
              (default [] (payload ≫= upserts))
              (default [] (payload ≫= deletions)) w _ _ Htxn
              (surjective_pairing _)) as [[Hno _]|(_ & Hsame & _ & Hresp)]; done.
Qed.

Lemma failed_transaction_leaves_store_unchanged_witness :
  let run := POST Deployment.uuidOf Deployment.faultAtUpsert
               Deployment.withDatabase (Some Deployment.annUnsetBobPresent)
               (atRest Deployment.annPresent 0) in
  committed run.2 = Deployment.annPresent
  ∧ (Deployment.faultAtUpsert AtRollback = None
     ∨ is_Some (Deployment.faultAtUpsert AtConnect) →
       txn run.2 = None
       ∧ ∃ error, run.1 = inr {| http_status := 500; body := Failed error |}).
Proof.
  refine (failed_transaction_leaves_store_unchanged Deployment.uuidOf
            Deployment.faultAtUpsert Deployment.withDatabase
            (Some Deployment.annUnsetBobPresent)
            (atRest Deployment.annPresent 0) _ _ _ _).
  - reflexivity.
  - reflexivity.
  - reflexivity.
  - do 3 right. left. split; [discriminate|]. left. by eexists.
Defined.

(** A forced error after the deletions and before the upserts: the
    accesses made, the response, and the table read afterwards, in which
    Ann's row is still there and Bob has none. *)
Example forced_error_before_upserts :
  let run := POST Deployment.uuidOf Deployment.faultAtUpsert
               Deployment.withDatabase (Some Deployment.annUnsetBobPresent)
               (atRest Deployment.annPresent 0) in
  log run.2
  = [ PgConnect; PgBegin; PgDelete ["A1"; "no-such-row"];
      PgUpsert (default [] (upserts Deployment.annUnsetBobPresent));
      PgRollback; PgRelease ]
  ∧ run.1 = inr {| http_status := 500;
                   body := Failed "forced error before upserts" |}
  ∧ committed run.2 = Deployment.annPresent
  ∧ txn run.2 = None.
Proof. vm_compute. done. Qed.

(** Through the API client the same forced error leaves the deletion
    applied: the weaker guarantee of the second and third tiers. *)
Example forced_error_through_the_api_client :
  let run := POST Deployment.uuidOf Deployment.faultAtUpsert
               Deployment.withServiceKey (Some Deployment.annUnsetBobPresent)
               (atRest Deployment.annPresent 0) in
  run.1 = inr {| http_status := 500;
                 body := Failed "forced error before upserts" |}
  ∧ committed run.2 = ∅.
Proof. vm_compute. done. Qed.

(** ** Replaying a batch *)

(** C4 as stated fails.  The batch that creates Gil's attendance (an upsert
    row with [id == null]) succeeds twice in a row on the direct
    connection, but the second response carries another canonical id than
    the first, and the table ends up with two rows for Gil. *)
Lemma replay_of_a_create_returns_another_id :
  let first := POST Deployment.uuidOf Deployment.noFaults
                 Deployment.withDatabase (Some Deployment.gilAttends)
                 (atRest ∅ 0) in
  let second := POST Deployment.uuidOf Deployment.noFaults
                  Deployment.withDatabase (Some Deployment.gilAttends)
                  first.2 in
  first.1 = inr (saved [ {| row_id := "u"; row_member_id := None;
                            row_guest_id := Some "g-gil";
                            row_pipeliner_id := None;
                            row_status := present |} ] [])
  ∧ second.1 = inr (saved [ {| row_id := "uu"; row_member_id := None;
                               row_guest_id := Some "g-gil";
                               row_pipeliner_id := None;
                               row_status := present |} ] [])
  ∧ first.1 ≠ second.1
  ∧ size (committed second.2) = 2.
Proof. vm_compute. repeat split. discriminate. Qed.

(** The same through the service client. *)
Example replay_of_a_create_through_the_api_client :
  let first := POST Deployment.uuidOf Deployment.noFaults
                 Deployment.withServiceKey (Some Deployment.gilAttends)
                 (atRest ∅ 0) in
  let second := POST Deployment.uuidOf Deployment.noFaults
                  Deployment.withServiceKey (Some Deployment.gilAttends)
                  first.2 in
  (∃ records, first.1 = inr (saved records []) ∧ row_id <$> records = ["u"])
  ∧ (∃ records, second.1 = inr (saved records []) ∧ row_id <$> records = ["uu"]).
Proof. vm_compute. split; eexists; split; reflexivity. Qed.

Lemma lookup_foldr_delete (t : gmap string AttendanceRecord) ids j :
  foldr delete t ids !! j = if decide (j ∈ ids) then None else t !! j.
Proof.
  induction ids as [|i ids IH]; cbn [foldr].
  - destruct (decide (j ∈ [])) as [H|_]; [by apply elem_of_nil in H|done].
  - destruct (decide (i = j)) as [->|Hne].
    + rewrite lookup_delete_eq. rewrite decide_True; [done|]. left.
    + rewrite lookup_delete_ne by done. rewrite IH.
      apply decide_ext. rewrite elem_of_cons. naive_solver.
Qed.

(** Rows that all carry an identifier are identified by it, without a
    draw. *)
Lemma normalized_with_ids gen_random_uuid n rows :
  (∀ u, u ∈ rows → truthy (in_id u) = true) →
  normalized gen_random_uuid n rows
  = ((λ u, (default "" (in_id u), u)) <$> rows, n).
Proof.
  induction rows as [|u rows IH]; intros Hids; [done|].
  simpl. unfold nullif_empty. rewrite (Hids u) by left.
  rewrite IH by (intros v Hv; apply Hids; by right).
  destruct (in_id u) eqn:E; [done|].
  specialize (Hids u ltac:(left)). by rewrite E in Hids.
Qed.

Lemma normalizeUpsertPayload_with_ids rows :
  (∀ u, u ∈ rows → truthy (in_id u) = true) →
  normalizeUpsertPayload rows = rows.
Proof.
  intros Hids. unfold normalizeUpsertPayload.
  induction rows as [|u rows IH]; [done|].
  rewrite fmap_cons, (Hids u) by left.
  f_equal. apply IH. intros v Hv. apply Hids. by right.
Qed.

(** Over rows with distinct identifiers the statement stores, for each
    row, what [resolve] makes of the row found before the statement, and
    returns these rows in order. *)
Lemma applyUpserts_distinct
    (resolve : option AttendanceRecord → UpsertInput → AttendanceRecord)
    (rows : list (string * UpsertInput))
    (t0 t : gmap string AttendanceRecord) (out : list UpsertRow) :
  NoDup rows.*1 →
  (∀ i, i ∈ rows.*1 → t !! i = t0 !! i) →
  fold_left
    (λ '(t, out) '(i, u),
       let r := resolve (t !! i) u in (<[i := r]> t, out ++ [returning i r]))
    rows (t, out)
  = (list_to_map (storedRows resolve t0 rows) ∪ t,
     out ++ ((λ ir, returning ir.1 ir.2) <$> storedRows resolve t0 rows)).
Proof.
  revert t out. induction rows as [|[i u] rows IH]; intros t out Hnd Hagree.
  - simpl. by rewrite (left_id_L ∅ (∪)), app_nil_r.
  - rewrite fmap_cons in Hnd. apply NoDup_cons in Hnd as [Hi Hnd].
    cbn [fold_left]. rewrite IH; [|done|].
    2:{ intros j Hj. rewrite lookup_insert_ne by (intros ->; done).
        apply Hagree. rewrite fmap_cons. by right. }
    unfold storedRows. rewrite !fmap_cons. cbn [fst snd list_to_map].
    rewrite (Hagree i) by (rewrite fmap_cons; left).
    rewrite <- app_assoc. f_equal.
    rewrite <- insert_union_r; [by rewrite insert_union_l|].
    apply not_elem_of_list_to_map_1.
    rewrite <- list_fmap_compose. exact Hi.
Qed.

Lemma storedRows_keys resolve (t : gmap string AttendanceRecord) rows :
  (storedRows resolve t rows).*1 = rows.*1.
Proof. unfold storedRows. by rewrite <- list_fmap_compose. Qed.

(** The batch function on rows that all carry an identifier. *)
Lemma batchResult_with_ids gen_random_uuid resolve n ups dels
    (t : gmap string AttendanceRecord) :
  (∀ u, u ∈ ups → truthy (in_id u) = true) →
  batchResult gen_random_uuid resolve n ups dels t
  = let rows := (λ u, (default "" (in_id u), u)) <$> ups in
    let stored := storedRows resolve (foldr delete t dels) rows in
    if bool_decide (NoDup rows.*1)
    then Some (list_to_map stored ∪ foldr delete t dels,
               (λ ir, returning ir.1 ir.2) <$> stored, n)
    else None.
Proof.
  intros Hids. unfold batchResult.
  rewrite normalized_with_ids by done. simpl.
  case_bool_decide as Hnd; [|done].
  unfold applyUpserts.
  by rewrite (applyUpserts_distinct resolve _ (foldr delete t dels)).
Qed.

(** Replaying a batch whose rows all carry an identifier, on the table the
    first run produced, produces the same table and returns the same
    rows. *)
Lemma batchResult_replay gen_random_uuid resolve n m ups dels
    (t t1 : gmap string AttendanceRecord) recs n1 :
  (∀ e u, resolve (Some (resolve e u)) u = resolve e u) →
  (∀ u, u ∈ ups → truthy (in_id u) = true) →
  batchResult gen_random_uuid resolve n ups dels t = Some (t1, recs, n1) →
  batchResult gen_random_uuid resolve m ups dels t1 = Some (t1, recs, m).
Proof.
  intros Hres Hids. rewrite !batchResult_with_ids by done. simpl.
  set (rows := (λ u, (default "" (in_id u), u)) <$> ups).
  case_bool_decide as Hnd; [|done]. intros [= <- <- <-].
  set (d := foldr delete t dels).
  assert (Hstored :
            storedRows resolve (foldr delete (list_to_map (storedRows resolve d rows) ∪ d) dels) rows
            = storedRows resolve d rows).
  { unfold storedRows at 1 3. apply list_fmap_ext. intros k [i u] Hk. simpl.
    f_equal.
    rewrite lookup_foldr_delete. subst d. rewrite lookup_foldr_delete.
    destruct (decide (i ∈ dels)) as [Hin|Hin]; [done|].
    assert (Hrow : (list_to_map (storedRows resolve (foldr delete t dels) rows)
                      : gmap string AttendanceRecord) !! i
                   = Some (resolve (foldr delete t dels !! i) u)).
    { apply elem_of_list_to_map_1; [by rewrite storedRows_keys|].
      unfold storedRows. apply list_elem_of_fmap.
      exists (i, u). split; [done|]. by eapply list_elem_of_lookup_2. }
    rewrite (lookup_union_Some_l _ _ _ _ Hrow).
    rewrite lookup_foldr_delete, decide_False by done.
    by rewrite Hres. }
  rewrite Hstored. do 3 f_equal.
  apply map_eq. intros j. rewrite !lookup_union, lookup_foldr_delete.
  destruct (list_to_map (storedRows resolve d rows) !! j) as [r|] eqn:Hj.
  - rewrite lookup_union, Hj. subst d. rewrite lookup_foldr_delete.
    by destruct (decide (j ∈ dels)), (t !! j).
  - rewrite lookup_union, Hj. subst d. rewrite lookup_foldr_delete.
    by destruct (decide (j ∈ dels)), (t !! j).
Qed.

Lemma insertOrUpdateStatus_idempotent e u :
  insertOrUpdateStatus (Some (insertOrUpdateStatus e u)) u
  = insertOrUpdateStatus e u.
Proof. by destruct e. Qed.

Lemma insertOrMerge_idempotent e u :
  insertOrMerge (Some (insertOrMerge e u)) u = insertOrMerge e u.
Proof. done. Qed.

(** A successful run through the API client applies the batch function to
    the committed table. *)
Lemma saveAttendanceWithSupabaseClient_success gen_random_uuid fails tier
    ups dels w records deleted w' :
  txn w = None →
  saveAttendanceWithSupabaseClient gen_random_uuid fails tier ups dels w
  = (inr (records, deleted), w') →
  batchResult gen_random_uuid insertOrMerge (drawn w)
              (normalizeUpsertPayload ups) dels (committed w)
  = Some (committed w', records, drawn w')
  ∧ txn w' = None ∧ deleted = dels.
Proof.
  intros Htxn Hrun. destruct w as [t0 x n0 l0]. simpl in Htxn. subst x.
  split_run Hrun.
  all: sizes; simpl.
  all: split; [|done].
  all: repeat match goal with H : normalizeUpsertPayload _ = [] |- _ => rewrite H end.
  all: batch_result.
Qed.

(** A successful response means that the batch function of the configured
    tier went through on the committed table, and that its result is the
    new committed table and the returned records. *)
Lemma POST_success gen_random_uuid fails env payload w r w' records deletedIds :
  txn w = None →
  POST gen_random_uuid fails env payload w = (inr r, w') →
  body r = Saved records deletedIds →
  appliedBatch gen_random_uuid env payload (drawn w) (committed w)
  = Some (committed w', records, drawn w')
  ∧ txn w' = None.
Proof.
  intros Htxn Hpost Hbody. unfold POST, appliedBatch in *.
  destruct (negb (truthy (payload ≫= meetingId))).
  { unfold mret, M_ret in Hpost. by simplify_eq/=. }
  destruct (truthy (getConnectionString env)).
  { destruct (saveWithPool_outcome _ _ _ _ _ _ _ Htxn Hpost)
      as [(_ & Ht & recs & Hout & Hbatch)|(_ & _ & Hfail & _)].
    - unfold saved in Hout. by simplify_eq/=.
    - specialize (Hfail r eq_refl). unfold success in Hfail.
      by rewrite Hbody in Hfail. }
  unfold saveWithSupabaseService, saveWithSupabaseAuthClient,
    tryCatch, mbind, M_bind, mret, M_ret, throw, saved, failed in Hpost.
  repeat case_match; simplify_eq/=.
  all: match goal with
       | H : saveAttendanceWithSupabaseClient _ _ _ _ _ _ = (inr ?p, _) |- _ =>
           destruct p as [recs dels];
           destruct (saveAttendanceWithSupabaseClient_success
                       _ _ _ _ _ _ _ _ _ Htxn H) as (? & ? & ?)
       end; done.
Qed.

(** C4, as the code has it.  For a request whose upsert rows all carry a
    (non-empty) identifier, replaying the request after it has succeeded
    gives, when the replay succeeds, the same response body (the same
    records with the same canonical ids and statuses, the same deletedIds)
    and leaves the table as the first run left it.  A row without
    identifier is given a newly generated one on every run. *)
Theorem replay_with_identifiers_is_idempotent
    (gen_random_uuid : nat → string) (fails1 fails2 : FaultPoint → option Thrown)
    (env : Env) (payload : option AttendancePayload) (w0 w1 w2 : World)
    (r1 r2 : Response) :
  txn w0 = None →
  (∀ u, u ∈ default [] (payload ≫= upserts) → truthy (in_id u) = true) →
  POST gen_random_uuid fails1 env payload w0 = (inr r1, w1) →
  success r1 = true →
  POST gen_random_uuid fails2 env payload w1 = (inr r2, w2) →
  success r2 = true →
  body r2 = body r1 ∧ committed w2 = committed w1.
Proof.
  intros Htxn Hids Hfirst Hs1 Hsecond Hs2.
  destruct r1 as [st1 [recs1 dels1|e1]]; [|done].
  destruct r2 as [st2 [recs2 dels2|e2]]; [|done]. simpl.
  pose proof (POST_deletedIds _ _ _ _ _ _ _ _ _ Hfirst eq_refl) as ->.
  pose proof (POST_deletedIds _ _ _ _ _ _ _ _ _ Hsecond eq_refl) as ->.
  destruct (POST_success _ _ _ _ _ _ _ _ _ Htxn Hfirst eq_refl) as [Hb1 Ht1].
  destruct (POST_success _ _ _ _ _ _ _ _ _ Ht1 Hsecond eq_refl) as [Hb2 _].
  unfold appliedBatch in *.
  destruct (truthy (getConnectionString env)).
  - rewrite (batchResult_replay _ _ _ _ _ _ _ _ _ _
               insertOrUpdateStatus_idempotent Hids Hb1) in Hb2.
    by simplify_eq.
  - assert (Hids' : ∀ u, u ∈ normalizeUpsertPayload (default [] (payload ≫= upserts))
                      → truthy (in_id u) = true)
      by (by rewrite normalizeUpsertPayload_with_ids).
    rewrite (batchResult_replay _ _ _ _ _ _ _ _ _ _
               insertOrMerge_idempotent Hids' Hb1) in Hb2.
    by simplify_eq.
Qed.

Lemma replay_with_identifiers_is_idempotent_witness :
  let first := POST Deployment.uuidOf Deployment.noFaults
                 Deployment.withDatabase (Some Deployment.annApology)
                 (atRest Deployment.annPresent 0) in
  let second := POST Deployment.uuidOf Deployment.noFaults
                  Deployment.withDatabase (Some Deployment.annApology)
                  first.2 in
  let r := saved [ {| row_id := "A1"; row_member_id := Some "m-ann";
                      row_guest_id := None; row_pipeliner_id := None;
                      row_status := apology |} ] [] in
  body r = body r ∧ committed second.2 = committed first.2.
Proof.
  refine (replay_with_identifiers_is_idempotent Deployment.uuidOf
            Deployment.noFaults Deployment.noFaults Deployment.withDatabase
            (Some Deployment.annApology) (atRest Deployment.annPresent 0)
            _ _ _ _ _ _ _ _ _ _).
  - reflexivity.
  - intros u Hu. vm_compute in Hu.
    apply list_elem_of_singleton in Hu. subst u. reflexivity.
  - vm_compute. reflexivity.
  - reflexivity.
  - vm_compute. reflexivity.
  - reflexivity.
Defined.

Lemma one_tier_per_request_witness :
  let run := POST Deployment.uuidOf Deployment.faultAtUpsert
               Deployment.withServiceKey (Some Deployment.annUnsetBobPresent)
               (atRest Deployment.annPresent 0) in
  ∃ ops : list StoreOp,
    log run.2 = [] ++ ops
    ∧ Forall (λ op, opTier op = ServiceClient) ops
    ∧ NoDup ops
    ∧ (∀ r, run.1 = inr r → success r = true →
         http_status r = 200
         ∧ ∀ op p, op ∈ ops → faultPointOf op = Some p →
                   Deployment.faultAtUpsert p = None)
    ∧ (∀ r, run.1 = inr r → success r = false →
         http_status r = 500 ∨ (http_status r = 400 ∧ ops = []))
    ∧ (∀ e, run.1 = inl e →
         ServiceClient = DirectConnection
         ∧ Deployment.faultAtUpsert AtRollback = Some e)
    ∧ ((∃ op p, op ∈ ops ∧ faultPointOf op = Some p
                ∧ is_Some (Deployment.faultAtUpsert p)) →
       Deployment.faultAtUpsert AtRollback = None →
       ∃ error, run.1 = inr {| http_status := 500; body := Failed error |}).
Proof.
  exact (one_tier_per_request Deployment.uuidOf Deployment.faultAtUpsert
           Deployment.withServiceKey (Some Deployment.annUnsetBobPresent)
           (atRest Deployment.annPresent 0)).
Defined.

(** The accesses of a request served by each tier. *)
Example accesses_by_tier :
  log (POST Deployment.uuidOf Deployment.noFaults Deployment.withDatabase
            (Some Deployment.annUnsetBobPresent)
            (atRest Deployment.annPresent 0)).2
  = [ PgConnect; PgBegin; PgDelete ["A1"; "no-such-row"];
      PgUpsert (default [] (upserts Deployment.annUnsetBobPresent));
      PgCommit; PgRelease ]
  ∧ log (POST Deployment.uuidOf Deployment.noFaults Deployment.withServiceKey
              (Some Deployment.annUnsetBobPresent)
              (atRest Deployment.annPresent 0)).2
    = [ ApiDelete ServiceClient ["A1"; "no-such-row"];
        ApiUpsert ServiceClient
          (default [] (upserts Deployment.annUnsetBobPresent)) ]
  ∧ (POST Deployment.uuidOf Deployment.noFaults Deployment.noConfiguration
          (Some Deployment.annUnsetBobPresent)
          (atRest Deployment.annPresent 0))
    = (inr {| http_status := 500;
              body := Failed "Supabase configuration is missing. Set NEXT_PUBLIC_SUPABASE_URL and NEXT_PUBLIC_SUPABASE_ANON_KEY." |},
       atRest Deployment.annPresent 0).
Proof. vm_compute. done. Qed.

(** ** When the ROLLBACK fails too *)

(** C2.  The claim fails on the code where the ROLLBACK of the error
    handler fails as well.  The upsert query of the batch fails on the
    direct connection (after the deletion went through inside the
    transaction) and the ROLLBACK awaited in the [catch] block fails too:
    the error of the ROLLBACK escapes the handler, so there is no
    [{ success: false, error }] response at all; the connection is released
    with its transaction still open.  The committed table is as it was. *)
Lemma failed_rollback_escapes_the_handler :
  let run := POST Deployment.uuidOf Deployment.connectionLostAtUpsert
               Deployment.withDatabase (Some Deployment.annUnsetBobPresent)
               (atRest Deployment.annPresent 0) in
  stepFails Deployment.uuidOf Deployment.connectionLostAtUpsert 0
    (default [] (upserts Deployment.annUnsetBobPresent))
    (default [] (deletions Deployment.annUnsetBobPresent))
  ∧ run.1 = inl (ErrorInstance "Connection terminated")
  ∧ (∀ r, run.1 ≠ inr r)
  ∧ log run.2
    = [ PgConnect; PgBegin; PgDelete ["A1"; "no-such-row"];
        PgUpsert (default [] (upserts Deployment.annUnsetBobPresent));
        PgRollback; PgRelease ]
  ∧ txn run.2 = Some ∅
  ∧ committed run.2 = Deployment.annPresent.
Proof.
  split.
  { do 3 right. left. split; [discriminate|]. left. by eexists. }
  split; [vm_compute; reflexivity|].
  split; [intros r; vm_compute; discriminate|].
  split; [vm_compute; reflexivity|].
  split; vm_compute; reflexivity.
Qed.


End GatewayFacts.

(** * Further properties of the page *)

Module PageExtras.
Import Page Subjects Display PageFacts.

Lemma nullish_nullish {A} (a b : option A) :
  nullish (nullish a b) b = nullish a b.
Proof. by destruct a, b. Qed.

Lemma editedMember_id prev initial memberId nextStatus :
  attendanceId (editedMember prev initial memberId nextStatus)
  = nullish (prev !! memberId ≫= attendanceId)
            (initial !! memberId ≫= attendanceId).
Proof.
  unfold editedMember. simpl.
  destruct (prev !! memberId) as [e|]; simpl; [done|].
  destruct (initial !! memberId) as [e|]; simpl; [|done].
  by destruct (attendanceId e).
Qed.

Lemma toggledGuest_id prev initial guestId attended' :
  guestAttendanceId (toggledGuest prev initial guestId attended')
  = nullish (prev !! guestId ≫= guestAttendanceId)
            (initial !! guestId ≫= guestAttendanceId).
Proof.
  unfold toggledGuest. simpl.
  destruct (prev !! guestId) as [e|]; simpl; [done|].
  destruct (initial !! guestId) as [e|]; simpl; [|done].
  by destruct (guestAttendanceId e).
Qed.

(** What an edit of a member changes for that member. *)
Lemma edit_status l memberId nextStatus :
  let l' := handleMemberStatusChange memberId nextStatus l in
  currentOf Member l' memberId = nextStatus
  ∧ currentIdOf Member l' memberId
    = nullish (currentIdOf Member l memberId) (persistedIdOf Member l memberId)
  ∧ baselineOf Member l' memberId = baselineOf Member l memberId
  ∧ persistedIdOf Member l' memberId = persistedIdOf Member l memberId.
Proof.
  simpl. rewrite lookup_insert_eq. simpl. repeat split.
  apply (editedMember_id _ _ memberId nextStatus).
Qed.

(** X1. [handleMemberStatusChange] sets the status of the one member it is
    called for and keeps the row identifier the member had (the one of its
    entry, or else the persisted one); the member is dirty afterwards
    exactly when the new status differs from its baseline; every other
    subject, and every baseline, is as before. *)
Theorem edit_sets_one_member
    (l : Ledger) (memberId : string) (nextStatus : option Status) :
  let l' := handleMemberStatusChange memberId nextStatus l in
  currentOf Member l' memberId = nextStatus
  ∧ currentIdOf Member l' memberId
    = nullish (currentIdOf Member l memberId) (persistedIdOf Member l memberId)
  ∧ isDirty Member l' memberId
    = bool_decide (nextStatus ≠ baselineOf Member l memberId)
  ∧ (∀ k id, (k, id) ≠ (Member, memberId) →
       currentOf k l' id = currentOf k l id
       ∧ currentIdOf k l' id = currentIdOf k l id
       ∧ isDirty k l' id = isDirty k l id)
  ∧ (∀ k id, baselineOf k l' id = baselineOf k l id
             ∧ persistedIdOf k l' id = persistedIdOf k l id).
Proof.
  intros l'. subst l'.
  assert (Hcur : currentOf Member (handleMemberStatusChange memberId nextStatus l)
                   memberId = nextStatus).
  { simpl. by rewrite lookup_insert_eq. }
  assert (Hbase : ∀ k id,
            baselineOf k (handleMemberStatusChange memberId nextStatus l) id
            = baselineOf k l id) by (by intros []).
  split; [done|]. split; [|split; [|split]].
  - simpl. rewrite lookup_insert_eq. simpl.
    apply (editedMember_id _ _ memberId nextStatus).
  - rewrite isDirty_spec, Hcur, Hbase. done.
  - intros k id Hne.
    assert (Hc : currentOf k (handleMemberStatusChange memberId nextStatus l) id
                 = currentOf k l id).
    { destruct k; [|done..]. simpl.
      rewrite lookup_insert_ne; [done|congruence]. }
    split; [done|]. split.
    + destruct k; [|done..]. simpl.
      rewrite lookup_insert_ne; [done|congruence].
    + by rewrite !isDirty_spec, Hc, Hbase.
  - intros k id. split; [done|]. by destruct k.
Qed.

(** X2. [handleGuestToggle] and [handlePipelinerToggle] set the attended
    flag of the one guest or pipeliner they are called for and keep its row
    identifier; the subject is dirty afterwards exactly when the flag
    differs from its baseline; every other subject, and every baseline, is
    as before. *)
Theorem toggle_sets_one_subject
    (k : Kind) (l : Ledger) (subjectId : string) (attended' : bool) :
  k ≠ Member →
  let l' := toggled k subjectId attended' l in
  currentOf k l' subjectId = (if attended' then Some present else None)
  ∧ currentIdOf k l' subjectId
    = nullish (currentIdOf k l subjectId) (persistedIdOf k l subjectId)
  ∧ isDirty k l' subjectId
    = bool_decide ((if attended' then Some present else None)
                   ≠ baselineOf k l subjectId)
  ∧ (∀ k' id, (k', id) ≠ (k, subjectId) →
       currentOf k' l' id = currentOf k' l id
       ∧ currentIdOf k' l' id = currentIdOf k' l id
       ∧ isDirty k' l' id = isDirty k' l id)
  ∧ (∀ k' id, baselineOf k' l' id = baselineOf k' l id
              ∧ persistedIdOf k' l' id = persistedIdOf k' l id).
Proof.
  intros Hk l'. subst l'.
  assert (Hcur : currentOf k (toggled k subjectId attended' l) subjectId
                 = (if attended' then Some present else None)).
  { destruct k; [done| |]; simpl; unfold attendedStatus, attendedOf;
      by rewrite lookup_insert_eq. }
  assert (Hbase : ∀ k' id,
            baselineOf k' (toggled k subjectId attended' l) id
            = baselineOf k' l id) by (by destruct k; intros []).
  split; [done|]. split; [|split; [|split]].
  - destruct k; [done| |]; simpl; rewrite lookup_insert_eq; simpl;
      apply (toggledGuest_id _ _ subjectId attended').
  - by rewrite isDirty_spec, Hcur, Hbase.
  - intros k' id Hne.
    assert (Hc : currentOf k' (toggled k subjectId attended' l) id
                 = currentOf k' l id).
    { destruct k; [done| |]; destruct k'; try done; simpl;
        unfold attendedStatus, attendedOf;
        rewrite lookup_insert_ne; congruence. }
    split; [done|]. split.
    + destruct k; [done| |]; destruct k'; try done; simpl;
        rewrite lookup_insert_ne; congruence.
    + by rewrite !isDirty_spec, Hc, Hbase.
  - intros k' id. split; [done|]. by destruct k, k'.
Qed.

Lemma toggle_sets_one_subject_witness :
  let l := ledger (page Scenario.bobEdited) in
  let l' := toggled Guest "g-gil" true l in
  currentOf Guest l' "g-gil" = Some present
  ∧ currentIdOf Guest l' "g-gil"
    = nullish (currentIdOf Guest l "g-gil") (persistedIdOf Guest l "g-gil")
  ∧ isDirty Guest l' "g-gil"
    = bool_decide (Some present ≠ baselineOf Guest l "g-gil")
  ∧ (∀ k' id, (k', id) ≠ (Guest, "g-gil") →
       currentOf k' l' id = currentOf k' l id
       ∧ currentIdOf k' l' id = currentIdOf k' l id
       ∧ isDirty k' l' id = isDirty k' l id)
  ∧ (∀ k' id, baselineOf k' l' id = baselineOf k' l id
              ∧ persistedIdOf k' l' id = persistedIdOf k' l id).
Proof.
  apply (toggle_sets_one_subject Guest (ledger (page Scenario.bobEdited))
           "g-gil" true).
  discriminate.
Defined.

(** The row identifier a member has: the one of its entry, or else the
    persisted one. *)
Lemma fold_markAllPresent (initial : gmap string MemberAttendanceEntry)
    (ps : list Person) (prev acc : gmap string MemberAttendanceEntry) id :
  (∀ j, nullish (acc !! j ≫= attendanceId) (initial !! j ≫= attendanceId)
        = nullish (prev !! j ≫= attendanceId) (initial !! j ≫= attendanceId)) →
  fold_left
    (λ next member,
       <[person_id member :=
           editedMember next initial (person_id member) (Some present)]> next)
    ps acc !! id
  = if decide (id ∈ person_id <$> ps)
    then Some {| attendanceId :=
                   nullish (prev !! id ≫= attendanceId)
                           (initial !! id ≫= attendanceId);
                 status := Some present |}
    else acc !! id.
Proof.
  revert acc. induction ps as [|p ps IH]; intros acc Hacc.
  - cbn [fold_left]. rewrite fmap_nil.
    rewrite decide_False; [done|]. apply not_elem_of_nil.
  - cbn [fold_left]. rewrite fmap_cons.
    assert (Hentry : editedMember acc initial (person_id p) (Some present)
                     = {| attendanceId :=
                            nullish (prev !! person_id p ≫= attendanceId)
                                    (initial !! person_id p ≫= attendanceId);
                          status := Some present |}).
    { pose proof (editedMember_id acc initial (person_id p) (Some present)) as E.
      rewrite Hacc in E.
      destruct (editedMember acc initial (person_id p) (Some present))
        as [a st] eqn:Ee. simpl in E. subst a. f_equal.
      unfold editedMember in Ee. by injection Ee. }
    rewrite IH.
    + destruct (decide (id ∈ person_id <$> ps)) as [Hin|Hin].
      * rewrite decide_True; [done|]. by right.
      * destruct (decide (id = person_id p)) as [->|Hne].
        -- rewrite decide_True by left. by rewrite lookup_insert_eq, Hentry.
        -- rewrite decide_False by (rewrite elem_of_cons; tauto).
           by rewrite lookup_insert_ne.
    + intros j. destruct (decide (j = person_id p)) as [->|Hne].
      * rewrite lookup_insert_eq, Hentry. simpl. apply nullish_nullish.
      * rewrite lookup_insert_ne by done. apply Hacc.
Qed.

Lemma fold_count_all {A} (P : A → Prop) `{∀ x, Decision (P x)}
    (xs : list A) (n : nat) :
  (∀ x, x ∈ xs → P x) →
  fold_left (λ count x, if decide (P x) then count + 1 else count) xs n
  = n + length xs.
Proof.
  revert n. induction xs as [|x xs IH]; intros n Hall; simpl; [lia|].
  rewrite decide_True by (apply Hall; left).
  rewrite IH by (intros y Hy; apply Hall; by right). lia.
Qed.

(** X3. "Mark All Present" sets every listed member to present, keeping
    the row identifier each one had, and leaves members that are not
    listed, guests, pipeliners and every baseline as they were; afterwards
    the "members present" counter equals the number of listed members. *)
Theorem mark_all_present_marks_every_member (s : PageState) :
  let l := ledger s in
  let l' := handleMarkAllPresent (members s) l in
  (∀ p, p ∈ members s →
     currentOf Member l' (person_id p) = Some present
     ∧ currentIdOf Member l' (person_id p)
       = nullish (currentIdOf Member l (person_id p))
                 (persistedIdOf Member l (person_id p)))
  ∧ (∀ id, id ∉ person_id <$> members s →
       memberAttendance l' !! id = memberAttendance l !! id)
  ∧ guestAttendance l' = guestAttendance l
  ∧ pipelinerAttendance l' = pipelinerAttendance l
  ∧ (∀ k id, baselineOf k l' id = baselineOf k l id)
  ∧ membersPresent (withLedger l' s) = totalMembers s.
Proof.
  intros l l'.
  assert (Hlook : ∀ id,
            memberAttendance l' !! id
            = if decide (id ∈ person_id <$> members s)
              then Some {| attendanceId :=
                             nullish (memberAttendance l !! id ≫= attendanceId)
                                     (memberInitialRef l !! id ≫= attendanceId);
                           status := Some present |}
              else memberAttendance l !! id).
  { intros id. subst l'. unfold handleMarkAllPresent. simpl.
    by apply fold_markAllPresent. }
  assert (Hlisted : ∀ p, p ∈ members s →
            memberAttendance l' !! person_id p
            = Some {| attendanceId :=
                        nullish (memberAttendance l !! person_id p ≫= attendanceId)
                                (memberInitialRef l !! person_id p ≫= attendanceId);
                      status := Some present |}).
  { intros p Hp. rewrite Hlook, decide_True; [done|].
    apply list_elem_of_fmap. eauto. }
  split; [|split; [|split; [|split; [|split]]]]; try done.
  - intros p Hp. unfold currentOf, currentIdOf, persistedIdOf.
    by rewrite (Hlisted p Hp).
  - intros id Hid. by rewrite Hlook, decide_False.
  - unfold membersPresent, totalMembers.
    change (ledger (withLedger l' s)) with l'.
    change (members (withLedger l' s)) with (members s).
    rewrite (fold_count_all
               (λ member, memberAttendance l' !! person_id member ≫= status
                          = Some present)); [done|].
    intros p Hp. by rewrite (Hlisted p Hp).
Qed.

(** X4. Two clicks on the same status button bring a member that was
    unset, or that had the status of the button, back to where it was: its
    status, its row identifier and its dirtiness are as before the
    clicks. *)
Theorem double_click_restores_status
    (l : Ledger) (memberId : string) (value : Status) :
  currentOf Member l memberId = None
  ∨ currentOf Member l memberId = Some value →
  let l' := clickMember memberId value (clickMember memberId value l) in
  currentOf Member l' memberId = currentOf Member l memberId
  ∧ currentIdOf Member l' memberId
    = nullish (currentIdOf Member l memberId) (persistedIdOf Member l memberId)
  ∧ isDirty Member l' memberId = isDirty Member l memberId.
Proof.
  intros Hst l'. subst l'.
  assert (Hclick : ∀ l0, clickMember memberId value l0
            = handleMemberStatusChange memberId
                (clickedStatus (currentOf Member l0 memberId) value) l0)
    by done.
  rewrite (Hclick l).
  set (l1 := handleMemberStatusChange memberId
               (clickedStatus (currentOf Member l memberId) value) l).
  rewrite (Hclick l1).
  destruct (edit_status l memberId
              (clickedStatus (currentOf Member l memberId) value))
    as (Hc1 & Hi1 & Hb1 & Hp1). fold l1 in Hc1, Hi1, Hb1, Hp1.
  destruct (edit_status l1 memberId
              (clickedStatus (currentOf Member l1 memberId) value))
    as (Hc2 & Hi2 & Hb2 & Hp2).
  set (l2 := handleMemberStatusChange memberId
               (clickedStatus (currentOf Member l1 memberId) value) l1) in *.
  assert (Hcur : currentOf Member l2 memberId = currentOf Member l memberId).
  { rewrite Hc2, Hc1. unfold clickedStatus.
    destruct Hst as [-> | ->]; repeat case_decide; congruence. }
  split; [done|]. split.
  - rewrite Hi2, Hi1, Hp1. apply nullish_nullish.
  - by rewrite !isDirty_spec, Hcur, Hb2, Hb1.
Qed.

Lemma double_click_restores_status_witness :
  let l := ledger (page Scenario.bobEdited) in
  let l' := clickMember "m-bob" present (clickMember "m-bob" present l) in
  currentOf Member l' "m-bob" = currentOf Member l "m-bob"
  ∧ currentIdOf Member l' "m-bob"
    = nullish (currentIdOf Member l "m-bob") (persistedIdOf Member l "m-bob")
  ∧ isDirty Member l' "m-bob" = isDirty Member l "m-bob".
Proof.
  apply (double_click_restores_status (ledger (page Scenario.bobEdited))
           "m-bob" present).
  right. vm_compute. reflexivity.
Defined.

(** ** The batch, read backwards *)

(** What an iteration pushes for a subject whose current value is unset:
    no upsert, and at most the deletion of its persisted row. *)
Lemma delta_unset k s p :
  currentOf k (ledger s) (person_id p) = None →
  (deltaOf k s p).1.1 = []
  ∧ ∀ a, a ∈ (deltaOf k s p).1.2 →
         baselineOf k (ledger s) (person_id p) ≠ None
         ∧ persistedIdOf k (ledger s) (person_id p) = Some a ∧ a ≠ "".
Proof.
  destruct k; simpl; unfold memberDelta, attendedDelta, attendedStatus; intros Hc.
  - rewrite !(proj1 (lookup_default_member _ _)),
            !(proj2 (lookup_default_member _ _)), Hc.
    case_decide as Hb; [by split; [|intros a Ha; apply elem_of_nil in Ha]|].
    destruct (memberInitialRef (ledger s) !! person_id p ≫= attendanceId)
      as [a'|]; [case_bool_decide|]; simpl;
      (split; [done|]); intros a Ha;
      try (by apply elem_of_nil in Ha).
    apply list_elem_of_singleton in Ha as ->. by repeat split.
  - rewrite !(proj1 (lookup_default_guest _ _)),
            !(proj2 (lookup_default_guest _ _)).
    destruct (attendedOf (guestAttendance _) _); [done|].
    destruct (attendedOf (guestInitialRef _) _);
      [rewrite decide_False by done|rewrite decide_True by done]; simpl;
      [|by split; [|intros a Ha; apply elem_of_nil in Ha]].
    destruct (guestInitialRef (ledger s) !! person_id p ≫= guestAttendanceId)
      as [a'|]; [case_bool_decide|]; simpl;
      (split; [done|]); intros a Ha;
      try (by apply elem_of_nil in Ha).
    apply list_elem_of_singleton in Ha as ->. by repeat split.
  - rewrite !(proj1 (lookup_default_guest _ _)),
            !(proj2 (lookup_default_guest _ _)).
    destruct (attendedOf (pipelinerAttendance _) _); [done|].
    destruct (attendedOf (pipelinerInitialRef _) _);
      [rewrite decide_False by done|rewrite decide_True by done]; simpl;
      [|by split; [|intros a Ha; apply elem_of_nil in Ha]].
    destruct (pipelinerInitialRef (ledger s) !! person_id p ≫= guestAttendanceId)
      as [a'|]; [case_bool_decide|]; simpl;
      (split; [done|]); intros a Ha;
      try (by apply elem_of_nil in Ha).
    apply list_elem_of_singleton in Ha as ->. by repeat split.
Qed.

(** An upsert pushed by an iteration is the upsert of a dirty subject with
    a current value. *)
Lemma delta_upsert_inv k s p u :
  u ∈ (deltaOf k s p).1.1 →
  ∃ st, currentOf k (ledger s) (person_id p) = Some st
        ∧ baselineOf k (ledger s) (person_id p) ≠ Some st
        ∧ u = upsertFor k (selectedMeetingId s) (person_id p)
                (nullish (currentIdOf k (ledger s) (person_id p))
                         (persistedIdOf k (ledger s) (person_id p))) st.
Proof.
  intros Hu.
  destruct (decide (currentOf k (ledger s) (person_id p)
                    = baselineOf k (ledger s) (person_id p))) as [Heq|Hne].
  { rewrite (delta_clean k s p Heq) in Hu. by apply elem_of_nil in Hu. }
  destruct (currentOf k (ledger s) (person_id p)) as [st|] eqn:Hc.
  - assert (Hb : baselineOf k (ledger s) (person_id p) ≠ Some st) by congruence.
    rewrite (delta_upsert k s p st Hc Hb) in Hu.
    apply list_elem_of_singleton in Hu. eauto.
  - rewrite (proj1 (delta_unset k s p Hc)) in Hu. by apply elem_of_nil in Hu.
Qed.

(** A deletion pushed by an iteration is that of the persisted row of a
    dirty subject whose current value is unset. *)
Lemma delta_deletion_inv k s p a :
  a ∈ (deltaOf k s p).1.2 →
  currentOf k (ledger s) (person_id p) = None
  ∧ baselineOf k (ledger s) (person_id p) ≠ None
  ∧ persistedIdOf k (ledger s) (person_id p) = Some a ∧ a ≠ "".
Proof.
  intros Ha.
  destruct (decide (currentOf k (ledger s) (person_id p)
                    = baselineOf k (ledger s) (person_id p))) as [Heq|Hne].
  { rewrite (delta_clean k s p Heq) in Ha. by apply elem_of_nil in Ha. }
  destruct (currentOf k (ledger s) (person_id p)) as [st|] eqn:Hc.
  - assert (Hb : baselineOf k (ledger s) (person_id p) ≠ Some st) by congruence.
    rewrite (delta_upsert k s p st Hc Hb) in Ha. by apply elem_of_nil in Ha.
  - split; [done|]. by apply (proj2 (delta_unset k s p Hc)).
Qed.

(** Every element of the batch is pushed by the iteration of a listed
    subject. *)
Lemma computeDiff_upsert_origin s u :
  u ∈ acc_upserts (computeDiff s) →
  ∃ k p, p ∈ listOf k s ∧ u ∈ (deltaOf k s p).1.1.
Proof.
  rewrite computeDiff_upserts, !elem_of_app, !elem_of_concat.
  intros [(us & Hu & Hus)|[(us & Hu & Hus)|(us & Hu & Hus)]];
    apply list_elem_of_fmap in Hus as (p & -> & Hp);
    [exists Member | exists Guest | exists Pipeliner]; eauto.
Qed.

Lemma computeDiff_deletion_origin s a :
  a ∈ acc_deletions (computeDiff s) →
  ∃ k p, p ∈ listOf k s ∧ a ∈ (deltaOf k s p).1.2.
Proof.
  rewrite computeDiff_deletions, !elem_of_app, !elem_of_concat.
  intros [(us & Hu & Hus)|[(us & Hu & Hus)|(us & Hu & Hus)]];
    apply list_elem_of_fmap in Hus as (p & -> & Hp);
    [exists Member | exists Guest | exists Pipeliner]; eauto.
Qed.

(** X5. The batch contains nothing but the changes of the ledger: every
    upsert of the diff is the upsert of a listed subject that is dirty, with
    the subject's current value as status and the row identifier the
    subject has; every deletion is the persisted (non-empty) row identifier
    of a listed subject that is dirty with its current value unset. *)
Theorem diff_contains_only_changes (s : PageState) :
  (∀ u, u ∈ acc_upserts (computeDiff s) →
     ∃ k p, p ∈ listOf k s
            ∧ isDirty k (ledger s) (person_id p) = true
            ∧ currentOf k (ledger s) (person_id p) = Some (up_status u)
            ∧ u = upsertFor k (selectedMeetingId s) (person_id p)
                    (nullish (currentIdOf k (ledger s) (person_id p))
                             (persistedIdOf k (ledger s) (person_id p)))
                    (up_status u))
  ∧ (∀ a, a ∈ acc_deletions (computeDiff s) →
       ∃ k p, p ∈ listOf k s
              ∧ isDirty k (ledger s) (person_id p) = true
              ∧ currentOf k (ledger s) (person_id p) = None
              ∧ persistedIdOf k (ledger s) (person_id p) = Some a
              ∧ a ≠ "").
Proof.
  split.
  - intros u Hu.
    destruct (computeDiff_upsert_origin s u Hu) as (k & p & Hp & Hd).
    destruct (delta_upsert_inv k s p u Hd) as (st & Hc & Hb & ->).
    exists k, p. split; [done|]. split.
    + rewrite isDirty_spec, bool_decide_eq_true. congruence.
    + by destruct k.
  - intros a Ha.
    destruct (computeDiff_deletion_origin s a Ha) as (k & p & Hp & Hd).
    destruct (delta_deletion_inv k s p a Hd) as (Hc & Hb & Hid & Hne).
    exists k, p. split; [done|]. split; [|done].
    rewrite isDirty_spec, bool_decide_eq_true. congruence.
Qed.

(** X6. Every upsert row of a batch is for the selected meeting and names
    exactly one subject: one of [member_id], [guest_id], [pipeliner_id] is
    set and the other two are not; a guest or pipeliner row always has
    status present. *)
Theorem upsert_rows_name_one_subject (s : PageState) (u : AttendanceUpsertInput) :
  u ∈ acc_upserts (computeDiff s) →
  up_meeting_id u = selectedMeetingId s
  ∧ ((is_Some (up_member_id u) ∧ up_guest_id u = None
      ∧ up_pipeliner_id u = None)
     ∨ (up_member_id u = None ∧ is_Some (up_guest_id u)
        ∧ up_pipeliner_id u = None ∧ up_status u = present)
     ∨ (up_member_id u = None ∧ up_guest_id u = None
        ∧ is_Some (up_pipeliner_id u) ∧ up_status u = present)).
Proof.
  intros Hu.
  destruct (computeDiff_upsert_origin s u Hu) as (k & p & Hp & Hd).
  destruct (delta_upsert_inv k s p u Hd) as (st & Hc & Hb & ->).
  split; [done|].
  destruct k; simpl in *; unfold attendedStatus in Hc.
  - left. eauto.
  - right. left. case_match; simplify_eq. eauto.
  - right. right. case_match; simplify_eq. eauto.
Qed.

Lemma upsert_rows_name_one_subject_witness :
  let s := page (run Scenario.twoEdits Scenario.fresh) in
  let u := {| up_id := None; up_meeting_id := "meeting-1";
              up_status := apology; up_member_id := Some "m-bob";
              up_guest_id := None; up_pipeliner_id := None |} in
  up_meeting_id u = selectedMeetingId s
  ∧ ((is_Some (up_member_id u) ∧ up_guest_id u = None
      ∧ up_pipeliner_id u = None)
     ∨ (up_member_id u = None ∧ is_Some (up_guest_id u)
        ∧ up_pipeliner_id u = None ∧ up_status u = present)
     ∨ (up_member_id u = None ∧ up_guest_id u = None
        ∧ is_Some (up_pipeliner_id u) ∧ up_status u = present)).
Proof.
  apply (upsert_rows_name_one_subject
           (page (run Scenario.twoEdits Scenario.fresh))).
  apply (bool_decide_unpack _). vm_compute. exact I.
Defined.

(** ** Nothing to save, nothing sent *)

Lemma existsb_elem_of {A} (f : A → bool) (xs : list A) x :
  x ∈ xs → f x = true → existsb f xs = true.
Proof.
  intros Hx Hf. apply existsb_exists. exists x.
  split; [by apply list_elem_of_In|done].
Qed.

(** A dirty listed subject makes the page report unsaved changes. *)
Lemma dirty_listed_unsaved k s p :
  p ∈ listOf k s →
  isDirty k (ledger s) (person_id p) = true →
  hasUnsavedChanges s = true.
Proof.
  intros Hp Hd. unfold hasUnsavedChanges, hasUnsavedMemberChanges,
    hasUnsavedGuestChanges, hasUnsavedPipelinerChanges.
  destruct k; simpl in *.
  - rewrite (existsb_elem_of _ _ p Hp Hd). done.
  - rewrite (existsb_elem_of _ (guests s) p Hp Hd). by rewrite orb_true_r.
  - rewrite (existsb_elem_of _ (pipelinerEligibility s) p Hp Hd).
    by rewrite orb_true_r.
Qed.

Lemma clean_diff_empty s :
  hasUnsavedChanges s = false →
  acc_upserts (computeDiff s) = [] ∧ acc_deletions (computeDiff s) = [].
Proof.
  intros Hclean. split.
  - destruct (acc_upserts (computeDiff s)) as [|u us] eqn:E; [done|].
    assert (Hu : u ∈ acc_upserts (computeDiff s)) by (rewrite E; left).
    destruct (computeDiff_upsert_origin s u Hu) as (k & p & Hp & Hd).
    destruct (delta_upsert_inv k s p u Hd) as (st & Hc & Hb & _).
    assert (Hdirty : isDirty k (ledger s) (person_id p) = true)
      by (rewrite isDirty_spec, bool_decide_eq_true; congruence).
    pose proof (dirty_listed_unsaved k s p Hp Hdirty). congruence.
  - destruct (acc_deletions (computeDiff s)) as [|a ds] eqn:E; [done|].
    assert (Ha : a ∈ acc_deletions (computeDiff s)) by (rewrite E; left).
    destruct (computeDiff_deletion_origin s a Ha) as (k & p & Hp & Hd).
    destruct (delta_deletion_inv k s p a Hd) as (Hc & Hb & _).
    assert (Hdirty : isDirty k (ledger s) (person_id p) = true)
      by (rewrite isDirty_spec, bool_decide_eq_true; congruence).
    pose proof (dirty_listed_unsaved k s p Hp Hdirty). congruence.
Qed.

(** X7. When the page reports no unsaved changes, a save requested by the
    operator or by the timeout sends nothing and changes nothing, and the
    autosave effect leaves no timeout pending. *)
Theorem nothing_unsaved_nothing_sent (s : PageState) (auto' : bool) :
  hasUnsavedChanges s = false →
  saveAttendance auto' s = (s, None)
  ∧ autoSaveTimer (ui (autosaveEffect s)) = false
  ∧ autoSaveScheduled (ui (autosaveEffect s)) = false.
Proof.
  intros Hclean. split.
  - unfold saveAttendance.
    destruct (clean_diff_empty s Hclean) as [-> ->]. simpl.
    by case_match.
  - destruct (autosaveEffect_timer s) as [Ht Hs]. rewrite Hs, Ht, Hclean.
    by rewrite andb_false_r.
Qed.

Lemma nothing_unsaved_nothing_sent_witness :
  let s := page (run [AttendanceLoaded (Some Scenario.persistedRows)]
                     Scenario.fresh) in
  saveAttendance false s = (s, None)
  ∧ autoSaveTimer (ui (autosaveEffect s)) = false
  ∧ autoSaveScheduled (ui (autosaveEffect s)) = false.
Proof.
  apply (nothing_unsaved_nothing_sent
           (page (run [AttendanceLoaded (Some Scenario.persistedRows)]
                      Scenario.fresh)) false).
  vm_compute. reflexivity.
Defined.

Lemma saveAttendance_sends_worthwhile auto' s s' f :
  saveAttendance auto' s = (s', Some f) → worthSending (sent f).
Proof.
  unfold saveAttendance, worthSending.
  generalize (computeDiff s). intros d.
  destruct (truthy (Some (selectedMeetingId s))) eqn:Hm; cbn [negb orb];
    [|congruence].
  apply truthy_inv in Hm as (m & [= <-] & Hne).
  destruct (saving (ui s)); [congruence|].
  destruct (bool_decide (length (acc_upserts d) = 0)) eqn:Hu; cbn [andb].
  - destruct (bool_decide (length (acc_deletions d) = 0)) eqn:Hd;
      [congruence|].
    intros [= <- <-]; simpl. split; [done|].
    right. apply bool_decide_eq_false in Hd. by destruct (acc_deletions d).
  - intros [= <- <-]; simpl. split; [done|].
    left. apply bool_decide_eq_false in Hu. by destruct (acc_upserts d).
Qed.

Lemma step_requests e y :
  ∃ now, requests (step e y) = requests y ++ now ∧ Forall worthSending now.
Proof.
  assert (Hcall : ∀ a s, ∃ now,
            requests (callSave a s y) = requests y ++ now
            ∧ Forall worthSending now).
  { intros a s. unfold callSave.
    destruct (saveAttendance a s) as [s' [f|]] eqn:E; simpl.
    - exists [sent f]. split; [done|].
      apply Forall_singleton. by eapply saveAttendance_sends_worthwhile.
    - exists []. by rewrite app_nil_r. }
  assert (Hnone : ∀ y', requests y' = requests y →
            ∃ now, requests y' = requests y ++ now ∧ Forall worthSending now).
  { intros y' ->. exists []. by rewrite app_nil_r. }
  destruct e; simpl; try (by apply Hnone); try apply Hcall.
  - destruct (autoSaveTimer _); [apply Hcall | by apply Hnone].
  - repeat case_match; by apply Hnone.
  - destruct (inflight y); by apply Hnone.
Qed.

(** X8. Over any sequence of events the log of requests only grows, and
    every request the page sends is for a selected meeting and carries at
    least one upsert or deletion: an empty batch is never sent. *)
Theorem no_empty_batch_is_sent (y0 : Sys) (events : list Event) :
  ∃ now, requests (run events y0) = requests y0 ++ now
         ∧ Forall worthSending now.
Proof.
  revert y0. induction events as [|e events IH]; intros y0.
  - exists []. by rewrite app_nil_r.
  - destruct (step_requests e y0) as (n1 & E1 & H1).
    destruct (IH (step e y0)) as (n2 & E2 & H2).
    exists (n1 ++ n2). split.
    + change (run (e :: events) y0) with (run events (step e y0)).
      by rewrite E2, E1, app_assoc.
    + by apply Forall_app.
Qed.

(** ** What the merge makes of the response *)

(** The loop over the response records binds a subject to the last record
    that names it. *)
Lemma fold_records_last {V} (subjectOf : ResponseRecord → option string)
    (entry : ResponseRecord → V) (records : list ResponseRecord)
    (acc : gmap string V) (id : string) :
  id ≠ "" →
  fold_left
    (λ next record,
       match subjectOf record with
       | Some subjectId =>
           if bool_decide (subjectId ≠ "")
           then <[subjectId := entry record]> next else next
       | None => next
       end)
    records acc !! id
  = match last (filter (λ r, subjectOf r = Some id) records) with
    | Some r => Some (entry r)
    | None => acc !! id
    end.
Proof.
  intros Hid. induction records as [|r rs IH] using rev_ind; [done|].
  rewrite fold_left_app, filter_app. cbn [fold_left].
  destruct (decide (subjectOf r = Some id)) as [Hr|Hr].
  - rewrite filter_cons_True, filter_nil by done. rewrite last_snoc, Hr.
    rewrite bool_decide_eq_true_2 by done. by rewrite lookup_insert_eq.
  - rewrite filter_cons_False, filter_nil, app_nil_r by done. rewrite <- IH.
    destruct (subjectOf r) as [sid|]; [|done].
    case_bool_decide; [|done]. rewrite lookup_insert_ne; [done|congruence].
Qed.

Lemma mergeMembers_named members D records prev initial id r :
  id ≠ "" →
  last (filter (λ r, rec_member_id r = Some id) records) = Some r →
  mergeMembers members D records prev initial !! id = Some (memberOfRow r).
Proof.
  intros Hid Hr. unfold mergeMembers.
  rewrite (fold_records_last rec_member_id memberOfRow) by done.
  by rewrite Hr.
Qed.

Lemma mergeAttended_named subjectOf subjects D records prev initial id r :
  id ≠ "" →
  last (filter (λ r, subjectOf r = Some id) records) = Some r →
  mergeAttended subjectOf subjects D records prev initial !! id
  = Some (guestOfRow r).
Proof.
  intros Hid Hr. unfold mergeAttended.
  rewrite (fold_records_last subjectOf guestOfRow) by done.
  by rewrite Hr.
Qed.

(** The entries a merge gives a subject that the response names. *)
Lemma mergeResponse_named (f : InFlight)
    (result : SaveAttendanceResponse) (l : Ledger) (k : Kind) (id : string)
    (r : ResponseRecord) :
  id ≠ "" →
  lastNaming k id (resp_records result) = Some r →
  let l' := mergeResponse f result l in
  currentIdOf k l' id = Some (rec_id r)
  ∧ persistedIdOf k l' id = Some (rec_id r)
  ∧ currentOf k l' id = rowStatus k r
  ∧ baselineOf k l' id = rowStatus k r.
Proof.
  intros Hid Hr l'. unfold lastNaming in Hr.
  destruct (mergeResponse_baseline f result l) as (Hm & Hg & Hp).
  fold l' in Hm, Hg, Hp.
  destruct k; unfold currentIdOf, persistedIdOf, currentOf, baselineOf,
    attendedStatus, attendedOf, rowStatus; rewrite ?Hm, ?Hg, ?Hp.
  - assert (memberAttendance l' !! id = Some (memberOfRow r)) as ->
      by (by apply mergeMembers_named).
    done.
  - assert (guestAttendance l' !! id = Some (guestOfRow r)) as ->
      by (by apply mergeAttended_named).
    done.
  - assert (pipelinerAttendance l' !! id = Some (guestOfRow r)) as ->
      by (by apply mergeAttended_named).
    done.
Qed.

(** X9. A successful response binds every subject it names (by a non-empty
    key) to the last record naming it: after the merge the subject's row
    identifier, in the ledger and in the baseline, is the record's [id], and
    its current and baseline value are the record's status (for a guest or a
    pipeliner: attended exactly when the status is present). *)
Theorem merge_binds_last_record (f : InFlight)
    (result : SaveAttendanceResponse) (l : Ledger) (k : Kind) (id : string)
    (r : ResponseRecord) :
  id ≠ "" →
  lastNaming k id (resp_records result) = Some r →
  let l' := mergeResponse f result l in
  currentIdOf k l' id = Some (rec_id r)
  ∧ persistedIdOf k l' id = Some (rec_id r)
  ∧ currentOf k l' id = rowStatus k r
  ∧ baselineOf k l' id = rowStatus k r.
Proof.
  intros Hid Hr l'. unfold lastNaming in Hr.
  destruct (mergeResponse_baseline f result l) as (Hm & Hg & Hp).
  fold l' in Hm, Hg, Hp.
  destruct k; unfold currentIdOf, persistedIdOf, currentOf, baselineOf,
    attendedStatus, attendedOf, rowStatus; rewrite ?Hm, ?Hg, ?Hp.
  - assert (memberAttendance l' !! id = Some (memberOfRow r)) as ->
      by (by apply mergeMembers_named).
    done.
  - assert (guestAttendance l' !! id = Some (guestOfRow r)) as ->
      by (by apply mergeAttended_named).
    done.
  - assert (pipelinerAttendance l' !! id = Some (guestOfRow r)) as ->
      by (by apply mergeAttended_named).
    done.
Qed.

Lemma merge_binds_last_record_witness :
  let l' := mergeResponse (Scenario.suspendedSave Scenario.cyEditedInFlight)
              (Scenario.okResult Scenario.bobSaved)
              (ledger (page Scenario.cyEditedInFlight)) in
  ∃ r, currentIdOf Member l' "m-bob" = Some (rec_id r)
       ∧ persistedIdOf Member l' "m-bob" = Some (rec_id r)
       ∧ currentOf Member l' "m-bob" = rowStatus Member r
       ∧ baselineOf Member l' "m-bob" = rowStatus Member r.
Proof.
  eexists.
  refine (merge_binds_last_record
            (Scenario.suspendedSave Scenario.cyEditedInFlight)
            (Scenario.okResult Scenario.bobSaved)
            (ledger (page Scenario.cyEditedInFlight)) Member "m-bob" _ _ _).
  - done.
  - vm_compute. reflexivity.
Defined.

(** The row identifier the first loop of a merge writes. *)
Lemma kept_row_id (D : list string) (o : option string) :
  match o with
  | Some a =>
      if bool_decide (a ≠ "")
         && bool_decide (a ∈ (list_to_set D : gset string))
      then None else Some a
  | None => None
  end
  = match o with
    | Some a => if bool_decide (a ≠ "" ∧ a ∈ D) then None else Some a
    | None => None
    end.
Proof.
  destruct o as [a|]; [|done].
  repeat case_bool_decide; simpl; try done;
    rewrite elem_of_list_to_set in *; naive_solver.
Qed.

Lemma mergeMembers_unnamed members D records prev initial id :
  (∀ r, r ∈ records → rec_member_id r ≠ Some id) →
  mergeMembers members D records prev initial !! id
  = if decide (id ∈ person_id <$> members) then
      let existing :=
        default emptyMember (nullish (prev !! id) (initial !! id)) in
      Some {| attendanceId :=
                match attendanceId existing with
                | Some a =>
                    if bool_decide (a ≠ "") && bool_decide (a ∈ D)
                    then None else Some a
                | None => None
                end;
              status := status existing |}
    else None.
Proof.
  intros Hrec. unfold mergeMembers.
  rewrite (fold_records_unrelated rec_member_id
             (λ record, {| attendanceId := Some (rec_id record);
                           status := Some (rec_status record) |})) by done.
  rewrite (fold_insert_by_id
             (λ i, {| attendanceId :=
                        match attendanceId (default emptyMember
                                (nullish (prev !! i) (initial !! i))) with
                        | Some a =>
                            if bool_decide (a ≠ "") && bool_decide (a ∈ D)
                            then None else Some a
                        | None => None
                        end;
                      status := status (default emptyMember
                                  (nullish (prev !! i) (initial !! i))) |})).
  by rewrite lookup_empty.
Qed.

Lemma mergeAttended_unnamed subjectOf subjects D records prev initial id :
  (∀ r, r ∈ records → subjectOf r ≠ Some id) →
  mergeAttended subjectOf subjects D records prev initial !! id
  = if decide (id ∈ person_id <$> subjects) then
      let existing :=
        default emptyGuest (nullish (prev !! id) (initial !! id)) in
      Some {| guestAttendanceId :=
                match guestAttendanceId existing with
                | Some a =>
                    if bool_decide (a ≠ "") && bool_decide (a ∈ D)
                    then None else Some a
                | None => None
                end;
              attended := attended existing |}
    else None.
Proof.
  intros Hrec. unfold mergeAttended.
  rewrite (fold_records_unrelated subjectOf
             (λ record, {| guestAttendanceId := Some (rec_id record);
                           attended := bool_decide (rec_status record = present) |}))
    by done.
  rewrite (fold_insert_by_id
             (λ i, {| guestAttendanceId :=
                        match guestAttendanceId (default emptyGuest
                                (nullish (prev !! i) (initial !! i))) with
                        | Some a =>
                            if bool_decide (a ≠ "") && bool_decide (a ∈ D)
                            then None else Some a
                        | None => None
                        end;
                      attended := attended (default emptyGuest
                                    (nullish (prev !! i) (initial !! i))) |})).
  by rewrite lookup_empty.
Qed.

(** X10. A listed subject that has an entry and that the response does not
    name keeps its row identifier through the merge, unless that identifier
    is among the response's [deletedIds], in which case it is cleared; the
    baseline gets the same identifier. *)
Theorem merge_clears_deleted_row_id (f : InFlight)
    (result : SaveAttendanceResponse) (l : Ledger) (k : Kind) (p : Person) :
  p ∈ closureOf k f →
  hasEntry k l (person_id p) →
  (∀ r, r ∈ resp_records result → recordKey k r ≠ Some (person_id p)) →
  let l' := mergeResponse f result l in
  currentIdOf k l' (person_id p)
  = match currentIdOf k l (person_id p) with
    | Some a =>
        if bool_decide (a ≠ "" ∧ a ∈ resp_deletedIds result)
        then None else Some a
    | None => None
    end
  ∧ persistedIdOf k l' (person_id p) = currentIdOf k l' (person_id p).
Proof.
  intros Hin Hentry Hrec l'.
  assert (Hid : person_id p ∈ person_id <$> closureOf k f)
    by (apply list_elem_of_fmap; eauto).
  destruct (mergeResponse_baseline f result l) as (Hm & Hg & Hp).
  fold l' in Hm, Hg, Hp.
  rewrite <- kept_row_id.
  destruct k; unfold currentIdOf, persistedIdOf, hasEntry in *;
    rewrite ?Hm, ?Hg, ?Hp; (split; [|done]);
    destruct Hentry as [e He]; rewrite He.
  - assert (memberAttendance l' !! person_id p = _) as ->
      by (by apply mergeMembers_unnamed).
    rewrite decide_True by done. by rewrite He.
  - assert (guestAttendance l' !! person_id p = _) as ->
      by (by apply mergeAttended_unnamed).
    rewrite decide_True by done. by rewrite He.
  - assert (pipelinerAttendance l' !! person_id p = _) as ->
      by (by apply mergeAttended_unnamed).
    rewrite decide_True by done. by rewrite He.
Qed.

Lemma merge_clears_deleted_row_id_witness :
  let f := Scenario.suspendedSave Scenario.cyEditedInFlight in
  let result := Scenario.okResult Scenario.bobSaved in
  let l := ledger (page Scenario.cyEditedInFlight) in
  let l' := mergeResponse f result l in
  currentIdOf Member l' "m-ann"
  = match currentIdOf Member l "m-ann" with
    | Some a =>
        if bool_decide (a ≠ "" ∧ a ∈ resp_deletedIds result)
        then None else Some a
    | None => None
    end
  ∧ persistedIdOf Member l' "m-ann" = currentIdOf Member l' "m-ann".
Proof.
  refine (merge_clears_deleted_row_id
            (Scenario.suspendedSave Scenario.cyEditedInFlight)
            (Scenario.okResult Scenario.bobSaved)
            (ledger (page Scenario.cyEditedInFlight)) Member Scenario.ann
            _ _ _).
  - apply (bool_decide_unpack _). vm_compute. exact I.
  - vm_compute. eauto.
  - intros r Hr. apply list_elem_of_singleton in Hr as ->. done.
Defined.

(** X11. The merge rebuilds the three maps from the subject lists of the
    save and the response records only: a subject that is in neither has no
    entry afterwards, whatever the ledger held for it, so its current and
    baseline values are unset. *)
Theorem merge_drops_unlisted_subject (f : InFlight)
    (result : SaveAttendanceResponse) (l : Ledger) (k : Kind) (id : string) :
  id ∉ person_id <$> closureOf k f →
  (∀ r, r ∈ resp_records result → recordKey k r ≠ Some id) →
  let l' := mergeResponse f result l in
  ¬ hasEntry k l' id
  ∧ currentOf k l' id = None ∧ baselineOf k l' id = None
  ∧ currentIdOf k l' id = None.
Proof.
  intros Hin Hrec l'.
  destruct (mergeResponse_baseline f result l) as (Hm & Hg & Hp).
  fold l' in Hm, Hg, Hp.
  destruct k; unfold hasEntry, currentOf, baselineOf, currentIdOf,
    attendedStatus, attendedOf; rewrite ?Hm, ?Hg, ?Hp.
  - assert (memberAttendance l' !! id = None) as ->.
    { unfold l'. simpl. rewrite mergeMembers_unnamed by done.
      by rewrite decide_False. }
    split; [by intros [? ?]|done].
  - assert (guestAttendance l' !! id = None) as ->.
    { unfold l'. simpl. rewrite mergeAttended_unnamed by done.
      by rewrite decide_False. }
    split; [by intros [? ?]|done].
  - assert (pipelinerAttendance l' !! id = None) as ->.
    { unfold l'. simpl. rewrite mergeAttended_unnamed by done.
      by rewrite decide_False. }
    split; [by intros [? ?]|done].
Qed.

Lemma merge_drops_unlisted_subject_witness :
  let l' := mergeResponse (Scenario.suspendedSave Scenario.cyEditedInFlight)
              (Scenario.okResult Scenario.bobSaved)
              (handleMemberStatusChange "m-dan" (Some present)
                 (ledger (page Scenario.cyEditedInFlight))) in
  ¬ hasEntry Member l' "m-dan"
  ∧ currentOf Member l' "m-dan" = None ∧ baselineOf Member l' "m-dan" = None
  ∧ currentIdOf Member l' "m-dan" = None.
Proof.
  refine (merge_drops_unlisted_subject
            (Scenario.suspendedSave Scenario.cyEditedInFlight)
            (Scenario.okResult Scenario.bobSaved)
            (handleMemberStatusChange "m-dan" (Some present)
               (ledger (page Scenario.cyEditedInFlight)))
            Member "m-dan" _ _).
  - apply (bool_decide_unpack _). vm_compute. exact I.
  - intros r Hr. apply list_elem_of_singleton in Hr as ->. done.
Defined.

(** ** Hydration *)

(** The hydration loop, for any type of entry: an entry that exists is
    kept, a listed subject without one gets the baseline entry (or the empty
    one) in both maps. *)
Lemma fold_hydrate {V} (copy : V → V) (dflt : V) (subjects : list Person)
    (next initial n i : gmap string V) :
  (∀ e, copy e = e) →
  fold_left
    (λ '(next, initial) (subject : Person),
       match next !! person_id subject with
       | Some _ => (next, initial)
       | None =>
           let initialEntry := default dflt (initial !! person_id subject) in
           (<[person_id subject := copy initialEntry]> next,
            <[person_id subject := initialEntry]> initial)
       end)
    subjects (next, initial) = (n, i) →
  ∀ id,
    n !! id = match next !! id with
              | Some e => Some e
              | None => if decide (id ∈ person_id <$> subjects)
                        then Some (default dflt (initial !! id)) else None
              end
    ∧ i !! id = match next !! id with
                | Some _ => initial !! id
                | None => if decide (id ∈ person_id <$> subjects)
                          then Some (default dflt (initial !! id))
                          else initial !! id
                end.
Proof.
  intros Hcopy. revert next initial.
  induction subjects as [|p ps IH]; intros next initial Hfold id.
  - cbn [fold_left] in Hfold. simplify_eq. rewrite fmap_nil.
    rewrite decide_False by apply not_elem_of_nil.
    by destruct (n !! id).
  - cbn [fold_left] in Hfold. rewrite fmap_cons.
    destruct (next !! person_id p) as [e|] eqn:Hp.
    + destruct (IH _ _ Hfold id) as [-> ->].
      destruct (next !! id) eqn:Hid; [done|].
      assert (id ≠ person_id p) by congruence.
      repeat case_decide; try done; exfalso; set_solver.
    + destruct (IH _ _ Hfold id) as [-> ->]. rewrite Hcopy.
      destruct (decide (id = person_id p)) as [->|Hne].
      * rewrite !lookup_insert_eq, Hp.
        repeat case_decide; try done; exfalso; set_solver.
      * rewrite !lookup_insert_ne by done.
        destruct (next !! id) eqn:Hid; [done|].
        repeat case_decide; try done; exfalso; set_solver.
Qed.

Lemma hydrateMembers_lookup members l id :
  let l' := hydrateMembers members l in
  memberAttendance l' !! id
  = match memberAttendance l !! id with
    | Some e => Some e
    | None => if decide (id ∈ person_id <$> members)
              then Some (default emptyMember (memberInitialRef l !! id))
              else None
    end
  ∧ memberInitialRef l' !! id
    = match memberAttendance l !! id with
      | Some _ => memberInitialRef l !! id
      | None => if decide (id ∈ person_id <$> members)
                then Some (default emptyMember (memberInitialRef l !! id))
                else memberInitialRef l !! id
      end.
Proof.
  unfold hydrateMembers. case_bool_decide as Hlen.
  - apply length_zero_iff_nil in Hlen as ->. rewrite fmap_nil.
    rewrite decide_False by apply not_elem_of_nil. simpl.
    by destruct (memberAttendance l !! id).
  - destruct (fold_left _ _ _) as [n i] eqn:Hfold. simpl.
    refine (fold_hydrate
              (λ e, {| attendanceId := attendanceId e; status := status e |})
              emptyMember members _ _ n i _ Hfold id).
    by intros [].
Qed.

Lemma hydrateAttended_lookup subjects next initial id :
  let r := hydrateAttended subjects (next, initial) in
  r.1 !! id
  = match next !! id with
    | Some e => Some e
    | None => if decide (id ∈ person_id <$> subjects)
              then Some (default emptyGuest (initial !! id)) else None
    end
  ∧ r.2 !! id
    = match next !! id with
      | Some _ => initial !! id
      | None => if decide (id ∈ person_id <$> subjects)
                then Some (default emptyGuest (initial !! id))
                else initial !! id
      end.
Proof.
  unfold hydrateAttended. case_bool_decide as Hlen.
  - apply length_zero_iff_nil in Hlen as ->. rewrite fmap_nil.
    rewrite decide_False by apply not_elem_of_nil. simpl.
    by destruct (next !! id).
  - destruct (fold_left _ _ _) as [n i] eqn:Hfold. simpl.
    refine (fold_hydrate
              (λ e, {| guestAttendanceId := guestAttendanceId e;
                       attended := attended e |})
              emptyGuest subjects _ _ n i _ Hfold id).
    by intros [].
Qed.

Lemma hydrateGuests_lookup guests l id :
  let l' := hydrateGuests guests l in
  guestAttendance l' !! id
  = match guestAttendance l !! id with
    | Some e => Some e
    | None => if decide (id ∈ person_id <$> guests)
              then Some (default emptyGuest (guestInitialRef l !! id))
              else None
    end
  ∧ guestInitialRef l' !! id
    = match guestAttendance l !! id with
      | Some _ => guestInitialRef l !! id
      | None => if decide (id ∈ person_id <$> guests)
                then Some (default emptyGuest (guestInitialRef l !! id))
                else guestInitialRef l !! id
      end.
Proof.
  pose proof (hydrateAttended_lookup guests (guestAttendance l)
                (guestInitialRef l) id) as H.
  unfold hydrateGuests. by destruct (hydrateAttended _ _).
Qed.

Lemma hydratePipeliners_lookup pipeliners l id :
  let l' := hydratePipeliners pipeliners l in
  pipelinerAttendance l' !! id
  = match pipelinerAttendance l !! id with
    | Some e => Some e
    | None => if decide (id ∈ person_id <$> pipeliners)
              then Some (default emptyGuest (pipelinerInitialRef l !! id))
              else None
    end
  ∧ pipelinerInitialRef l' !! id
    = match pipelinerAttendance l !! id with
      | Some _ => pipelinerInitialRef l !! id
      | None => if decide (id ∈ person_id <$> pipeliners)
                then Some (default emptyGuest (pipelinerInitialRef l !! id))
                else pipelinerInitialRef l !! id
      end.
Proof.
  pose proof (hydrateAttended_lookup pipeliners (pipelinerAttendance l)
                (pipelinerInitialRef l) id) as H.
  unfold hydratePipeliners. by destruct (hydrateAttended _ _).
Qed.

(** Hydration touches the maps of its own kind only. *)
Lemma hydrateMembers_others members l :
  let l' := hydrateMembers members l in
  guestAttendance l' = guestAttendance l
  ∧ guestInitialRef l' = guestInitialRef l
  ∧ pipelinerAttendance l' = pipelinerAttendance l
  ∧ pipelinerInitialRef l' = pipelinerInitialRef l.
Proof.
  unfold hydrateMembers. case_bool_decide; [done|].
  by destruct (fold_left _ _ _).
Qed.

Lemma hydrateGuests_others guests l :
  let l' := hydrateGuests guests l in
  memberAttendance l' = memberAttendance l
  ∧ memberInitialRef l' = memberInitialRef l
  ∧ pipelinerAttendance l' = pipelinerAttendance l
  ∧ pipelinerInitialRef l' = pipelinerInitialRef l.
Proof. unfold hydrateGuests. by destruct (hydrateAttended _ _). Qed.

Lemma hydratePipeliners_others pipeliners l :
  let l' := hydratePipeliners pipeliners l in
  memberAttendance l' = memberAttendance l
  ∧ memberInitialRef l' = memberInitialRef l
  ∧ guestAttendance l' = guestAttendance l
  ∧ guestInitialRef l' = guestInitialRef l.
Proof. unfold hydratePipeliners. by destruct (hydrateAttended _ _). Qed.

(** X12. The hydration effect of a subject list never overwrites: a
    subject that has an entry keeps its current value and row identifier,
    and no baseline value changes.  Afterwards every listed subject has an
    entry, and a listed subject that had none starts at its baseline value,
    so it is not dirty. *)
Theorem hydration_fills_without_overwriting (k : Kind)
    (subjects : list Person) (l : Ledger) :
  let l' := hydrateOf k subjects l in
  (∀ id, hasEntry k l id →
     currentOf k l' id = currentOf k l id
     ∧ currentIdOf k l' id = currentIdOf k l id)
  ∧ (∀ id, baselineOf k l' id = baselineOf k l id)
  ∧ (∀ p, p ∈ subjects → hasEntry k l' (person_id p))
  ∧ (∀ p, p ∈ subjects → ¬ hasEntry k l (person_id p) →
       currentOf k l' (person_id p) = baselineOf k l (person_id p)
       ∧ isDirty k l' (person_id p) = false).
Proof.
  intros l'.
  assert (Hbase : ∀ id, baselineOf k l' id = baselineOf k l id).
  { intros id. unfold l'.
    destruct k; unfold hydrateOf, baselineOf, attendedStatus, attendedOf.
    - destruct (hydrateMembers_lookup subjects l id) as [_ ->].
      repeat case_match; simplify_eq/=; try done.
      by destruct (memberInitialRef l !! id).
    - destruct (hydrateGuests_lookup subjects l id) as [_ ->].
      destruct (guestAttendance l !! id); [done|]. case_decide; [|done].
      by destruct (guestInitialRef l !! id).
    - destruct (hydratePipeliners_lookup subjects l id) as [_ ->].
      destruct (pipelinerAttendance l !! id); [done|]. case_decide; [|done].
      by destruct (pipelinerInitialRef l !! id). }
  assert (Hnew : ∀ p, p ∈ subjects → ¬ hasEntry k l (person_id p) →
            currentOf k l' (person_id p) = baselineOf k l (person_id p)).
  { intros p Hp Hno.
    assert (Hid : person_id p ∈ person_id <$> subjects)
      by (apply list_elem_of_fmap; eauto).
    unfold l'.
    destruct k; unfold hydrateOf, hasEntry, currentOf, baselineOf,
      attendedStatus, attendedOf in *.
    - destruct (hydrateMembers_lookup subjects l (person_id p)) as [-> _].
      destruct (memberAttendance l !! person_id p); [by destruct Hno|].
      rewrite decide_True by done.
      by destruct (memberInitialRef l !! person_id p).
    - destruct (hydrateGuests_lookup subjects l (person_id p)) as [-> _].
      destruct (guestAttendance l !! person_id p); [by destruct Hno|].
      rewrite decide_True by done.
      by destruct (guestInitialRef l !! person_id p).
    - destruct (hydratePipeliners_lookup subjects l (person_id p)) as [-> _].
      destruct (pipelinerAttendance l !! person_id p); [by destruct Hno|].
      rewrite decide_True by done.
      by destruct (pipelinerInitialRef l !! person_id p). }
  split; [|split; [done|split]].
  - intros id Hentry. unfold l'.
    destruct k; unfold hydrateOf, hasEntry, currentOf, currentIdOf,
      attendedStatus, attendedOf in *; destruct Hentry as [e He].
    + destruct (hydrateMembers_lookup subjects l id) as [-> _].
      by rewrite He.
    + destruct (hydrateGuests_lookup subjects l id) as [-> _].
      by rewrite He.
    + destruct (hydratePipeliners_lookup subjects l id) as [-> _].
      by rewrite He.
  - intros p Hp.
    assert (Hid : person_id p ∈ person_id <$> subjects)
      by (apply list_elem_of_fmap; eauto).
    unfold l'. destruct k; unfold hydrateOf, hasEntry.
    + destruct (hydrateMembers_lookup subjects l (person_id p)) as [-> _].
      destruct (memberAttendance l !! person_id p); [eauto|].
      rewrite decide_True by done. eauto.
    + destruct (hydrateGuests_lookup subjects l (person_id p)) as [-> _].
      destruct (guestAttendance l !! person_id p); [eauto|].
      rewrite decide_True by done. eauto.
    + destruct (hydratePipeliners_lookup subjects l (person_id p)) as [-> _].
      destruct (pipelinerAttendance l !! person_id p); [eauto|].
      rewrite decide_True by done. eauto.
  - intros p Hp Hno. split; [by apply Hnew|].
    apply isDirty_false. rewrite Hbase. by apply Hnew.
Qed.

(** ** After a successful save *)

(** Hydrating a ledger whose baseline maps equal its attendance maps keeps
    them equal. *)
Lemma hydrateGuests_synced guests l :
  memberInitialRef l = memberAttendance l →
  guestInitialRef l = guestAttendance l →
  pipelinerInitialRef l = pipelinerAttendance l →
  let l' := hydrateGuests guests l in
  memberInitialRef l' = memberAttendance l'
  ∧ guestInitialRef l' = guestAttendance l'
  ∧ pipelinerInitialRef l' = pipelinerAttendance l'.
Proof.
  intros Hm Hg Hp l'. unfold l'. clear l'.
  destruct (hydrateGuests_others guests l) as (-> & -> & -> & ->).
  split; [done|split; [|done]].
  apply map_eq. intros id.
  destruct (hydrateGuests_lookup guests l id) as [-> ->].
  rewrite Hg. by destruct (guestAttendance l !! id) eqn:E; rewrite ?E.
Qed.

Lemma hydratePipeliners_synced pipeliners l :
  memberInitialRef l = memberAttendance l →
  guestInitialRef l = guestAttendance l →
  pipelinerInitialRef l = pipelinerAttendance l →
  let l' := hydratePipeliners pipeliners l in
  memberInitialRef l' = memberAttendance l'
  ∧ guestInitialRef l' = guestAttendance l'
  ∧ pipelinerInitialRef l' = pipelinerAttendance l'.
Proof.
  intros Hm Hg Hp l'. unfold l'. clear l'.
  destruct (hydratePipeliners_others pipeliners l) as (-> & -> & -> & ->).
  split; [done|split; [done|]].
  apply map_eq. intros id.
  destruct (hydratePipeliners_lookup pipeliners l id) as [-> ->].
  rewrite Hp. by destruct (pipelinerAttendance l !! id) eqn:E; rewrite ?E.
Qed.

Lemma synced_clean l k id :
  memberInitialRef l = memberAttendance l →
  guestInitialRef l = guestAttendance l →
  pipelinerInitialRef l = pipelinerAttendance l →
  isDirty k l id = false.
Proof.
  intros Hm Hg Hp. apply isDirty_false.
  destruct k; unfold currentOf, baselineOf; by rewrite ?Hm, ?Hg, ?Hp.
Qed.

Lemma existsb_none {A} (f : A → bool) (xs : list A) :
  (∀ x, f x = false) → existsb f xs = false.
Proof.
  intros H. induction xs as [|x xs IH]; [done|].
  simpl. by rewrite H, IH.
Qed.

Lemma all_clean_nothing_unsaved s :
  (∀ k id, isDirty k (ledger s) id = false) → hasUnsavedChanges s = false.
Proof.
  intros H. unfold hasUnsavedChanges, hasUnsavedMemberChanges,
    hasUnsavedGuestChanges, hasUnsavedPipelinerChanges.
  rewrite (existsb_none _ (members s)) by (intros x; apply (H Member)).
  rewrite (existsb_none _ (guests s)) by (intros x; apply (H Guest)).
  by rewrite (existsb_none _ (pipelinerEligibility s))
    by (intros x; apply (H Pipeliner)).
Qed.

Lemma saveSucceeded_synced f result rg rp s :
  let l' := ledger (saveSucceeded f result rg rp s) in
  memberInitialRef l' = memberAttendance l'
  ∧ guestInitialRef l' = guestAttendance l'
  ∧ pipelinerInitialRef l' = pipelinerAttendance l'.
Proof.
  unfold saveSucceeded.
  change (ledger (withUi ?u (withLedger ?x ?y))) with x.
  destruct (mergeResponse_baseline f result (ledger s)) as (Hm & Hg & Hp).
  assert (Hguests :
    let l1 := match rg with
              | Some guests' =>
                  hydrateGuests guests' (mergeResponse f result (ledger s))
              | None => mergeResponse f result (ledger s)
              end in
    memberInitialRef l1 = memberAttendance l1
    ∧ guestInitialRef l1 = guestAttendance l1
    ∧ pipelinerInitialRef l1 = pipelinerAttendance l1).
  { destruct rg; [by apply hydrateGuests_synced|done]. }
  destruct Hguests as (Hm1 & Hg1 & Hp1).
  destruct rp; [by apply hydratePipeliners_synced|done].
Qed.

(** X13. When the response to the suspended save reports success, the page
    comes to rest whatever the response contains and whether or not the
    guest and pipeliner lists could be reloaded: no subject is dirty, the
    page reports no unsaved changes, [saving] is reset, no autosave timeout
    is left pending and the save is no longer suspended. *)
Theorem successful_save_leaves_nothing_unsaved (y : Sys) (f : InFlight)
    (rest : list InFlight) (result : SaveAttendanceResponse)
    (reloadedGuests reloadedPipeliners : option (list Person)) :
  inflight y = f :: rest →
  resp_success result = true →
  let y' := step (FetchDone (HttpOk result) reloadedGuests reloadedPipeliners)
                 y in
  (∀ k id, isDirty k (ledger (page y')) id = false)
  ∧ hasUnsavedChanges (page y') = false
  ∧ saving (ui (page y')) = false
  ∧ autoSaveTimer (ui (page y')) = false
  ∧ inflight y' = rest
  ∧ requests y' = requests y.
Proof.
  intros Hin Hok y'. unfold y'. cbn [step]. rewrite Hin.
  cbn [page inflight requests saveAttendance_resume]. rewrite Hok.
  set (s' := saveSucceeded f result reloadedGuests reloadedPipeliners (page y)).
  destruct (saveSucceeded_synced f result reloadedGuests reloadedPipeliners
              (page y)) as (Hm & Hg & Hp).
  fold s' in Hm, Hg, Hp.
  assert (Hclean : ∀ k id, isDirty k (ledger s') id = false)
    by (intros k id; by apply synced_clean).
  assert (Hnone : hasUnsavedChanges s' = false)
    by (by apply all_clean_nothing_unsaved).
  split; [|split; [|split; [|split; [|done]]]].
  - intros k id. by rewrite autosaveEffect_ledger.
  - apply all_clean_nothing_unsaved. intros k id.
    by rewrite autosaveEffect_ledger.
  - by rewrite autosaveEffect_saving.
  - rewrite (proj1 (autosaveEffect_timer s')), Hnone.
    by rewrite andb_false_r.
Qed.

Lemma successful_save_leaves_nothing_unsaved_witness :
  let y' := step (FetchDone Scenario.bobSaved None None)
                 Scenario.cyEditedInFlight in
  (∀ k id, isDirty k (ledger (page y')) id = false)
  ∧ hasUnsavedChanges (page y') = false
  ∧ saving (ui (page y')) = false
  ∧ autoSaveTimer (ui (page y')) = false
  ∧ inflight y' = []
  ∧ requests y' = requests Scenario.cyEditedInFlight.
Proof.
  refine (successful_save_leaves_nothing_unsaved Scenario.cyEditedInFlight
            (Scenario.suspendedSave Scenario.cyEditedInFlight) []
            (Scenario.okResult Scenario.bobSaved) None None _ _).
  - vm_compute. reflexivity.
  - reflexivity.
Defined.

(** ** The summary counters *)

Lemma size_filter_insert {A} (P : string * A → Prop) `{!∀ x, Decision (P x)}
    (m : gmap string A) (i : string) (x : A) :
  m !! i = None →
  size (filter P (<[i:=x]> m))
  = (if decide (P (i, x)) then 1 else 0) + size (filter P m).
Proof.
  intros Hi. rewrite map_filter_insert. case_decide.
  - rewrite map_size_insert_None; [lia|].
    apply map_lookup_filter_None_2. by left.
  - by rewrite delete_id.
Qed.

Lemma fold_countMember (acc : Summary)
    (m : gmap string MemberAttendanceEntry) :
  let r := map_fold (λ _ entry a, countMember entry a) acc m in
  summary_present r
  = summary_present acc + size (filter (λ kv, status kv.2 = Some present) m)
  ∧ summary_apology r
    = summary_apology acc + size (filter (λ kv, status kv.2 = Some apology) m)
  ∧ summary_absent r
    = summary_absent acc + size (filter (λ kv, status kv.2 = Some absent) m).
Proof.
  apply (map_fold_weak_ind
    (λ r m,
       summary_present r
       = summary_present acc
         + size (filter (λ kv, status kv.2 = Some present) m)
       ∧ summary_apology r
         = summary_apology acc
           + size (filter (λ kv, status kv.2 = Some apology) m)
       ∧ summary_absent r
         = summary_absent acc
           + size (filter (λ kv, status kv.2 = Some absent) m))).
  - rewrite !map_filter_empty, !map_size_empty. lia.
  - intros i x m' r Hi (Hp & Ha & Hb).
    rewrite !size_filter_insert by done. unfold countMember. simpl.
    destruct (status x) as [[]|]; simpl;
      repeat case_decide; simplify_eq; lia.
Qed.

Lemma fold_countAttended (acc : Summary)
    (m : gmap string GuestAttendanceEntry) :
  let r := map_fold (λ _ entry a, countAttended entry a) acc m in
  summary_present r
  = summary_present acc + size (filter (λ kv, attended kv.2 = true) m)
  ∧ summary_apology r = summary_apology acc
  ∧ summary_absent r = summary_absent acc.
Proof.
  apply (map_fold_weak_ind
    (λ r m,
       summary_present r
       = summary_present acc + size (filter (λ kv, attended kv.2 = true) m)
       ∧ summary_apology r = summary_apology acc
       ∧ summary_absent r = summary_absent acc)).
  - rewrite !map_filter_empty, !map_size_empty. lia.
  - intros i x m' r Hi (Hp & Ha & Hb).
    rewrite !size_filter_insert by done. unfold countAttended. simpl.
    destruct (attended x); simpl; repeat case_decide; simplify_eq; lia.
Qed.

(** X14. The summary counts entries, not listed subjects: [present] is the
    number of member entries with status present plus the number of guest
    and of pipeliner entries marked attended, [apology] and [absent] are the
    numbers of member entries with that status.  A member entry whose status
    is unset is counted nowhere, and guests and pipeliners never count as
    apology or absent. *)
Theorem summary_counts_entries_by_status
    (memberEntries : gmap string MemberAttendanceEntry)
    (guestEntries pipelinerEntries : gmap string GuestAttendanceEntry) :
  let s := computeSummary memberEntries guestEntries pipelinerEntries in
  summary_present s
  = size (filter (λ kv, status kv.2 = Some present) memberEntries)
    + size (filter (λ kv, attended kv.2 = true) guestEntries)
    + size (filter (λ kv, attended kv.2 = true) pipelinerEntries)
  ∧ summary_apology s
    = size (filter (λ kv, status kv.2 = Some apology) memberEntries)
  ∧ summary_absent s
    = size (filter (λ kv, status kv.2 = Some absent) memberEntries).
Proof.
  unfold computeSummary.
  set (s0 := {| summary_present := 0; summary_apology := 0;
                summary_absent := 0 |}).
  destruct (fold_countMember s0 memberEntries) as (Hp1 & Ha1 & Hb1).
  set (s1 := map_fold (λ _ entry acc, countMember entry acc) s0 memberEntries)
    in *.
  destruct (fold_countAttended s1 guestEntries) as (Hp2 & Ha2 & Hb2).
  set (s2 := map_fold (λ _ entry acc, countAttended entry acc) s1 guestEntries)
    in *.
  destruct (fold_countAttended s2 pipelinerEntries) as (Hp3 & Ha3 & Hb3).
  simpl in *. lia.
Qed.

End PageExtras.

(** * Further properties of the route *)

Module GatewayExtras.
Import Gateway GatewayFacts.

(** ** What a successful response says about the store *)

Lemma normalized_rows gen_random_uuid n rows :
  (normalized gen_random_uuid n rows).1.*2 = rows.
Proof.
  revert n. induction rows as [|u rows IH]; intros n; [done|].
  simpl. destruct (nullif_empty (in_id u)).
  - specialize (IH n). destruct (normalized gen_random_uuid n rows).
    cbn [fst snd] in *. rewrite fmap_cons. by f_equal.
  - specialize (IH (S n)). destruct (normalized gen_random_uuid (S n) rows).
    cbn [fst snd] in *. rewrite fmap_cons. by f_equal.
Qed.

Lemma normalized_drawn gen_random_uuid n rows :
  n ≤ (normalized gen_random_uuid n rows).2.
Proof.
  revert n. induction rows as [|u rows IH]; intros n; [done|].
  simpl. destruct (nullif_empty (in_id u)).
  - specialize (IH n). by destruct (normalized gen_random_uuid n rows).
  - specialize (IH (S n)). destruct (normalized gen_random_uuid (S n) rows).
    simpl in *. lia.
Qed.

(** The k-th identified row is the k-th payload row, under its own
    identifier when it has one and under a newly drawn one otherwise. *)
Lemma normalized_lookup gen_random_uuid n rows k u :
  rows !! k = Some u →
  ∃ i, (normalized gen_random_uuid n rows).1 !! k = Some (i, u)
       ∧ match nullif_empty (in_id u) with
         | Some j => i = j
         | None => ∃ m, n ≤ m < (normalized gen_random_uuid n rows).2
                        ∧ i = gen_random_uuid m
         end.
Proof.
  revert n k. induction rows as [|v rows IH]; intros n k Hk; [done|].
  destruct k as [|k]; simpl in Hk.
  - simplify_eq. simpl.
    destruct (nullif_empty (in_id u)) eqn:E.
    + destruct (normalized gen_random_uuid n rows). simpl. eauto.
    + pose proof (normalized_drawn gen_random_uuid (S n) rows).
      destruct (normalized gen_random_uuid (S n) rows). simpl in *.
      eexists. split; [done|]. exists n. split; [lia|done].
  - simpl. destruct (nullif_empty (in_id v)).
    + destruct (IH n k Hk) as (i & Hi & Hid).
      destruct (normalized gen_random_uuid n rows). simpl in *. eauto.
    + destruct (IH (S n) k Hk) as (i & Hi & Hid).
      destruct (normalized gen_random_uuid (S n) rows). simpl in *.
      exists i. split; [done|].
      destruct (nullif_empty (in_id u)); [done|].
      destruct Hid as (m & Hm & ->). exists m. split; [lia|done].
Qed.

(** What the batch function returns when it goes through. *)
Lemma batchResult_inv gen_random_uuid resolve n ups dels
    (t t' : gmap string AttendanceRecord) recs n' :
  batchResult gen_random_uuid resolve n ups dels t = Some (t', recs, n') →
  let identified := (normalized gen_random_uuid n ups).1 in
  let d := foldr delete t dels in
  NoDup identified.*1
  ∧ t' = list_to_map (storedRows resolve d identified) ∪ d
  ∧ recs = (λ ir, returning ir.1 ir.2) <$> storedRows resolve d identified
  ∧ n' = (normalized gen_random_uuid n ups).2.
Proof.
  unfold batchResult.
  destruct (normalized gen_random_uuid n ups) as [identified n1]. simpl.
  case_bool_decide as Hnd; [|done]. unfold applyUpserts.
  rewrite (applyUpserts_distinct resolve identified
             (foldr delete t dels) (foldr delete t dels) []) by done.
  by intros [= <- <- <-].
Qed.

Lemma returned_ids resolve (d : gmap string AttendanceRecord) identified :
  row_id <$> ((λ ir, returning ir.1 ir.2) <$> storedRows resolve d identified)
  = identified.*1.
Proof.
  unfold storedRows. rewrite <- !list_fmap_compose.
  by apply list_fmap_ext.
Qed.

(** The table and the returned rows of a statement over distinct
    identifiers. *)
Lemma stored_rows_agree resolve (d : gmap string AttendanceRecord) identified :
  NoDup identified.*1 →
  let stored := storedRows resolve d identified in
  let t' : gmap string AttendanceRecord := list_to_map stored ∪ d in
  let recs := (λ ir, returning ir.1 ir.2) <$> stored in
  (∀ row, row ∈ recs →
     ∃ r, t' !! row_id row = Some r ∧ row = returning (row_id row) r)
  ∧ (∀ j, j ∉ row_id <$> recs → t' !! j = d !! j).
Proof.
  intros Hnd stored t' recs. split.
  - intros row Hrow. apply list_elem_of_fmap in Hrow as ([i r] & -> & Hir).
    exists r. split; [|done]. simpl.
    apply lookup_union_Some_l, elem_of_list_to_map_1; [|done].
    unfold stored. by rewrite storedRows_keys.
  - intros j Hj. unfold recs, stored in Hj. rewrite returned_ids in Hj.
    unfold t'. rewrite lookup_union_r; [done|].
    apply not_elem_of_list_to_map_1. unfold stored.
    by rewrite storedRows_keys.
Qed.

Lemma POST_success_inv gen_random_uuid fails env payload w r w' records
    deletedIds :
  txn w = None →
  POST gen_random_uuid fails env payload w = (inr r, w') →
  body r = Saved records deletedIds →
  ∃ resolve ups identified,
    let d := foldr delete (committed w) deletedIds in
    deletedIds = default [] (payload ≫= deletions)
    ∧ ((resolve = insertOrUpdateStatus
        ∧ truthy (getConnectionString env) = true
        ∧ ups = default [] (payload ≫= upserts))
       ∨ (resolve = insertOrMerge
          ∧ truthy (getConnectionString env) = false
          ∧ ups = normalizeUpsertPayload (default [] (payload ≫= upserts))))
    ∧ identified = (normalized gen_random_uuid (drawn w) ups).1
    ∧ drawn w' = (normalized gen_random_uuid (drawn w) ups).2
    ∧ NoDup identified.*1
    ∧ committed w' = list_to_map (storedRows resolve d identified) ∪ d
    ∧ records = (λ ir, returning ir.1 ir.2) <$> storedRows resolve d identified.
Proof.
  intros Htxn Hpost Hbody.
  pose proof (POST_deletedIds _ _ _ _ _ _ _ _ _ Hpost Hbody) as ->.
  destruct (POST_success _ _ _ _ _ _ _ _ _ Htxn Hpost Hbody) as [Hb _].
  unfold appliedBatch in Hb.
  destruct (truthy (getConnectionString env)) eqn:Hconn;
    apply batchResult_inv in Hb as (Hnd & Ht & Hr & Hn);
    eexists _, _, _; (split; [reflexivity|]);
    (split; [first [left; by repeat split | right; by repeat split]|]);
    by repeat split.
Qed.

(** X15. A successful response reports what the store now holds: the
    returned records have distinct identifiers, each of them is the row the
    committed table holds under that identifier, every identifier of
    [deletedIds] that is not written again has no row, and every other row
    of the table is as it was before the request. *)
Theorem success_reports_the_stored_rows
    (gen_random_uuid : nat → string) (fails : FaultPoint → option Thrown)
    (env : Env) (payload : option AttendancePayload) (w w' : World)
    (r : Response) (records : list UpsertRow) (deletedIds : list string) :
  txn w = None →
  POST gen_random_uuid fails env payload w = (inr r, w') →
  body r = Saved records deletedIds →
  NoDup (row_id <$> records)
  ∧ (∀ row, row ∈ records →
       ∃ stored, committed w' !! row_id row = Some stored
                 ∧ row = returning (row_id row) stored)
  ∧ (∀ j, j ∉ row_id <$> records →
       committed w' !! j
       = if decide (j ∈ deletedIds) then None else committed w !! j).
Proof.
  intros Htxn Hpost Hbody.
  destruct (POST_success_inv _ _ _ _ _ _ _ _ _ Htxn Hpost Hbody)
    as (resolve & ups & identified & _ & _ & _ & _ & Hnd & -> & ->).
  destruct (stored_rows_agree resolve
              (foldr delete (committed w) deletedIds) identified Hnd)
    as [Hrows Hframe].
  split; [by rewrite returned_ids|]. split; [exact Hrows|].
  intros j Hj. rewrite (Hframe j Hj). apply lookup_foldr_delete.
Qed.

Lemma success_reports_the_stored_rows_witness :
  let run := POST Deployment.uuidOf Deployment.noFaults Deployment.withDatabase
               (Some Deployment.annUnsetBobPresent)
               (atRest Deployment.annPresent 0) in
  let records := [ {| row_id := "u"; row_member_id := Some "m-bob";
                      row_guest_id := None; row_pipeliner_id := None;
                      row_status := present |} ] in
  NoDup (row_id <$> records)
  ∧ (∀ row, row ∈ records →
       ∃ stored, committed run.2 !! row_id row = Some stored
                 ∧ row = returning (row_id row) stored)
  ∧ (∀ j, j ∉ row_id <$> records →
       committed run.2 !! j
       = if decide (j ∈ ["A1"; "no-such-row"]) then None
         else Deployment.annPresent !! j).
Proof.
  refine (success_reports_the_stored_rows Deployment.uuidOf
            Deployment.noFaults Deployment.withDatabase
            (Some Deployment.annUnsetBobPresent)
            (atRest Deployment.annPresent 0) _ _ _ _ _ _ _).
  - reflexivity.
  - vm_compute. reflexivity.
  - reflexivity.
Defined.

(** ** The records answer the upserts *)

Lemma resolved_status resolve e u :
  resolve = insertOrUpdateStatus ∨ resolve = insertOrMerge →
  col_status (resolve e u) = in_status u.
Proof. intros [-> | ->]; [by destruct e|done]. Qed.

Lemma nullif_empty_truthy o :
  nullif_empty o = if truthy o then o else None.
Proof. done. Qed.

(** The k-th row handed to the statement, on every tier: the k-th upsert
    of the request, whose identifier counts only if it is not empty. *)
Lemma statement_row env (ups0 ups : list UpsertInput) k u :
  (truthy (getConnectionString env) = true ∧ ups = ups0)
  ∨ (truthy (getConnectionString env) = false
     ∧ ups = normalizeUpsertPayload ups0) →
  ups0 !! k = Some u →
  ∃ u', ups !! k = Some u' ∧ in_status u' = in_status u
        ∧ nullif_empty (in_id u') = nullif_empty (in_id u).
Proof.
  intros [[_ ->]|[_ ->]] Hk; [eauto|].
  unfold normalizeUpsertPayload. rewrite list_lookup_fmap, Hk. simpl.
  eexists. split; [done|].
  rewrite !nullif_empty_truthy.
  destruct (truthy (in_id u)) eqn:E; simpl; by rewrite ?E.
Qed.

(** X16. In a successful response [records] answers the request's upserts
    one for one and in order: there are as many records as upserts, and the
    k-th record has the status of the k-th upsert and its identifier when
    the upsert carries a (non-empty) one, and a newly generated identifier
    otherwise. *)
Theorem records_answer_the_upserts_in_order
    (gen_random_uuid : nat → string) (fails : FaultPoint → option Thrown)
    (env : Env) (payload : option AttendancePayload) (w w' : World)
    (r : Response) (records : list UpsertRow) (deletedIds : list string) :
  txn w = None →
  POST gen_random_uuid fails env payload w = (inr r, w') →
  body r = Saved records deletedIds →
  length records = length (default [] (payload ≫= upserts))
  ∧ ∀ k u, default [] (payload ≫= upserts) !! k = Some u →
      ∃ row, records !! k = Some row
             ∧ row_status row = in_status u
             ∧ if truthy (in_id u) then Some (row_id row) = in_id u
               else ∃ m, drawn w ≤ m < drawn w'
                         ∧ row_id row = gen_random_uuid m.
Proof.
  intros Htxn Hpost Hbody.
  destruct (POST_success_inv _ _ _ _ _ _ _ _ _ Htxn Hpost Hbody)
    as (resolve & ups & identified & _ & Htier & Hid & Hn & _ & _ & ->).
  assert (Hres : resolve = insertOrUpdateStatus ∨ resolve = insertOrMerge)
    by (destruct Htier as [(? & _)|(? & _)]; eauto).
  assert (Hups : (truthy (getConnectionString env) = true
                  ∧ ups = default [] (payload ≫= upserts))
                 ∨ (truthy (getConnectionString env) = false
                    ∧ ups = normalizeUpsertPayload
                              (default [] (payload ≫= upserts))))
    by (destruct Htier as [(_ & ? & ?)|(_ & ? & ?)]; eauto).
  split.
  - unfold storedRows. rewrite !length_fmap, Hid.
    rewrite <- (length_fmap snd), normalized_rows.
    destruct Hups as [[_ ->]|[_ ->]]; [done|].
    unfold normalizeUpsertPayload. by rewrite length_fmap.
  - intros k u Hk.
    destruct (statement_row env _ ups k u Hups Hk) as (u' & Hk' & Hst & Hnull).
    destruct (normalized_lookup gen_random_uuid (drawn w) ups k u' Hk')
      as (i & Hi & Hi').
    rewrite <- Hid in Hi. eexists. split.
    { unfold storedRows. rewrite !list_lookup_fmap, Hi. reflexivity. }
    simpl. split; [by rewrite resolved_status|].
    rewrite Hnull, nullif_empty_truthy in Hi'.
    destruct (truthy (in_id u)) eqn:E.
    + destruct (in_id u); by simplify_eq/=.
    + by rewrite Hn.
Qed.

Lemma records_answer_the_upserts_in_order_witness :
  let run := POST Deployment.uuidOf Deployment.noFaults
               Deployment.withServiceKey (Some Deployment.gilAttends)
               (atRest Deployment.annPresent 0) in
  let records := [ {| row_id := "u"; row_member_id := None;
                      row_guest_id := Some "g-gil"; row_pipeliner_id := None;
                      row_status := present |} ] in
  length records = length (default [] (Some Deployment.gilAttends ≫= upserts))
  ∧ ∀ k u, default [] (Some Deployment.gilAttends ≫= upserts) !! k = Some u →
      ∃ row, records !! k = Some row
             ∧ row_status row = in_status u
             ∧ if truthy (in_id u) then Some (row_id row) = in_id u
               else ∃ m, 0 ≤ m < drawn run.2
                         ∧ row_id row = Deployment.uuidOf m.
Proof.
  refine (records_answer_the_upserts_in_order Deployment.uuidOf
            Deployment.noFaults Deployment.withServiceKey
            (Some Deployment.gilAttends) (atRest Deployment.annPresent 0)
            _ _ _ _ _ _ _).
  - reflexivity.
  - vm_compute. reflexivity.
  - reflexivity.
Defined.

(** X17. On the direct connection an upsert whose identifier is that of an
    existing row (not deleted by the same batch) changes the status of that
    row and nothing else: the stored meeting and subject columns stay,
    whatever the request row says. *)
Theorem direct_update_changes_status_only
    (gen_random_uuid : nat → string) (fails : FaultPoint → option Thrown)
    (env : Env) (payload : option AttendancePayload) (w w' : World)
    (r : Response) (u : UpsertInput) (i : string) (old : AttendanceRecord) :
  txn w = None →
  truthy (getConnectionString env) = true →
  POST gen_random_uuid fails env payload w = (inr r, w') →
  success r = true →
  u ∈ default [] (payload ≫= upserts) →
  in_id u = Some i → i ≠ "" →
  i ∉ default [] (payload ≫= deletions) →
  committed w !! i = Some old →
  committed w' !! i
  = Some {| col_meeting_id := col_meeting_id old;
            col_member_id := col_member_id old;
            col_guest_id := col_guest_id old;
            col_pipeliner_id := col_pipeliner_id old;
            col_status := in_status u |}.
Proof.
  intros Htxn Hconn Hpost Hok Hu Hid Hne Hdel Hold.
  destruct r as [st [records deletedIds|e]]; [|done].
  destruct (POST_success_inv _ _ _ _ _ _ _ _ _ Htxn Hpost eq_refl)
    as (resolve & ups & identified & Hdels & Htier & Hident & _ & Hnd & -> & _).
  destruct Htier as [(-> & _ & ->)|(_ & ? & _)]; [|congruence].
  apply list_elem_of_lookup_1 in Hu as [k Hk].
  destruct (normalized_lookup gen_random_uuid (drawn w) _ k u Hk)
    as (i' & Hi & Hi').
  rewrite nullif_empty_truthy, Hid in Hi'.
  rewrite (truthy_Some i Hne) in Hi'. subst i'. rewrite <- Hident in Hi.
  assert (Hd : foldr delete (committed w) deletedIds !! i = Some old).
  { rewrite lookup_foldr_delete, decide_False; [done|]. by rewrite Hdels. }
  apply lookup_union_Some_l, elem_of_list_to_map_1;
    [by rewrite storedRows_keys|].
  unfold storedRows. apply list_elem_of_fmap. exists (i, u).
  split; [|by eapply list_elem_of_lookup_2].
  simpl. by rewrite Hd.
Qed.

Lemma direct_update_changes_status_only_witness :
  committed (POST Deployment.uuidOf Deployment.noFaults
               Deployment.withDatabase (Some Deployment.annApology)
               (atRest Deployment.annPresent 0)).2 !! "A1"
  = Some {| col_meeting_id := "meeting-1"; col_member_id := Some "m-ann";
            col_guest_id := None; col_pipeliner_id := None;
            col_status := apology |}.
Proof.
  refine (direct_update_changes_status_only Deployment.uuidOf
            Deployment.noFaults Deployment.withDatabase
            (Some Deployment.annApology) (atRest Deployment.annPresent 0)
            _ _
            {| in_id := Some "A1"; in_meeting_id := "meeting-1";
               in_member_id := Some "m-ann"; in_guest_id := None;
               in_pipeliner_id := None; in_status := apology |}
            "A1"
            {| col_meeting_id := "meeting-1"; col_member_id := Some "m-ann";
               col_guest_id := None; col_pipeliner_id := None;
               col_status := present |}
            _ _ _ _ _ _ _ _ _).
  - reflexivity.
  - reflexivity.
  - vm_compute. reflexivity.
  - reflexivity.
  - simpl. left.
  - reflexivity.
  - done.
  - simpl. apply not_elem_of_nil.
  - reflexivity.
Defined.

(** ** Configuration *)

(** X18. An empty [SUPABASE_DB_URL] hides [DATABASE_URL]: [??] only skips
    a variable that is not set, so the connection string is the empty
    string, the direct connection is not used whatever [DATABASE_URL] is,
    and no access of the request goes through it. *)
Theorem empty_db_url_hides_database_url
    (gen_random_uuid : nat → string) (fails : FaultPoint → option Thrown)
    (env : Env) (payload : option AttendancePayload) (w : World) :
  SUPABASE_DB_URL env = Some "" →
  getConnectionString env = Some ""
  ∧ preferredTier env ≠ DirectConnection
  ∧ ∃ ops, log (POST gen_random_uuid fails env payload w).2 = log w ++ ops
           ∧ Forall (λ op, opTier op ≠ DirectConnection) ops.
Proof.
  intros Hurl.
  assert (Hconn : getConnectionString env = Some "")
    by (unfold getConnectionString; by rewrite Hurl).
  assert (Htier : preferredTier env ≠ DirectConnection).
  { unfold preferredTier. rewrite Hconn. simpl.
    by destruct (hasSupabaseServiceConfiguration env). }
  split; [done|]. split; [done|].
  destruct (route_trace gen_random_uuid fails env payload w _ _
              (surjective_pairing _)) as (ops & Hlog & Hops & _).
  exists ops. split; [done|].
  eapply Forall_impl; [exact Hops|]. simpl. congruence.
Qed.

Lemma empty_db_url_hides_database_url_witness :
  let env := {| SUPABASE_DB_URL := Some "";
                DATABASE_URL := Some "postgres://attendance";
                NEXT_PUBLIC_SUPABASE_URL := Some "https://project.example";
                SUPABASE_SERVICE_ROLE_KEY := None;
                SUPABASE_SERVICE_KEY := None; SUPABASE_SECRET_KEY := None;
                SUPABASE_SERVICE_TOKEN := None;
                NEXT_PUBLIC_SUPABASE_ANON_KEY := Some "anon-key" |} in
  getConnectionString env = Some ""
  ∧ preferredTier env ≠ DirectConnection
  ∧ ∃ ops, log (POST Deployment.uuidOf Deployment.noFaults env
                     (Some Deployment.gilAttends)
                     (atRest Deployment.annPresent 0)).2
           = log (atRest Deployment.annPresent 0) ++ ops
           ∧ Forall (λ op, opTier op ≠ DirectConnection) ops.
Proof.
  apply (empty_db_url_hides_database_url Deployment.uuidOf Deployment.noFaults
           {| SUPABASE_DB_URL := Some "";
              DATABASE_URL := Some "postgres://attendance";
              NEXT_PUBLIC_SUPABASE_URL := Some "https://project.example";
              SUPABASE_SERVICE_ROLE_KEY := None;
              SUPABASE_SERVICE_KEY := None; SUPABASE_SECRET_KEY := None;
              SUPABASE_SERVICE_TOKEN := None;
              NEXT_PUBLIC_SUPABASE_ANON_KEY := Some "anon-key" |}
           (Some Deployment.gilAttends) (atRest Deployment.annPresent 0)).
  reflexivity.
Defined.

(** X19. On a server without a connection string, without a service role
    key and without the public URL or the anonymous key, a request with a
    [meetingId] is answered with status 500 and the message of the
    configuration error thrown by [saveWithSupabaseAuthClient]; the store is
    not reached at all. *)
Theorem unconfigured_server_answers_500
    (gen_random_uuid : nat → string) (fails : FaultPoint → option Thrown)
    (env : Env) (payload : option AttendancePayload) (w : World) :
  truthy (payload ≫= meetingId) = true →
  truthy (getConnectionString env) = false →
  hasSupabaseServiceConfiguration env = false →
  truthy (NEXT_PUBLIC_SUPABASE_URL env)
  && truthy (NEXT_PUBLIC_SUPABASE_ANON_KEY env) = false →
  POST gen_random_uuid fails env payload w
  = (inr {| http_status := 500;
            body := Failed "Supabase configuration is missing. Set NEXT_PUBLIC_SUPABASE_URL and NEXT_PUBLIC_SUPABASE_ANON_KEY." |},
     w).
Proof.
  intros Hmeeting Hconn Hservice Hanon.
  unfold POST, saveWithSupabaseAuthClient. rewrite Hmeeting, Hconn, Hservice.
  cbn [negb].
  destruct (truthy (NEXT_PUBLIC_SUPABASE_URL env)),
    (truthy (NEXT_PUBLIC_SUPABASE_ANON_KEY env)); done.
Qed.

Lemma unconfigured_server_answers_500_witness :
  POST Deployment.uuidOf Deployment.noFaults Deployment.noConfiguration
       (Some Deployment.gilAttends) (atRest Deployment.annPresent 0)
  = (inr {| http_status := 500;
            body := Failed "Supabase configuration is missing. Set NEXT_PUBLIC_SUPABASE_URL and NEXT_PUBLIC_SUPABASE_ANON_KEY." |},
     atRest Deployment.annPresent 0).
Proof.
  apply (unconfigured_server_answers_500 Deployment.uuidOf Deployment.noFaults
           Deployment.noConfiguration (Some Deployment.gilAttends)
           (atRest Deployment.annPresent 0)); reflexivity.
Defined.

(** ** Through the API client the batch is not atomic *)

Lemma saveAttendanceWithSupabaseClient_partial gen_random_uuid fails tier
    ups dels w e :
  txn w = None →
  dels ≠ [] → ups ≠ [] →
  fails AtDelete = None → fails AtUpsert = Some e →
  ∃ w', saveAttendanceWithSupabaseClient gen_random_uuid fails tier ups dels w
        = (inl e, w')
        ∧ committed w' = foldr delete (committed w) dels
        ∧ txn w' = None.
Proof.
  intros Htxn Hdels Hups Hdel Hup.
  destruct w as [t0 x n0 l0]. simpl in Htxn. subst x.
  unfold saveAttendanceWithSupabaseClient.
  rewrite (bool_decide_eq_true_2 (0 < length dels))
    by (destruct dels; simpl; [done|lia]).
  rewrite (bool_decide_eq_true_2 (0 < length (normalizeUpsertPayload ups)))
    by (unfold normalizeUpsertPayload; rewrite length_fmap;
        destruct ups; simpl; [done|lia]).
  cbv [apiDelete apiUpsert upsertStatement deleteStatement faultAt
       throw record writeTable getWorld currentTable mbind M_bind mret M_ret
       committed txn drawn log].
  rewrite Hdel, Hup. cbv [mret M_ret throw]. simpl.
  eexists. split; [reflexivity|]. done.
Qed.

(** X20. Through the API client (service or session tier) the deletions
    and the upserts are two separate calls: when the deletion goes through
    and the upsert call fails, the response is the 500 error response and
    yet the deletions are in the committed table. *)
Theorem api_client_save_is_not_atomic
    (gen_random_uuid : nat → string) (fails : FaultPoint → option Thrown)
    (env : Env) (payload : option AttendancePayload) (w : World)
    (e : Thrown) :
  txn w = None →
  truthy (payload ≫= meetingId) = true →
  truthy (getConnectionString env) = false →
  hasSupabaseServiceConfiguration env = true
  ∨ truthy (NEXT_PUBLIC_SUPABASE_URL env)
    && truthy (NEXT_PUBLIC_SUPABASE_ANON_KEY env) = true →
  default [] (payload ≫= deletions) ≠ [] →
  default [] (payload ≫= upserts) ≠ [] →
  fails AtDelete = None →
  fails AtUpsert = Some e →
  let out := (POST gen_random_uuid fails env payload w).1 in
  let w' := (POST gen_random_uuid fails env payload w).2 in
  (∃ error, out = inr {| http_status := 500; body := Failed error |})
  ∧ committed w'
    = foldr delete (committed w) (default [] (payload ≫= deletions)).
Proof.
  intros Htxn Hmeeting Hconn Hconf Hdels Hups Hdel Hup out w'.
  subst out w'. unfold POST. rewrite Hmeeting, Hconn. cbn [negb].
  set (ups := default [] (payload ≫= upserts)) in *.
  set (dels := default [] (payload ≫= deletions)) in *.
  assert (Hpartial := λ tier,
            saveAttendanceWithSupabaseClient_partial gen_random_uuid fails
              tier _ _ w e Htxn Hdels Hups Hdel Hup).
  destruct (hasSupabaseServiceConfiguration env) eqn:Hservice.
  - unfold saveWithSupabaseService.
    unfold hasSupabaseServiceConfiguration in Hservice.
    apply andb_true_iff in Hservice as [-> ->]. cbn [negb orb].
    destruct (Hpartial ServiceClient) as (w1 & Hrun & Hc & _).
    unfold tryCatch, mbind, M_bind. rewrite Hrun. simpl. eauto.
  - destruct Hconf as [?|Hanon]; [done|].
    unfold saveWithSupabaseAuthClient.
    apply andb_true_iff in Hanon as [-> ->]. cbn [negb orb].
    destruct (Hpartial SessionClient) as (w1 & Hrun & Hc & _).
    unfold tryCatch, mbind, M_bind. rewrite Hrun. simpl. eauto.
Qed.

Lemma api_client_save_is_not_atomic_witness :
  let run := POST Deployment.uuidOf Deployment.faultAtUpsert
               Deployment.withServiceKey (Some Deployment.annUnsetBobPresent)
               (atRest Deployment.annPresent 0) in
  (∃ error, run.1 = inr {| http_status := 500; body := Failed error |})
  ∧ committed run.2
    = foldr delete Deployment.annPresent ["A1"; "no-such-row"].
Proof.
  refine (api_client_save_is_not_atomic Deployment.uuidOf
            Deployment.faultAtUpsert Deployment.withServiceKey
            (Some Deployment.annUnsetBobPresent)
            (atRest Deployment.annPresent 0)
            (ErrorInstance "forced error before upserts")
            _ _ _ _ _ _ _ _).
  - reflexivity.
  - reflexivity.
  - reflexivity.
  - left. reflexivity.
  - done.
  - done.
  - reflexivity.
  - reflexivity.
Defined.

(** ** The selected tier serves the request *)

Lemma batchResult_defined gen_random_uuid resolve n ups dels
    (t : gmap string AttendanceRecord) :
  is_Some (batchResult gen_random_uuid resolve n ups dels t) →
  NoDup (normalized gen_random_uuid n ups).1.*1.
Proof.
  unfold batchResult. destruct (normalized gen_random_uuid n ups). simpl.
  case_bool_decide; [done|]. by intros [? ?].
Qed.

(** Closes a branch of a run in which no access is made to fail. *)
Ltac served_leaf Hnd :=
  first
    [ exfalso;
      match goal with
      | Hd : bool_decide (NoDup _) = false |- _ =>
          apply bool_decide_eq_false in Hd; by apply Hd
      end
    | eexists _, _; split; [reflexivity|];
      unfold tierScript; cbn [log];
      repeat match goal with
             | H : bool_decide (0 < length _) = _ |- _ => rewrite H; clear H
             end;
      simpl; rewrite <- ?app_assoc, ?app_nil_r; reflexivity ].

Lemma saveWithPool_served gen_random_uuid fails ups dels w :
  txn w = None →
  (∀ p, fails p = None) →
  NoDup (normalized gen_random_uuid (drawn w) ups).1.*1 →
  ∃ records w',
    saveWithPool gen_random_uuid fails ups dels w
    = (inr (saved records dels), w')
    ∧ log w' = log w ++ tierScript DirectConnection ups dels.
Proof.
  intros Htxn Hnone Hnd. destruct w as [t0 x n0 l0]. simpl in Htxn, Hnd.
  subst x.
  destruct (saveWithPool gen_random_uuid fails ups dels _) as [out w'] eqn:Hrun.
  route_eval Hrun. rewrite !Hnone in Hrun. split_run Hrun.
  all: served_leaf Hnd.
Qed.

Lemma saveAttendanceWithSupabaseClient_served gen_random_uuid fails tier
    ups dels w :
  tier ≠ DirectConnection →
  txn w = None →
  (∀ p, fails p = None) →
  NoDup (normalized gen_random_uuid (drawn w) (normalizeUpsertPayload ups)).1.*1 →
  ∃ records w',
    saveAttendanceWithSupabaseClient gen_random_uuid fails tier ups dels w
    = (inr (records, dels), w')
    ∧ log w' = log w ++ tierScript tier ups dels.
Proof.
  intros Htier Htxn Hnone Hnd. destruct w as [t0 x n0 l0]. simpl in Htxn, Hnd.
  subst x.
  destruct (saveAttendanceWithSupabaseClient gen_random_uuid fails tier ups
              dels _) as [out w'] eqn:Hrun.
  route_eval Hrun. rewrite ?Hnone in Hrun. split_run Hrun.
  all: destruct tier; [done| |].
  all: served_leaf Hnd.
Qed.

(** X25. The tier the configuration selects does serve the request: when
    the request has a [meetingId], the client of the selected tier can be
    created, no store access fails and no identifier is repeated in the
    batch, the response is the success response, the accesses made are
    exactly those of that tier's script (the transaction around the DELETE
    and the upsert query on the direct connection; the delete and upsert
    calls through an API client), and the committed table is the batch
    applied by that tier. *)
Theorem request_is_served_by_the_selected_tier
    (gen_random_uuid : nat → string) (fails : FaultPoint → option Thrown)
    (env : Env) (payload : option AttendancePayload) (w : World) :
  txn w = None →
  truthy (payload ≫= meetingId) = true →
  (∀ p, fails p = None) →
  clientConfigured env (preferredTier env) = true →
  is_Some (appliedBatch gen_random_uuid env payload (drawn w) (committed w)) →
  ∃ records w',
    POST gen_random_uuid fails env payload w
    = (inr (saved records (default [] (payload ≫= deletions))), w')
    ∧ log w'
      = log w ++ tierScript (preferredTier env)
                            (default [] (payload ≫= upserts))
                            (default [] (payload ≫= deletions))
    ∧ appliedBatch gen_random_uuid env payload (drawn w) (committed w)
      = Some (committed w', records, drawn w').
Proof.
  intros Htxn Hmeeting Hnone Hconf Hbatch.
  assert (∃ records w',
            POST gen_random_uuid fails env payload w
            = (inr (saved records (default [] (payload ≫= deletions))), w')
            ∧ log w'
              = log w ++ tierScript (preferredTier env)
                                    (default [] (payload ≫= upserts))
                                    (default [] (payload ≫= deletions)))
    as (records & w' & Hpost & Hlog).
  { unfold POST, preferredTier, appliedBatch in *. rewrite Hmeeting.
    cbn [negb].
    set (ups := default [] (payload ≫= upserts)) in *.
    set (dels := default [] (payload ≫= deletions)) in *.
    destruct (truthy (getConnectionString env)).
    { apply saveWithPool_served; [done..|].
      by eapply batchResult_defined. }
    apply batchResult_defined in Hbatch.
    destruct (hasSupabaseServiceConfiguration env); simpl in Hconf;
      apply andb_true_iff in Hconf as [Hurl Hkey].
    - destruct (saveAttendanceWithSupabaseClient_served gen_random_uuid fails
                  ServiceClient ups dels w) as (records & w' & Hrun & Hlog);
        [done..|].
      exists records, w'. split; [|done].
      unfold saveWithSupabaseService. rewrite Hurl, Hkey. cbn [negb orb].
      unfold tryCatch, mbind, M_bind. by rewrite Hrun.
    - destruct (saveAttendanceWithSupabaseClient_served gen_random_uuid fails
                  SessionClient ups dels w) as (records & w' & Hrun & Hlog);
        [done..|].
      exists records, w'. split; [|done].
      unfold saveWithSupabaseAuthClient. rewrite Hurl, Hkey. cbn [negb orb].
      unfold tryCatch, mbind, M_bind. by rewrite Hrun. }
  exists records, w'. split; [done|]. split; [done|].
  by destruct (POST_success _ _ _ _ _ _ _ _ _ Htxn Hpost eq_refl).
Qed.

Lemma request_is_served_by_the_selected_tier_witness :
  ∃ records w',
    POST Deployment.uuidOf Deployment.noFaults Deployment.withDatabase
         (Some Deployment.annUnsetBobPresent) (atRest Deployment.annPresent 0)
    = (inr (saved records ["A1"; "no-such-row"]), w')
    ∧ log w'
      = [] ++ tierScript DirectConnection
                (default [] (upserts Deployment.annUnsetBobPresent))
                ["A1"; "no-such-row"]
    ∧ appliedBatch Deployment.uuidOf Deployment.withDatabase
                   (Some Deployment.annUnsetBobPresent) 0
                   Deployment.annPresent
      = Some (committed w', records, drawn w').
Proof.
  refine (request_is_served_by_the_selected_tier Deployment.uuidOf
            Deployment.noFaults Deployment.withDatabase
            (Some Deployment.annUnsetBobPresent)
            (atRest Deployment.annPresent 0) _ _ _ _ _).
  - reflexivity.
  - reflexivity.
  - reflexivity.
  - reflexivity.
  - vm_compute. eauto.
Defined.

(** The status code of a response: 200 on success, 400 when the
    [meetingId] is missing, 500 otherwise. *)
Lemma POST_status gen_random_uuid fails env payload w r w' :
  POST gen_random_uuid fails env payload w = (inr r, w') →
  (success r = true ∧ http_status r = 200
   ∧ truthy (payload ≫= meetingId) = true)
  ∨ (success r = false
     ∧ http_status r = if truthy (payload ≫= meetingId) then 500 else 400).
Proof.
  intros Hpost. unfold POST in Hpost.
  destruct (truthy (payload ≫= meetingId)); cbn [negb] in Hpost.
  2:{ unfold mret, M_ret in Hpost. simplify_eq. by right. }
  split_run Hpost. all: simpl; eauto.
Qed.

End GatewayExtras.

(** * From the page to the store and back *)

Module WireExtras.
Import Page Subjects Display Gateway Wire PageFacts GatewayFacts.
Import PageExtras GatewayExtras.

(** How the page reads a response of the route. *)
Lemma fetched_POST gen_random_uuid fails env payload w out w' :
  POST gen_random_uuid fails env payload w = (out, w') →
  saveFails (fetched out) = negb (succeeded out)
  ∧ ∀ result, fetched out = HttpOk result →
      ∃ r records,
        out = inr r
        ∧ body r = Saved records (default [] (payload ≫= deletions))
        ∧ result = {| resp_success := true;
                      resp_records := toRecord <$> records;
                      resp_deletedIds := default [] (payload ≫= deletions);
                      resp_error := None |}.
Proof.
  intros Hpost. destruct out as [e|r]; [by split|].
  destruct (POST_status _ _ _ _ _ _ _ Hpost)
    as [(Hs & Hst & _)|(Hs & Hst)].
  - unfold fetched, succeeded, success in *.
    destruct (body r) as [records deletedIds|error] eqn:Hb; [|done].
    pose proof (POST_deletedIds _ _ _ _ _ _ _ _ _ Hpost Hb) as ->.
    rewrite Hst. simpl. split; [done|]. intros result [= <-]. eauto.
  - unfold fetched, succeeded, success in *.
    destruct (body r) as [records deletedIds|error] eqn:Hb; [done|].
    rewrite Hst. destruct (truthy _); simpl; by split.
Qed.

(** X21. A request the page sends is never refused for want of a
    [meetingId]; the page takes its failure branch exactly when the exit of
    the route handler is not a success response; and when it takes the
    success branch, the [deletedIds] it merges are the deletions it sent and
    the records are those of the response. *)
Theorem page_reads_the_exit_of_the_route
    (auto' : bool) (s s' : PageState) (f : InFlight)
    (gen_random_uuid : nat → string) (fails : FaultPoint → option Thrown)
    (env : Env) (w w' : World) (out : Thrown + Response) :
  saveAttendance auto' s = (s', Some f) →
  POST gen_random_uuid fails env (Some (toPayload (sent f))) w = (out, w') →
  (∀ r, out = inr r → http_status r = 200 ∨ http_status r = 500)
  ∧ saveFails (fetched out) = negb (succeeded out)
  ∧ ∀ result, fetched out = HttpOk result →
      resp_success result = true
      ∧ resp_deletedIds result = req_deletions (sent f)
      ∧ ∃ r records,
          out = inr r ∧ body r = Saved records (req_deletions (sent f))
          ∧ resp_records result = toRecord <$> records.
Proof.
  intros Hsave Hpost.
  assert (Hmeeting : truthy (Some (toPayload (sent f)) ≫= meetingId) = true).
  { destruct (saveAttendance_sends_worthwhile _ _ _ _ Hsave) as [Hne _].
    simpl. by apply truthy_Some. }
  destruct (fetched_POST _ _ _ _ _ _ _ Hpost) as [Hfails Hok].
  split; [|split; [done|]].
  - intros r ->.
    destruct (POST_status _ _ _ _ _ _ _ Hpost)
      as [(_ & Hst & _)|(_ & Hst)]; [by left|].
    rewrite Hmeeting in Hst. by right.
  - intros result Hres.
    destruct (Hok result Hres) as (r & records & -> & Hb & ->).
    simpl in *. eauto 10.
Qed.

Lemma page_reads_the_exit_of_the_route_witness :
  let f := Scenario.suspendedSave (run Scenario.saveOfBob Scenario.fresh) in
  let out := (POST Deployment.uuidOf Deployment.noFaults
                Deployment.withDatabase (Some (toPayload (sent f)))
                (atRest Deployment.annPresent 0)).1 in
  (∀ r, out = inr r → http_status r = 200 ∨ http_status r = 500)
  ∧ saveFails (fetched out) = negb (succeeded out)
  ∧ ∀ result, fetched out = HttpOk result →
      resp_success result = true
      ∧ resp_deletedIds result = req_deletions (sent f)
      ∧ ∃ r records,
          out = inr r ∧ body r = Saved records (req_deletions (sent f))
          ∧ resp_records result = toRecord <$> records.
Proof.
  refine (page_reads_the_exit_of_the_route false
            (page Scenario.bobEdited) _
            (Scenario.suspendedSave (run Scenario.saveOfBob Scenario.fresh))
            Deployment.uuidOf Deployment.noFaults Deployment.withDatabase
            (atRest Deployment.annPresent 0) _ _ _ _).
  - vm_compute. reflexivity.
  - apply surjective_pairing.
Defined.

Lemma lastNaming_elem_of k id records rec :
  lastNaming k id records = Some rec →
  rec ∈ records ∧ recordKey k rec = Some id.
Proof.
  unfold lastNaming. intros H. apply last_Some_elem_of in H.
  apply list_elem_of_filter in H. tauto.
Qed.

(** X22. From the page to the store and back: when the route answers a
    request with success and the page merges the response, every subject
    the response names is bound in the ledger to the identifier of a row
    that the committed table holds for that very subject, and the subject's
    current value is the status stored in that row. *)
Theorem saved_subject_is_bound_to_its_stored_row
    (gen_random_uuid : nat → string) (fails : FaultPoint → option Thrown)
    (env : Env) (w w' : World) (f : InFlight) (out : Thrown + Response)
    (result : SaveAttendanceResponse) (l : Ledger)
    (k : Kind) (id : string) (rec : ResponseRecord) :
  txn w = None →
  POST gen_random_uuid fails env (Some (toPayload (sent f))) w = (out, w') →
  fetched out = HttpOk result →
  id ≠ "" →
  lastNaming k id (resp_records result) = Some rec →
  let l' := mergeResponse f result l in
  currentIdOf k l' id = Some (rec_id rec)
  ∧ currentOf k l' id = rowStatus k rec
  ∧ isDirty k l' id = false
  ∧ ∃ stored, committed w' !! rec_id rec = Some stored
              ∧ columnOf k stored = Some id
              ∧ col_status stored = rec_status rec.
Proof.
  intros Htxn Hpost Hres Hid Hlast l'.
  destruct (mergeResponse_named f result l k id rec Hid Hlast)
    as (Hcur & _ & Hval & _).
  split; [done|]. split; [done|]. split; [apply mergeResponse_clean|].
  destruct (fetched_POST _ _ _ _ _ _ _ Hpost) as [_ Hok].
  destruct (Hok result Hres) as (r & records & -> & Hb & ->).
  simpl in Hlast.
  destruct (lastNaming_elem_of _ _ _ _ Hlast) as [Hin Hkey].
  apply list_elem_of_fmap in Hin as (row & -> & Hrow).
  destruct (POST_success_inv _ _ _ _ _ _ _ _ _ Htxn Hpost Hb)
    as (resolve & ups & identified & _ & _ & _ & _ & Hnd & Ht & Hrecs).
  match type of Hrecs with
  | _ = _ <$> storedRows _ ?d _ =>
      destruct (stored_rows_agree resolve d identified Hnd) as [Hrows _]
  end.
  rewrite <- Hrecs in Hrows. destruct (Hrows row Hrow) as (stored & Hst & Heq).
  exists stored. rewrite Ht. split; [exact Hst|].
  rewrite Heq in Hkey |- *. by destruct k.
Qed.

Lemma saved_subject_is_bound_to_its_stored_row_witness :
  let f := Scenario.suspendedSave (run Scenario.saveOfBob Scenario.fresh) in
  let run := POST Deployment.uuidOf Deployment.noFaults
               Deployment.withDatabase (Some (toPayload (sent f)))
               (atRest Deployment.annPresent 0) in
  let rec := {| rec_id := "u"; rec_status := present;
                rec_member_id := Some "m-bob"; rec_guest_id := None;
                rec_pipeliner_id := None |} in
  let l' := mergeResponse f (Scenario.okResult (fetched run.1))
              (ledger (page (Page.run Scenario.saveOfBob Scenario.fresh))) in
  currentIdOf Member l' "m-bob" = Some (rec_id rec)
  ∧ currentOf Member l' "m-bob" = rowStatus Member rec
  ∧ isDirty Member l' "m-bob" = false
  ∧ ∃ stored, committed run.2 !! rec_id rec = Some stored
              ∧ columnOf Member stored = Some "m-bob"
              ∧ col_status stored = rec_status rec.
Proof.
  refine (saved_subject_is_bound_to_its_stored_row Deployment.uuidOf
            Deployment.noFaults Deployment.withDatabase
            (atRest Deployment.annPresent 0) _
            (Scenario.suspendedSave (Page.run Scenario.saveOfBob Scenario.fresh))
            _ _ _ Member "m-bob" _ _ _ _ _ _).
  - reflexivity.
  - apply surjective_pairing.
  - vm_compute. reflexivity.
  - done.
  - vm_compute. reflexivity.
Defined.

End WireExtras.
